(** * Location-aware assignment and address resolution of the Vyper code
      generator ([vyper/parser/parser_utils.py])

    A shallow embedding of the code generator's helper functions
    ([make_byte_array_copier], [make_byte_slice_copier],
    [add_variable_offset], [base_type_conversion], [unwrap_location],
    [make_setter], [mzero], [make_return_stmt]) together with the
    properties the specification states about them, followed by the
    literal readers ([get_number_as_fraction],
    [get_original_if_0_prefixed]), [byte_array_to_num], [get_length],
    [pack_arguments], [zero_pad] and the passes over the syntax tree
    ([RewriteUnarySubVisitor], [EnsureSingleExitChecker],
    [UnmatchedReturnChecker]) with further properties read off the code.

    Python exceptions are modelled by the error monad [result]; Python's
    [None] return value by [option]. Source positions ([pos]) and gas
    estimates are metadata that no branch of the embedded functions
    inspects; they are left out of the node record. *)

From Stdlib Require Import ZArith List String Ascii Bool Lia.
From Stdlib Require Import DecimalString DecimalZ DecimalPos.
Import ListNotations.
Open Scope string_scope.
Open Scope Z_scope.

#[local] Set Warnings "-register-all".

(** ** Exceptions and the error monad *)

Inductive exn : Type :=
| TypeMismatchException
| InvalidLiteralException
| ArrayIndexException
| ConstancyViolationException
| CompilerPanic
| PyException          (* a bare [raise Exception(...)] *)
| AttributeError       (* attribute access on an object that lacks it *)
| UnboundLocalError    (* a local variable read before any assignment *)
| IndexError           (* sequence subscript out of range *)
| KeyError             (* dict subscript with a missing key *)
| TypeError            (* ill-typed builtin operation, e.g. [str + None] *)
| OutOfFuel.           (* recursion budget of the embedding used up *)

Inductive result (A : Type) : Type :=
| Ok (a : A)
| Err (e : exn).
Arguments Ok {A} a.
Arguments Err {A} e.

Definition bind {A B : Type} (m : result A) (k : A -> result B) : result B :=
  match m with
  | Ok a => k a
  | Err e => Err e
  end.

Notation "x <- m ;; k" := (bind m (fun x => k))
  (at level 61, m at next level, right associativity).
Notation "' pat <- m ;; k" :=
  (bind m (fun x => match x with pat => k end))
  (at level 61, pat pattern, m at next level, right associativity).

Fixpoint mapM {A B : Type} (f : A -> result B) (l : list A) : result (list B) :=
  match l with
  | [] => Ok []
  | x :: xs => y <- f x ;; ys <- mapM f xs ;; Ok (y :: ys)
  end.

(** ** Python builtins used by the source *)

(** [range(start, stop, step)] for a positive [step]. *)
Definition py_range (start stop step : Z) : list Z :=
  map (fun i => start + Z.of_nat i * step)
      (seq 0 (Z.to_nat ((stop - start + step - 1) / step))).

(** [l[i]] on a Python list: negative subscripts count from the end. *)
Definition py_getitem {A : Type} (l : list A) (i : Z) : result A :=
  let n := Z.of_nat (List.length l) in
  let j := if i <? 0 then i + n else i in
  if (0 <=? j) && (j <? n)
  then match nth_error l (Z.to_nat j) with
       | Some a => Ok a
       | None => Err IndexError
       end
  else Err IndexError.

(** [str(n)] for an integer. *)
Definition py_str (n : Z) : string := NilZero.string_of_int (Z.to_int n).

(** [sub in s] for two strings. *)
Fixpoint py_in_str (sub s : string) : bool :=
  if prefix sub s then true
  else match s with
       | EmptyString => false
       | String _ s' => py_in_str sub s'
       end.

(** [x in xs] for a tuple of strings. *)
Definition py_in (x : string) (xs : list string) : bool :=
  existsb (String.eqb x) xs.

(** ** Value types ([vyper/types]) *)

Definition Unit := option (list (string * Z)).

Module Base.

(** The attributes of a [BaseType]. [contract] is set for instances of
    its subclass [ContractType]. *)
Record t : Type := mk {
  typ : string;
  unit : Unit;
  positional : bool;
  is_literal : bool;
  contract : option string
}.

End Base.

Inductive Typ : Type :=
| BaseType (b : Base.t)
| ByteArrayType (maxlen : Z)
| StringType (maxlen : Z)
| ListType (subtype : Typ) (count : Z)
| MappingType (keytype valuetype : Typ)
| StructType (members : list (string * Typ)) (name : string)
| TupleType (members : list Typ).

(** [BaseType(name)] with every optional argument left at its default, as
    [LLLnode.from_list] builds it when [typ] is passed as a string. *)
Definition BaseType_str (name : string) : Typ :=
  BaseType (Base.mk name None false false None).

(** [isinstance(t, ByteArrayLike)], giving the bound. *)
Definition ByteArrayLike_maxlen (t : option Typ) : option Z :=
  match t with
  | Some (ByteArrayType m) => Some m
  | Some (StringType m) => Some m
  | _ => None
  end.

(** ** IR nodes ([vyper/parser/lll_node.py]) *)

Inductive Value : Type :=
| VInt (n : Z)
| VStr (s : string)
| VNone.

Inductive LLLnode : Type := mkLLL {
  value : Value;
  args : list LLLnode;
  typ : option Typ;
  location : option string;
  annotation : option string
}.

(** The nested Python lists handed to [LLLnode.from_list]: a scalar, a
    list whose head is the operation, or an already built node. *)
Inductive Raw : Type :=
| RVal (v : Value)
| RList (head : Value) (rest : list Raw)
| RNode (n : LLLnode).

Definition RInt (n : Z) : Raw := RVal (VInt n).
Definition RStr (s : string) : Raw := RVal (VStr s).
Definition ROp (op : string) (rest : list Raw) : Raw := RList (VStr op) rest.

Definition is_None (v : Value) : bool :=
  match v with VNone => true | _ => false end.

Definition value_is (v : Value) (s : string) : bool :=
  match v with VStr s' => String.eqb s' s | _ => false end.

Definition loc_is (l : option string) (s : string) : bool :=
  match l with Some s' => String.eqb s' s | None => false end.

(** Modelled from the spec: [LLLnode.from_list], whose module is not part
    of the sources at hand. Per the data model an IR node is an operation
    or literal, a nullable type, a nullable location and an ordered list of
    children; a scalar becomes a leaf, a list becomes a node over its
    converted elements, and a node passed in keeps its shape, taking the
    type when one is given and the location when it has none. *)
Fixpoint from_list (obj : Raw) (ty : option Typ) (loc : option string)
         (ann : option string) : LLLnode :=
  match obj with
  | RVal v => mkLLL v [] ty loc ann
  | RList h rest =>
      mkLLL h (map (fun o => from_list o None None None) rest) ty loc ann
  | RNode n =>
      mkLLL (value n) (args n)
            (match ty with Some _ => ty | None => typ n end)
            (match location n with Some _ => location n | None => loc end)
            (annotation n)
  end.

(** The result of a call that may return Python's [None], placed in a list. *)
Definition raw_of (o : option LLLnode) : Raw :=
  match o with
  | Some n => RNode n
  | None => RVal VNone
  end.

(** ** Collaborators outside this module

    Helpers imported from [vyper.types] and [vyper.utils]. Their bodies are
    not part of the sources at hand; the embedded functions are
    parametrised over them. *)
Class VyperEnv : Type := {
  (** [is_base_type(typ, btypes)] *)
  is_base_type : option Typ -> list string -> bool;
  (** [are_units_compatible(frm, to)] *)
  are_units_compatible : option Typ -> Typ -> bool;
  (** [get_size_of_type(typ)], in words *)
  get_size_of_type : Typ -> Z;
  (** [SizeLimits.in_bounds(type_str, value)] *)
  in_bounds : string -> Value -> result bool;
  (** [to == BaseType('address')] *)
  is_address_type : Typ -> bool;
  (** [getattr(typ, 'is_literal', False)] on a type that is not a
      [BaseType]; the data model records the flag for scalars only *)
  literal_flag : Typ -> bool;
  (** [str(node)], used in annotations only *)
  repr_node : LLLnode -> string;
  DECIMAL_DIVISOR : Z;
  FREE_LOOP_INDEX : Z
}.

(** Python dict helpers for the ordered member table of a struct. *)
Fixpoint dict_get {A : Type} (k : string) (d : list (string * A)) : option A :=
  match d with
  | [] => None
  | (k', a) :: d' => if String.eqb k' k then Some a else dict_get k d'
  end.

Definition dict_keys {A : Type} (d : list (string * A)) : list string :=
  map fst d.

(** [attrs.index(key)] *)
Fixpoint list_index (k : string) (l : list string) : option Z :=
  match l with
  | [] => None
  | x :: xs => if String.eqb x k then Some 0
               else option_map Z.succ (list_index k xs)
  end.

(** Equality of two unit annotations (dicts compare by content). *)
Definition unit_incl (u v : list (string * Z)) : bool :=
  forallb (fun kv => match dict_get (fst kv) v with
                     | Some n => Z.eqb n (snd kv)
                     | None => false
                     end) u.

Definition unit_eqb (u v : Unit) : bool :=
  match u, v with
  | None, None => true
  | Some a, Some b => unit_incl a b && unit_incl b a
  | _, _ => false
  end.

(** A member or element selector: a field name, a static position, or an
    index expression. *)
Inductive Key : Type :=
| KStr (s : string)
| KInt (n : Z)
| KNode (n : LLLnode).

Section CodeGen.

Context {env : VyperEnv}.

(** [mzero(dst, nbytes)] *)
Definition mzero (dst : Raw) (nbytes : Raw) : LLLnode :=
  from_list (ROp "calldatacopy" [dst; RStr "calldatasize"; nbytes])
            None None (Some "mzero").

(** [unwrap_location(orig)] *)
Definition unwrap_location (orig : LLLnode) : LLLnode :=
  if loc_is (location orig) "memory" then
    from_list (ROp "mload" [RNode orig]) (typ orig) None None
  else if loc_is (location orig) "storage" then
    from_list (ROp "sload" [RNode orig]) (typ orig) None None
  else if loc_is (location orig) "calldata" then
    from_list (ROp "calldataload" [RNode orig]) (typ orig) None None
  else orig.

(** The guard of [base_type_conversion] on integer literals: the range
    check of the literal and, in a function call, the unit check. *)
Definition literal_guard (orig : LLLnode) (frm : option Typ) (to : Typ)
           (in_function_call : bool) : result unit :=
  match frm with
  | Some (BaseType f) =>
      if Base.is_literal f && py_in (Base.typ f) ["int128"; "uint256"] then
        inb <- in_bounds (Base.typ f) (value orig) ;;
        if negb inb then Err InvalidLiteralException
        else if in_function_call then
          match to with
          | BaseType t =>
              if negb (unit_eqb (Base.unit f) (Base.unit t)
                       && Bool.eqb (Base.positional f) (Base.positional t))
              then Err InvalidLiteralException
              else Ok tt
          | _ => Err AttributeError
          end
        else Ok tt
      else Ok tt
  | Some t => if literal_flag t then Err AttributeError else Ok tt
  | None => Ok tt
  end.

(** [base_type_conversion(orig, frm, to, pos, in_function_call)] *)
Definition base_type_conversion (orig : LLLnode) (frm : option Typ) (to : Typ)
           (in_function_call : bool) : result LLLnode :=
  let orig := unwrap_location orig in
  let is_valid_int128_to_decimal :=
    (is_base_type frm ["int128"] && is_base_type (Some to) ["decimal"])
    && are_units_compatible frm to in
  _ <- literal_guard orig frm to in_function_call ;;
  match frm, to with
  | Some (BaseType f), BaseType t =>
      if is_base_type frm [Base.typ t] && are_units_compatible frm to then
        Ok (mkLLL (value orig) (args orig) (Some to) None None)
      else if (match Base.contract f with Some _ => true | None => false end)
              && is_address_type to then
        Ok (mkLLL (value orig) (args orig) (Some to) None None)
      else if is_valid_int128_to_decimal then
        Ok (from_list (ROp "mul" [RNode orig; RInt DECIMAL_DIVISOR])
              (Some (BaseType (Base.mk "decimal" (Base.unit t)
                                       (Base.positional t) false None)))
              None None)
      else if String.eqb (Base.typ f) "int128"
              && String.eqb (Base.typ t) "uint256"
              && Base.is_literal f then
        Ok (mkLLL (value orig) (args orig) (Some to) None None)
      else Err TypeMismatchException
  | _, _ => Err TypeMismatchException
  end.

(** ["Unsupported location:" + loc]: the concatenation itself fails on a
    missing location before the panic is raised. *)
Definition unsupported_location {A : Type} (loc : option string) : result A :=
  match loc with
  | Some _ => Err CompilerPanic
  | None => Err TypeError
  end.

Definition loop_index : Raw := ROp "mload" [RInt FREE_LOOP_INDEX].

(** [make_byte_slice_copier(destination, source, length, max_length, pos)] *)
Definition make_byte_slice_copier (destination source : LLLnode)
           (length : Raw) (max_length : Z) : result LLLnode :=
  if loc_is (location source) "memory" && loc_is (location destination) "memory"
  then
    Ok (from_list
          (ROp "with" [RStr "_l"; RInt max_length;
             ROp "pop" [ROp "call" [RInt (18 + max_length / 10); RInt 4; RInt 0;
                                    RNode source; RStr "_l";
                                    RNode destination; RStr "_l"]]])
          None None
          (Some ("copy byte slice dest: " ++ repr_node destination)))
  else if is_None (value source) && loc_is (location destination) "memory"
  then Ok (mzero (RNode destination) (RInt max_length))
  else
    loader <-
      (if is_None (value source) then Ok (RInt 0)
       else if loc_is (location source) "memory" then
         Ok (ROp "mload" [ROp "add" [RStr "_pos";
                                     ROp "mul" [RInt 32; loop_index]]])
       else if loc_is (location source) "storage" then
         Ok (ROp "sload" [ROp "add" [RStr "_pos"; loop_index]])
       else Err CompilerPanic) ;;
    setter <-
      (if loc_is (location destination) "memory" then
         Ok (ROp "mstore" [ROp "add" [RStr "_opos";
                                      ROp "mul" [RInt 32; loop_index]];
                           loader])
       else if loc_is (location destination) "storage" then
         Ok (ROp "sstore" [ROp "add" [RStr "_opos"; loop_index]; loader])
       else unsupported_location (location destination)) ;;
    let checker :=
      ROp "if" [ROp "gt" [ROp "mul" [RInt 32; loop_index]; RStr "_actual_len"];
                RStr "break"] in
    let ipos := if is_None (value source) then RInt 0 else RNode source in
    Ok (from_list
          (ROp "with" [RStr "_pos"; ipos;
             ROp "with" [RStr "_opos"; RNode destination;
               ROp "with" [RStr "_actual_len"; length;
                 ROp "repeat" [RInt FREE_LOOP_INDEX; RInt 0;
                               RInt ((max_length + 31) / 32);
                               ROp "seq" [checker; setter]]]]])
          None None
          (Some ("copy byte slice src: " ++ repr_node source
                 ++ " dst: " ++ repr_node destination))).

(** [make_byte_array_copier(destination, source, pos)] *)
Definition make_byte_array_copier (destination source : LLLnode)
  : result LLLnode :=
  match ByteArrayLike_maxlen (typ source) with
  | None => Err TypeMismatchException
  | Some smax =>
    match ByteArrayLike_maxlen (typ destination) with
    | None => Err AttributeError
    | Some dmax =>
      if smax >? dmax then Err TypeMismatchException
      else if is_None (value source) && negb (smax =? dmax) then
        Err TypeMismatchException
      else if loc_is (location source) "memory"
              && loc_is (location destination) "memory" then
        Ok (from_list
              (ROp "with" [RStr "_source"; RNode source;
                 ROp "with" [RStr "_sz";
                             ROp "add" [RInt 32; ROp "mload" [RStr "_source"]];
                   ROp "assert" [ROp "call" [
                     ROp "add" [RInt 18; ROp "div" [RStr "_sz"; RInt 10]];
                     RInt 4; RInt 0; RStr "_source"; RStr "_sz";
                     RNode destination; RStr "_sz"]]]])
              None None (Some "Memory copy"))
      else
        let pos_node0 :=
          if is_None (value source) then source
          else from_list (RStr "_pos") (typ source) (location source) None in
        '(length, pos_node) <-
          (if is_None (value source) then Ok (RInt 1, pos_node0)
           else if loc_is (location source) "memory" then
             Ok (ROp "add" [ROp "mload" [RStr "_pos"]; RInt 32], pos_node0)
           else if loc_is (location source) "storage" then
             Ok (ROp "add" [ROp "sload" [RStr "_pos"]; RInt 32],
                 from_list (ROp "sha3_32" [RNode pos_node0])
                           (typ source) (location source) None)
           else unsupported_location (location source)) ;;
        let destination :=
          if loc_is (location destination) "storage" then
            from_list (ROp "sha3_32" [RNode destination])
                      (typ destination) (location destination) None
          else destination in
        let max_length := if is_None (value source) then 32 else smax + 32 in
        copier <- make_byte_slice_copier destination pos_node length max_length ;;
        Ok (from_list
              (ROp "with" [RStr "_pos";
                           (if is_None (value source) then RInt 0
                            else RNode source);
                           RNode copier])
              None None None)
    end
  end.

(** The tail shared by the Struct and Tuple cases of
    [add_variable_offset]. [subtype] is the local variable of that name:
    only the Struct case assigns it. [member_at i] is
    [typ.members[attrs[i]]] and [member_key] is [typ.members[key]]. *)
Fixpoint member_offset (member_at : Z -> result Typ) (idxs : list Z)
         (offset : Z) : result Z :=
  match idxs with
  | [] => Ok offset
  | i :: idxs' =>
      t <- member_at i ;;
      member_offset member_at idxs' (offset + 32 * get_size_of_type t)
  end.

Definition member_access (parent : LLLnode) (subtype : option Typ)
           (index : Z) (ann : option string)
           (member_at : Z -> result Typ) (member_key : result Typ)
  : result (option LLLnode) :=
  let location := location parent in
  if loc_is location "storage" then
    match subtype with
    | None => Err UnboundLocalError
    | Some st =>
        Ok (Some (from_list
                    (ROp "add" [ROp "sha3_32" [RNode parent];
                                RNode (from_list (RInt index) None None ann)])
                    (Some st) (Some "storage") None))
    end
  else if loc_is location "storage_prehashed" then
    match subtype with
    | None => Err UnboundLocalError
    | Some st =>
        Ok (Some (from_list
                    (ROp "add" [RNode parent;
                                RNode (from_list (RInt index) None None ann)])
                    (Some st) (Some "storage") None))
    end
  else if loc_is location "calldata" || loc_is location "memory" then
    offset <- member_offset member_at (py_range 0 index 1) 0 ;;
    t <- member_key ;;
    Ok (Some (from_list (ROp "add" [RInt offset; RNode parent])
                        (Some t) location ann))
  else Err TypeMismatchException.

(** The tail of the List case of [add_variable_offset]: the address of
    the element selected by the index expression [sub]. *)
Definition list_access (parent : LLLnode) (subtype : Typ) (sub : Raw)
  : result (option LLLnode) :=
  let location := location parent in
  if loc_is location "storage" then
    Ok (Some (from_list (ROp "add" [ROp "sha3_32" [RNode parent]; sub])
                        (Some subtype) (Some "storage") None))
  else if loc_is location "storage_prehashed" then
    Ok (Some (from_list (ROp "add" [RNode parent; sub])
                        (Some subtype) (Some "storage") None))
  else if loc_is location "calldata" || loc_is location "memory" then
    let offset := 32 * get_size_of_type subtype in
    Ok (Some (from_list
                (ROp "add" [ROp "mul" [RInt offset; sub]; RNode parent])
                (Some subtype) location None))
  else Err TypeMismatchException.

(** [add_variable_offset(parent, key, pos, array_bounds_check)] *)
Definition add_variable_offset (parent : LLLnode) (key : Key)
           (array_bounds_check : bool) : result (option LLLnode) :=
  let location := location parent in
  match typ parent with
  | Some (StructType members _) =>
      match key with
      | KStr k =>
          match dict_get k members with
          | None => Err TypeMismatchException
          | Some subtype =>
              let attrs := dict_keys members in
              match list_index k attrs with
              | None => Err TypeMismatchException
              | Some index =>
                  member_access parent (Some subtype) index (Some k)
                    (fun i => a <- py_getitem attrs i ;;
                              match dict_get a members with
                              | Some t => Ok t
                              | None => Err KeyError
                              end)
                    (Ok subtype)
              end
          end
      | _ => Err TypeMismatchException
      end
  | Some (TupleType members) =>
      match key with
      | KInt k =>
          let attrs := py_range 0 (Z.of_nat (List.length members)) 1 in
          member_access parent None k None
            (fun i => a <- py_getitem attrs i ;; py_getitem members a)
            (py_getitem members k)
      | _ => Err TypeMismatchException
      end
  | Some (MappingType keytype valuetype) =>
      match key with
      | KNode key =>
          sub <-
            match ByteArrayLike_maxlen (typ key) with
            | Some kmax =>
                match ByteArrayLike_maxlen (Some keytype) with
                | None => Err TypeMismatchException
                | Some tmax =>
                    if tmax <? kmax then Err TypeMismatchException
                    else
                      a0 <- py_getitem (args key) 0 ;;
                      if 3 <=? Z.of_nat (List.length (args a0)) then
                        last <- py_getitem (args a0) (-1) ;;
                        Ok (from_list
                              (ROp "seq" [RNode key;
                                 ROp "sha3" [ROp "add" [RNode last; RInt 32];
                                             ROp "mload" [RNode last]]])
                              None None None)
                      else
                        Ok (from_list
                              (ROp "sha3" [ROp "add" [RVal (value a0); RInt 32];
                                           ROp "mload" [RVal (value a0)]])
                              None None None)
                end
            | None => base_type_conversion key (typ key) keytype false
            end ;;
          if loc_is location "storage" then
            Ok (Some (from_list (ROp "sha3_64" [RNode parent; RNode sub])
                                (Some valuetype) (Some "storage") None))
          else if loc_is location "memory" || loc_is location "calldata" then
            Err TypeMismatchException
          else Ok None
      | _ => Err AttributeError
      end
  | Some (ListType subtype count) =>
      match key with
      | KNode key =>
          let k := unwrap_location key in
          if negb (is_base_type (typ key) ["int128"; "uint256"]) then
            Err TypeMismatchException
          else
            sub <-
              (if negb array_bounds_check then Ok (RNode k)
               else
                 match typ key with
                 | Some (BaseType b) =>
                     if Base.is_literal b then
                       match value key with
                       | VInt v =>
                           if (v <? 0) || (v >=? count)
                           then Err ArrayIndexException
                           else Ok (RNode k)
                       | _ => Err TypeError
                       end
                     else Ok (ROp "uclamplt" [RNode k; RInt count])
                 | _ => Err AttributeError
                 end) ;;
            list_access parent subtype sub
      | _ => Err AttributeError
      end
  | _ => Err TypeMismatchException
  end.

(** A loop that threads a running counter through its iterations. *)
Fixpoint mapM_acc {A B S : Type} (f : S -> A -> result (B * S)) (s : S)
         (l : list A) : result (list B) :=
  match l with
  | [] => Ok []
  | x :: xs => '(y, s') <- f s x ;; ys <- mapM_acc f s' xs ;; Ok (y :: ys)
  end.

(** [enumerate(l)] *)
Definition enumerate {A : Type} (l : list A) : list (Z * A) :=
  combine (py_range 0 (Z.of_nat (List.length l)) 1) l.

(** [make_setter] receives the result of [add_variable_offset] as its
    target; reading [left.typ] on [None] is an attribute error. *)
Definition target (o : option LLLnode) : result LLLnode :=
  match o with
  | Some n => Ok n
  | None => Err AttributeError
  end.

Definition set_value (n : LLLnode) (v : Value) : LLLnode :=
  mkLLL v (args n) (typ n) (location n) (annotation n).

Definition set_location (n : LLLnode) (l : option string) : LLLnode :=
  mkLLL (value n) (args n) (typ n) l (annotation n).

(** [n.location == s] and [[arg.location for arg in n.args]] *)
Definition at_loc (n : LLLnode) (s : string) : bool := loc_is (location n) s.

Definition arg_locations (n : LLLnode) : list (option string) :=
  map location (args n).

(** [LLLnode.from_list(i, typ='int128')] *)
Definition index_node (i : Z) : Key :=
  KNode (from_list (RInt i) (Some (BaseType_str "int128")) None None).

(** The token [_L] (or [_R]) standing for an operand bound by [with]. *)
Definition token (name : string) (n : LLLnode) : LLLnode :=
  from_list (RStr name) (typ n) (location n) None.

(** When the target lives in storage its root is hashed once and the
    token is retagged as prehashed. Returns the rebound [left] and
    [left_token]. *)
Definition prehash (left : LLLnode) : LLLnode * LLLnode :=
  let left_token := token "_L" left in
  if loc_is (location left) "storage" then
    (from_list (ROp "sha3_32" [RNode left]) (typ left)
               (Some "storage_prehashed") None,
     set_location left_token (Some "storage_prehashed"))
  else (left, left_token).

(** The shape checks of [make_setter] on a Struct or Tuple target with a
    non-null source. *)
Definition check_members (lt : Typ) (right : LLLnode) : result unit :=
  match lt, typ right with
  | StructType lm ln, Some (StructType rm rn) =>
      if existsb (fun k => is_None (value k)) (args right) then
        Err CompilerPanic
      else if negb (forallb (fun k => py_in k (dict_keys rm)) (dict_keys lm))
      then Err TypeMismatchException
      else if negb (forallb (fun k => py_in k (dict_keys lm)) (dict_keys rm))
      then Err TypeMismatchException
      else if negb (String.eqb ln rn) then Err TypeMismatchException
      else Ok tt
  | TupleType lm, Some (TupleType rm) =>
      if negb (Nat.eqb (List.length lm) (List.length rm)) then
        Err TypeMismatchException
      else Ok tt
  | _, _ => Err TypeMismatchException
  end.

(** [left.typ.members[key]] for a key drawn from [keyz]. *)
Definition member_type (lt : Typ) (key : Key) : result Typ :=
  match lt, key with
  | StructType lm _, KStr k =>
      match dict_get k lm with Some t => Ok t | None => Err KeyError end
  | TupleType lm, KInt k => py_getitem lm k
  | _, _ => Err TypeError
  end.

(** [make_setter(left, right, location, pos, in_function_call)]. The
    recursion follows both operands and is bounded by [fuel]. *)
Fixpoint make_setter (fuel : nat) (left right : LLLnode)
         (location : option string) (in_function_call : bool)
         {struct fuel} : result (option LLLnode) :=
  match fuel with
  | O => Err OutOfFuel
  | S fuel' =>
    let setter l r loc := s <- make_setter fuel' l r loc false ;; Ok (raw_of s) in
    match typ left with
    (* Basic types *)
    | Some (BaseType lb) =>
        right <- base_type_conversion right (typ right) (BaseType lb)
                                      in_function_call ;;
        _ <- (if py_in_str "int" (Base.typ lb) then
                match value right with
                | VInt _ =>
                    inb <- in_bounds (Base.typ lb) (value right) ;;
                    if negb inb then Err InvalidLiteralException else Ok tt
                | _ => Ok tt
                end
              else Ok tt) ;;
        let right := if is_None (value right) then set_value right (VInt 0)
                     else right in
        if loc_is location "storage" then
          Ok (Some (from_list (ROp "sstore" [RNode left; RNode right])
                              None None None))
        else if loc_is location "memory" then
          Ok (Some (from_list (ROp "mstore" [RNode left; RNode right])
                              None None None))
        else Ok None
    (* Byte arrays *)
    | Some (ByteArrayType _) | Some (StringType _) =>
        r <- make_byte_array_copier left right ;; Ok (Some r)
    (* Can't copy mappings *)
    | Some (MappingType _ _) => Err TypeMismatchException
    (* Arrays *)
    | Some (ListType lsub lcount) =>
        if value_is (value left) "multi" then Err PyException
        else
          match typ right with
          | Some (ListType _ rcount) =>
              if negb (rcount =? lcount) then Err TypeMismatchException
              else
                let left_token := snd (prehash left) in
          let left := fst (prehash left) in
                if value_is (value right) "multi" then
                  subs <- mapM (fun i =>
                            l <- add_variable_offset left_token (index_node i)
                                                     false ;;
                            r <- py_getitem (args right) i ;;
                            l <- target l ;;
                            setter l r location)
                          (py_range 0 lcount 1) ;;
                  Ok (Some (from_list
                              (ROp "with" [RStr "_L"; RNode left; ROp "seq" subs])
                              None None None))
                else if is_None (value right) then
                  if at_loc left "memory" then
                    Ok (Some (mzero (RNode left)
                                (RInt (32 * get_size_of_type
                                              (ListType lsub lcount)))))
                  else
                    subs <- mapM (fun i =>
                              l <- add_variable_offset left_token (index_node i)
                                                       false ;;
                              l <- target l ;;
                              setter l (from_list (RVal VNone) (Some lsub)
                                                  None None)
                                     location)
                            (py_range 0 lcount 1) ;;
                    Ok (Some (from_list
                                (ROp "with" [RStr "_L"; RNode left;
                                             ROp "seq" subs])
                                None None None))
                else
                  let right_token := token "_R" right in
                  subs <- mapM (fun i =>
                            l <- add_variable_offset left_token (index_node i)
                                                     false ;;
                            r <- add_variable_offset right_token (index_node i)
                                                     false ;;
                            l <- target l ;;
                            r <- target r ;;
                            setter l r location)
                          (py_range 0 lcount 1) ;;
                  Ok (Some (from_list
                              (ROp "with" [RStr "_L"; RNode left;
                                 ROp "with" [RStr "_R"; RNode right;
                                             ROp "seq" subs]])
                              None None None))
          | _ => Err TypeMismatchException
          end
    (* Structs *)
    | Some (StructType _ _ as lt) | Some (TupleType _ as lt) =>
        let is_struct := match lt with StructType _ _ => true | _ => false end in
        if value_is (value left) "multi" && is_struct then Err PyException
        else
          _ <- (if negb (is_None (value right)) then check_members lt right
                else Ok tt) ;;
          let left_token := snd (prehash left) in
          let left := fst (prehash left) in
          let keyz :=
            match lt with
            | StructType lm _ => map KStr (dict_keys lm)
            | TupleType lm =>
                map KInt (py_range 0 (Z.of_nat (List.length lm)) 1)
            | _ => []
            end in
          let locations :=
            if value_is (value left) "multi"
            then arg_locations left
            else map (fun _ => location) keyz in
          if value_is (value right) "multi" then
            if negb (Nat.eqb (List.length (args right)) (List.length keyz))
            then Err TypeMismatchException
            else
              subs <- mapM (fun '(i, (key, loc)) =>
                        l <- add_variable_offset left_token key true ;;
                        r <- py_getitem (args right) i ;;
                        l <- target l ;;
                        setter l r loc)
                      (enumerate (combine keyz locations)) ;;
              Ok (Some (from_list
                          (ROp "with" [RStr "_L"; RNode left; ROp "seq" subs])
                          None None None))
          else if is_None (value right) then
            if at_loc left "memory" then
              Ok (Some (mzero (RNode left)
                              (RInt (32 * get_size_of_type lt))))
            else
              subs <- mapM (fun '(key, loc) =>
                        l <- add_variable_offset left_token key true ;;
                        t <- member_type lt key ;;
                        l <- target l ;;
                        setter l (from_list (RVal VNone) (Some t) None None) loc)
                      (combine keyz locations) ;;
              Ok (Some (from_list
                          (ROp "with" [RStr "_L"; RNode left; ROp "seq" subs])
                          None None None))
          else
            match lt, typ right with
            (* tuple assign *)
            | TupleType _, Some (TupleType rm) =>
                if existsb (fun a => at_loc a "calldata")
                           (args left)
                then Err ConstancyViolationException
                else
                  subs <- mapM_acc (fun static_offset_counter '(left_arg, right_arg, loc) =>
                            '(offset, counter) <-
                              match right_arg with
                              | ByteArrayType _ | StringType _ =>
                                  Ok (from_list
                                        (ROp "add" [RStr "_R";
                                           ROp "mload" [ROp "add" [RStr "_R";
                                                RInt static_offset_counter]]])
                                        (Some right_arg) (Some "memory") None,
                                      static_offset_counter + 32)
                              | BaseType b =>
                                  Ok (from_list
                                        (ROp "mload" [ROp "add" [RStr "_R";
                                                RInt static_offset_counter]])
                                        (Some (BaseType_str (Base.typ b)))
                                        None None,
                                      static_offset_counter
                                      + get_size_of_type right_arg * 32)
                              | _ => Err AttributeError
                              end ;;
                            s <- setter left_arg offset loc ;;
                            Ok (s, counter))
                          0 (combine (combine (args left) rm) locations) ;;
                  Ok (Some (from_list
                              (ROp "with" [RStr "_R"; RNode right; ROp "seq" subs])
                              None None (Some "Tuple assignment")))
            (* the right side is a variable *)
            | _, _ =>
                let right_token := token "_R" right in
                subs <- mapM (fun '(key, loc) =>
                          l <- add_variable_offset left_token key true ;;
                          r <- add_variable_offset right_token key true ;;
                          l <- target l ;;
                          r <- target r ;;
                          setter l r loc)
                        (combine keyz locations) ;;
                Ok (Some (from_list
                            (ROp "with" [RStr "_L"; RNode left;
                               ROp "with" [RStr "_R"; RNode right;
                                           ROp "seq" subs]])
                            None None None))
            end
    | None => Err PyException
    end
  end.

(** ** Function epilogue *)

(** The statement being compiled: only its position is read. *)
Record Stmt : Type := {
  lineno : Z;
  col_offset : Z
}.

(** The compilation context of the current function. [nonreentrant_lock]
    holds what [get_nonreentrant_lock(context.sig, context.global_ctx)]
    returns: the guard acquisition and the guard release code. *)
Record Context : Type := {
  is_private : bool;
  method_id : Z;
  callback_ptr : Value;
  nonreentrant_lock : list Raw * list Raw;
  next_placeholder : Z
}.

(** Modelled from the spec: [context.new_placeholder(typ)], the bump
    allocator of scratch memory, which reserves [32 * size_of(typ)] bytes
    and returns their fixed offset; nothing is reclaimed. *)
Definition new_placeholder (context : Context) (t : Typ) : Z * Context :=
  (next_placeholder context,
   {| is_private := is_private context;
      method_id := method_id context;
      callback_ptr := callback_ptr context;
      nonreentrant_lock := nonreentrant_lock context;
      next_placeholder := next_placeholder context + 32 * get_size_of_type t |}).

(** [make_return_stmt(stmt, context, begin_pos, _size, loop_memory_position)].
    Returns the emitted list together with the context after allocation. *)
Definition make_return_stmt (stmt : Stmt) (context : Context)
           (begin_pos _size : Raw) (loop_memory_position : option Raw)
  : Raw * Context :=
  let nonreentrant_post := snd (nonreentrant_lock context) in
  if is_private context then
    let '(loop_memory_position, context') :=
      match loop_memory_position with
      | None =>
          let '(p, c) := new_placeholder context (BaseType_str "uint256") in
          (RInt p, c)
      | Some p => (p, context)
      end in
    let label_id :=
      py_str (method_id context) ++ "_" ++ py_str (lineno stmt) ++ "_"
      ++ py_str (col_offset stmt) in
    let exit_label := "make_return_loop_exit_" ++ label_id in
    let start_label := "make_return_loop_start_" ++ label_id in
    let jump := ROp "jump" [ROp "mload" [RVal (callback_ptr context)]] in
    match begin_pos, _size with
    | RVal (VInt b), RVal (VInt sz) =>
        (* static values, unroll the mloads instead. *)
        let mloads := map (fun pos => ROp "mload" [RInt pos]) (py_range b sz 32) in
        (ROp "seq_unchecked" (mloads ++ nonreentrant_post ++ [jump]), context')
    | _, _ =>
        let mloads :=
          ROp "seq_unchecked" [
            ROp "mstore" [loop_memory_position; _size];
            ROp "label" [RStr start_label];
            ROp "if" [ROp "le" [ROp "mload" [loop_memory_position]; RInt 0];
                      ROp "goto" [RStr exit_label]];
            ROp "mload" [ROp "add" [begin_pos;
                           ROp "sub" [ROp "mload" [loop_memory_position];
                                      RInt 32]]];
            ROp "mstore" [loop_memory_position;
                          ROp "sub" [ROp "mload" [loop_memory_position];
                                     RInt 32]];
            ROp "goto" [RStr start_label];
            ROp "label" [RStr exit_label]] in
        (ROp "seq_unchecked" ([mloads] ++ nonreentrant_post ++ [jump]), context')
    end
  else
    (ROp "seq_unchecked" (nonreentrant_post ++ [ROp "return" [begin_pos; _size]]),
     context).

(** ** Shapes named by the properties *)

(** The code emitted for a null source and a memory destination. *)
Definition clear_code (dest : LLLnode) : LLLnode :=
  from_list (ROp "with" [RStr "_pos"; RInt 0;
                         RNode (mzero (RNode dest) (RInt 32))])
            None None None.


(** Bytes taken by a run of members. *)
Definition bytes_of (ts : list Typ) : Z :=
  fold_right (fun t acc => 32 * get_size_of_type t + acc) 0 ts.

End CodeGen.

(** ** A reference instance of the collaborators *)

(** Modelled from the spec: the helpers of [vyper.types] and [vyper.utils]
    that the code generator imports. A scalar occupies one word, a byte
    sequence its length word plus its padded payload (and one pointer
    word), an aggregate the sum of its members; [int128] and [uint256]
    have the representable ranges their names state; a source without a
    unit is compatible with every destination, otherwise units and
    positional flags must agree. *)
Fixpoint size_of_type (t : Typ) : Z :=
  match t with
  | BaseType _ => 1
  | ByteArrayType m | StringType m => (m + 31) / 32 + 2
  | ListType s c => size_of_type s * c
  | MappingType _ _ => 0
  | StructType ms _ =>
      (fix go (l : list (string * Typ)) : Z :=
         match l with
         | [] => 0
         | (_, t') :: l' => size_of_type t' + go l'
         end) ms
  | TupleType ms =>
      (fix go (l : list Typ) : Z :=
         match l with
         | [] => 0
         | t' :: l' => size_of_type t' + go l'
         end) ms
  end.

(** Modelled from the spec: [SizeLimits.in_bounds], the representable
    range of each integer type; comparing a non-integer is a type error. *)
Definition size_limits_in_bounds (type_str : string) (v : Value) : result bool :=
  match v with
  | VInt n =>
      if String.eqb type_str "uint256" then Ok ((0 <=? n) && (n <=? 2 ^ 256 - 1))
      else if String.eqb type_str "int128" then
        Ok ((- 2 ^ 127 <=? n) && (n <=? 2 ^ 127 - 1))
      else Err PyException
  | _ => Err TypeError
  end.

(** Modelled from the spec: one instance of the collaborators, used to run
    the code generator on concrete inputs. *)
Definition reference_env : VyperEnv := {|
  is_base_type := fun t names =>
    match t with
    | Some (BaseType b) => py_in (Base.typ b) names
    | _ => false
    end;
  are_units_compatible := fun frm to =>
    match frm, to with
    | Some (BaseType f), BaseType t =>
        match Base.unit f with
        | None => true
        | Some _ => unit_eqb (Base.unit f) (Base.unit t)
                    && Bool.eqb (Base.positional f) (Base.positional t)
        end
    | _, _ => false
    end;
  get_size_of_type := size_of_type;
  in_bounds := size_limits_in_bounds;
  is_address_type := fun t =>
    match t with
    | BaseType b =>
        String.eqb (Base.typ b) "address"
        && unit_eqb (Base.unit b) None
        && negb (Base.positional b)
        && match Base.contract b with None => true | Some _ => false end
    | _ => false
    end;
  literal_flag := fun _ => false;
  repr_node := fun n =>
    match value n with
    | VInt z => py_str z
    | VStr s => s
    | VNone => "None"
    end;
  DECIMAL_DIVISOR := 10000000000;
  FREE_LOOP_INDEX := 288
|}.

(** ** Run-time meaning of the emitted operations *)

(** Modelled from the spec: the virtual machine that runs the emitted
    code, which is not part of the sources at hand. Memory and the
    read-only input region are byte addressed, storage is word addressed,
    a word has 32 bytes. Reading the input region past its end yields zero
    bytes; an unsigned-less-than clamp lets its operand through when it is
    below the bound (both read as unsigned words) and aborts execution
    otherwise. Only the operations the properties below talk about are
    given a meaning. *)
Definition WORD : Z := 2 ^ 256.

Record VMState : Type := {
  memory : Z -> Z;
  storage : Z -> Z;
  calldata : list Z
}.

Inductive outcome (A : Type) : Type :=
| Val (a : A)
| Revert
| Unsupported.
Arguments Val {A} a.
Arguments Revert {A}.
Arguments Unsupported {A}.

Definition obind {A B : Type} (m : outcome A) (k : A -> outcome B) : outcome B :=
  match m with
  | Val a => k a
  | Revert => Revert
  | Unsupported => Unsupported
  end.

(** Modelled from the spec: a byte of the input region; past the end of
    the region every byte reads as zero. *)
Definition calldata_byte (st : VMState) (i : Z) : Z :=
  if i <? 0 then 0 else nth (Z.to_nat i) (calldata st) 0.

(** The big-endian word made of the 32 bytes [rd a .. rd (a + 31)]. *)
Definition word_at (rd : Z -> Z) (a : Z) : Z :=
  fold_left (fun acc i => acc * 256 + rd (a + Z.of_nat i)) (seq 0 32) 0.

Definition mload (st : VMState) (a : Z) : Z := word_at (memory st) a.

(** Modelled from the spec: [calldatacopy mempos calldatapos len], which
    copies [len] bytes of the input region into memory. *)
Definition calldatacopy (st : VMState) (dst src len : Z) : VMState :=
  {| memory := fun a =>
       if (dst <=? a) && (a <? dst + len)
       then calldata_byte st (src + (a - dst))
       else memory st a;
     storage := storage st;
     calldata := calldata st |}.

(** Modelled from the spec: the unsigned-less-than clamp. *)
Definition uclamplt (x bound : Z) : outcome Z :=
  if x mod WORD <? bound mod WORD then Val (x mod WORD) else Revert.

Fixpoint lookup_var (x : string) (rho : list (string * Z)) : outcome Z :=
  match rho with
  | [] => Unsupported
  | (y, v) :: rho' => if String.eqb y x then Val v else lookup_var x rho'
  end.

Section Semantics.

(** The one-word storage hash, kept abstract. *)
Variable sha3_32 : Z -> Z.

(** Modelled from the spec: the value of an expression node; expressions
    only read the state. *)
Fixpoint eval (st : VMState) (rho : list (string * Z)) (n : LLLnode)
  : outcome Z :=
  match value n, args n with
  | VInt z, [] => Val (z mod WORD)
  | VStr "calldatasize", [] => Val (Z.of_nat (List.length (calldata st)))
  | VStr x, [] => lookup_var x rho
  | VStr "with", [x; e; body] =>
      match value x, args x with
      | VStr name, [] =>
          obind (eval st rho e) (fun v => eval st ((name, v) :: rho) body)
      | _, _ => Unsupported
      end
  | VStr "add", [a; b] =>
      obind (eval st rho a) (fun x =>
      obind (eval st rho b) (fun y => Val ((x + y) mod WORD)))
  | VStr "sub", [a; b] =>
      obind (eval st rho a) (fun x =>
      obind (eval st rho b) (fun y => Val ((x - y) mod WORD)))
  | VStr "mul", [a; b] =>
      obind (eval st rho a) (fun x =>
      obind (eval st rho b) (fun y => Val ((x * y) mod WORD)))
  | VStr "mload", [a] => obind (eval st rho a) (fun x => Val (mload st x))
  | VStr "sload", [a] => obind (eval st rho a) (fun x => Val (storage st x))
  | VStr "calldataload", [a] =>
      obind (eval st rho a) (fun x => Val (word_at (calldata_byte st) x))
  | VStr "sha3_32", [a] => obind (eval st rho a) (fun x => Val (sha3_32 x))
  | VStr "uclamplt", [a; b] =>
      obind (eval st rho a) (fun x =>
      obind (eval st rho b) (fun y => uclamplt x y))
  | _, _ => Unsupported
  end.

(** Modelled from the spec: the effect of a statement node on the state. *)
Fixpoint exec (st : VMState) (rho : list (string * Z)) (n : LLLnode)
  : outcome VMState :=
  match value n, args n with
  | VStr "pass", [] => Val st
  | VStr "with", [x; e; body] =>
      match value x, args x with
      | VStr name, [] =>
          obind (eval st rho e) (fun v => exec st ((name, v) :: rho) body)
      | _, _ => Unsupported
      end
  | VStr "seq", stmts =>
      (fix run (st : VMState) (l : list LLLnode) : outcome VMState :=
         match l with
         | [] => Val st
         | s :: l' => obind (exec st rho s) (fun st' => run st' l')
         end) st stmts
  | VStr "calldatacopy", [d; s; len] =>
      obind (eval st rho d) (fun dst =>
      obind (eval st rho s) (fun src =>
      obind (eval st rho len) (fun k => Val (calldatacopy st dst src k))))
  | _, _ => Unsupported
  end.

End Semantics.

Arguments eval : simpl never.
Arguments exec : simpl never.

(** ** Concrete inputs used by the examples below *)

Definition bytes32_in_memory : LLLnode :=
  from_list (RInt 320) (Some (ByteArrayType 32)) (Some "memory") None.

Definition null_bytes32 : LLLnode :=
  from_list (RVal VNone) (Some (ByteArrayType 32)) None None.

(** A machine state whose memory holds [255] in every byte. *)
Definition dirty_state : VMState :=
  {| memory := fun _ => 255; storage := fun _ => 0; calldata := [] |}.

Definition bytes20_in_memory : LLLnode :=
  from_list (RInt 320) (Some (ByteArrayType 20)) (Some "memory") None.

Definition bytes40_in_memory : LLLnode :=
  from_list (RInt 640) (Some (ByteArrayType 40)) (Some "memory") None.

Definition null_bytes40 : LLLnode :=
  from_list (RVal VNone) (Some (ByteArrayType 40)) None None.

Definition stmt_3_4 : Stmt := {| lineno := 3; col_offset := 4 |}.

(** A private function whose guard release clears storage slot 5. *)
Definition guarded_private : Context :=
  {| is_private := true;
     method_id := 7;
     callback_ptr := VInt 100;
     nonreentrant_lock := ([ROp "sstore" [RInt 5; RInt 1]],
                           [ROp "sstore" [RInt 5; RInt 0]]);
     next_placeholder := 320 |}.

Definition int128_t : Typ := BaseType_str "int128".
Definition uint256_t : Typ := BaseType_str "uint256".

(** [BaseType('int128', is_literal=True)] *)
Definition int128_literal_t : Typ :=
  BaseType (Base.mk "int128" None false true None).

(** The literal [-1] as the expression parser types it. *)
Definition literal_minus_one : LLLnode :=
  from_list (RInt (-1)) (Some int128_literal_t) None None.

Definition literal_five : LLLnode :=
  from_list (RInt 5) (Some int128_literal_t) None None.

(** The literal [2 ** 127], one past the largest [int128]. *)
Definition literal_too_large : LLLnode :=
  from_list (RInt (2 ^ 127)) (Some int128_literal_t) None None.

(** A literal carrying the unit [wei], and a destination without a unit. *)
Definition wei_literal_t : Typ :=
  BaseType (Base.mk "uint256" (Some [("wei", 1)]) false true None).

Definition literal_one_wei : LLLnode :=
  from_list (RInt 1) (Some wei_literal_t) None None.

Definition int128_in_memory : LLLnode :=
  from_list (RInt 320) (Some int128_t) (Some "memory") None.

(** A tuple of two words kept in storage slot 5. *)
Definition pair_t : Typ := TupleType [int128_t; int128_t].

Definition pair_in_storage : LLLnode :=
  from_list (RInt 5) (Some pair_t) (Some "storage") None.

Definition pair_in_memory : LLLnode :=
  from_list (RInt 320) (Some pair_t) (Some "memory") None.

Definition point_t : Typ :=
  StructType [("a", int128_t); ("b", int128_t)] "Point".

Definition point_in_memory : LLLnode :=
  from_list (RInt 320) (Some point_t) (Some "memory") None.

Definition point_prehashed : LLLnode :=
  from_list (RStr "_L") (Some point_t) (Some "storage_prehashed") None.

(** A struct literal used as an assignment target. *)
Definition point_literal : LLLnode :=
  from_list (ROp "multi" [RNode literal_five; RNode literal_five])
            (Some point_t) None None.

Definition pair_in_memory_at_640 : LLLnode :=
  from_list (RInt 640) (Some pair_t) (Some "memory") None.

Definition triple_in_memory : LLLnode :=
  from_list (RInt 640)
            (Some (TupleType [int128_t; int128_t; int128_t]))
            (Some "memory") None.

Definition list5_in_memory : LLLnode :=
  from_list (RInt 320) (Some (ListType int128_t 5)) (Some "memory") None.

(** An index read from memory at run time. *)
Definition index_variable : LLLnode :=
  from_list (RInt 640) (Some int128_t) (Some "memory") None.

Definition uint256_in_memory : LLLnode :=
  from_list (RInt 320) (Some uint256_t) (Some "memory") None.

Definition null_pair : LLLnode :=
  from_list (RVal VNone) (Some pair_t) None None.

Definition balances_t : Typ := MappingType int128_t uint256_t.

Definition balances_in_storage : LLLnode :=
  from_list (RInt 3) (Some balances_t) (Some "storage") None.

Definition null_point : LLLnode :=
  from_list (RVal VNone) (Some point_t) None None.

Definition list5_variable : LLLnode :=
  from_list (RInt 640) (Some (ListType int128_t 5)) (Some "memory") None.

Definition list4_variable : LLLnode :=
  from_list (RInt 640) (Some (ListType int128_t 4)) (Some "memory") None.

Definition bytes20_in_calldata : LLLnode :=
  from_list (RInt 4) (Some (ByteArrayType 20)) (Some "calldata") None.

Definition null_list5 : LLLnode :=
  from_list (RVal VNone) (Some (ListType int128_t 5)) None None.

Definition bytes20_unlocated : LLLnode :=
  from_list (RStr "x") (Some (ByteArrayType 20)) None None.

Definition bytes20_in_storage : LLLnode :=
  from_list (RInt 7) (Some (ByteArrayType 20)) (Some "storage") None.

(** A machine state with empty input whose memory word at 640 holds 3. *)
Definition index_three_state : VMState :=
  {| memory := fun a => if a =? 671 then 3 else 0;
     storage := fun _ => 0;
     calldata := [] |}.

(** ** Further functions of the module *)

(** Exceptions raised outside the code generator proper, next to those of
    [exn]. *)
Inductive fault : Type :=
| Raised (e : exn)
| StructureException
| ValueError.            (* [int()] of a string that is no number *)

Inductive res (A : Type) : Type :=
| Done (a : A)
| Fail (f : fault).
Arguments Done {A} a.
Arguments Fail {A} f.

Definition rbind {A B : Type} (m : res A) (k : A -> res B) : res B :=
  match m with
  | Done a => k a
  | Fail f => Fail f
  end.

Definition lift {A : Type} (m : result A) : res A :=
  match m with
  | Ok a => Done a
  | Err e => Fail (Raised e)
  end.

(** *** Python string operations *)

Fixpoint string_take (n : nat) (s : string) : string :=
  match n, s with
  | S n', String c s' => String c (string_take n' s')
  | _, _ => EmptyString
  end.

Fixpoint string_drop (n : nat) (s : string) : string :=
  match n, s with
  | S n', String _ s' => string_drop n' s'
  | _, _ => s
  end.

(** The bound of a slice, clipped as Python clips it. *)
Definition slice_bound (s : string) (i : Z) : nat :=
  let n := Z.of_nat (String.length s) in
  Z.to_nat (if i <? 0 then Z.max 0 (i + n) else Z.min i n).

(** [s[i:]] and [s[:i]] *)
Definition py_slice_from (s : string) (i : Z) : string :=
  string_drop (slice_bound s i) s.

Definition py_slice_to (s : string) (i : Z) : string :=
  string_take (slice_bound s i) s.

(** [c in chars] for a character [c]. *)
Definition char_in (chars : string) (c : ascii) : bool :=
  existsb (Ascii.eqb c) (list_ascii_of_string chars).

(** The number of leading characters of [s] that satisfy [p]: the value of
    [t] after [while t < len(s) and p(s[t]): t += 1]. *)
Fixpoint span_len (p : ascii -> bool) (s : string) : nat :=
  match s with
  | String c s' => if p c then S (span_len p s') else O
  | EmptyString => O
  end.

(** [s.replace('.', '')] *)
Fixpoint remove_dots (s : string) : string :=
  match s with
  | String c s' =>
      if Ascii.eqb c "."%char then remove_dots s'
      else String c (remove_dots s')
  | EmptyString => EmptyString
  end.

(** [s.index('.')], when there is a dot. *)
Fixpoint index_of_dot (s : string) : option nat :=
  match s with
  | String c s' =>
      if Ascii.eqb c "."%char then Some O
      else option_map S (index_of_dot s')
  | EmptyString => None
  end.

Definition digit_value (c : ascii) : option Z :=
  if char_in "0123456789" c then Some (Z.of_N (N_of_ascii c) - 48) else None.

(** [int(s)] for a string of decimal digits. *)
Fixpoint int_of_digits_from (acc : Z) (s : string) : option Z :=
  match s with
  | EmptyString => Some acc
  | String c s' =>
      match digit_value c with
      | Some d => int_of_digits_from (acc * 10 + d) s'
      | None => None
      end
  end.

Definition py_int (s : string) : res Z :=
  match s with
  | EmptyString => Fail ValueError
  | _ => match int_of_digits_from 0 s with
         | Some n => Done n
         | None => Fail ValueError
         end
  end.

(** *** Literals read back from the source text *)

Module NumExpr.

(** The attributes of a number node that are read: its position and the
    sign of its value ([expr.n < 0]). *)
Record t : Type := mk {
  lineno : Z;
  col_offset : Z;
  n_negative : bool
}.

End NumExpr.

(** [context.origcode.splitlines()[expr.lineno - 1][expr.col_offset:]],
    given the lines of the source. *)
Definition context_slice (origcode : list string) (expr : NumExpr.t)
  : result string :=
  line <- py_getitem origcode (NumExpr.lineno expr - 1) ;;
  Ok (py_slice_from line (NumExpr.col_offset expr)).

(** [get_number_as_fraction(expr, context)] *)
Definition get_number_as_fraction (expr : NumExpr.t) (origcode : list string)
  : res (string * Z * Z) :=
  rbind (lift (context_slice origcode expr)) (fun context_slice =>
  let t := span_len (char_in "0123456789.") context_slice in
  if (Nat.ltb t (String.length context_slice))
     && (match String.get t context_slice with
         | Some c => Ascii.eqb c "e"%char
         | None => false
         end)
  then Fail (Raised InvalidLiteralException)
  else
    let text := py_slice_to context_slice (Z.of_nat t) in
    rbind (py_int (remove_dots text)) (fun top =>
    let bottom :=
      match index_of_dot text with
      | None => 1
      | Some i => 10 ^ (Z.of_nat t - Z.of_nat i - 1)
      end in
    let top := if NumExpr.n_negative expr then top * -1 else top in
    Done (text, top, bottom))).

(** [get_original_if_0_prefixed(expr, context)] *)
Definition get_original_if_0_prefixed (expr : NumExpr.t)
           (origcode : list string) : result (option string) :=
  context_slice <- context_slice origcode expr ;;
  let type_prefix := py_slice_to context_slice 2 in
  if negb (py_in type_prefix ["0x"; "0b"]) then Ok None
  else if String.eqb type_prefix "0x" then
    let t := span_len (char_in "0123456789abcdefABCDEF")
                      (string_drop 2 context_slice) in
    Ok (Some (py_slice_to context_slice (Z.of_nat t + 2)))
  else
    let t := span_len (char_in "01") (string_drop 2 context_slice) in
    Ok (Some (py_slice_to context_slice (Z.of_nat t + 2))).

(** *** Byte strings as numbers, argument packing *)

Module Signature.

(** The attributes of a function signature that are read: the types of
    its parameters ([arg.typ for arg in signature.args]), the method
    identifier and the name. *)
Record t : Type := mk {
  args : list Typ;
  method_id : Z;
  name : string
}.

End Signature.

Section CodeGenMore.

Context {env : VyperEnv}.

(** [MemoryPositions.MINNUM], [MemoryPositions.MAXNUM] and
    [has_dynamic_data], defined outside this module. *)
Variables MINNUM MAXNUM : Z.
Variable has_dynamic_data : Typ -> bool.

(** [byte_array_to_num(arg, expr, out_type, offset)]. The getters and the
    result are locals that only some branches assign. *)
Definition byte_array_to_num (arg : LLLnode) (out_type : string) (offset : Z)
  : result LLLnode :=
  let getters :=
    if at_loc arg "memory" then
      Some (from_list (ROp "mload" [RStr "_sub"])
                      (Some (BaseType_str "int128")) None None,
            from_list (ROp "mload" [ROp "add" [RInt 32; RStr "_sub"]])
                      (Some (BaseType_str "int128")) None None)
    else if at_loc arg "storage" then
      Some (from_list (ROp "sload" [ROp "sha3_32" [RStr "_sub"]])
                      (Some (BaseType_str "int128")) None None,
            from_list (ROp "sload" [ROp "add" [RInt 1;
                                      ROp "sha3_32" [RStr "_sub"]]])
                      (Some (BaseType_str "int128")) None None)
    else None in
  let result :=
    if String.eqb out_type "int128" then
      Some (ROp "clamp" [ROp "mload" [RInt MINNUM];
                         ROp "div" [RStr "_el1";
                           ROp "exp" [RInt 256;
                                      ROp "sub" [RInt 32; RStr "_len"]]];
                         ROp "mload" [RInt MAXNUM]])
    else if String.eqb out_type "uint256" then
      Some (ROp "div" [RStr "_el1";
              ROp "exp" [RInt 256; ROp "sub" [RInt offset; RStr "_len"]]])
    else None in
  match getters with
  | None => Err UnboundLocalError
  | Some (lengetter, first_el_getter) =>
      match result with
      | None => Err UnboundLocalError
      | Some result =>
          Ok (from_list
                (ROp "with" [RStr "_sub"; RNode arg;
                   ROp "with" [RStr "_el1"; RNode first_el_getter;
                     ROp "with" [RStr "_len";
                                 ROp "clamp" [RInt 0; RNode lengetter; RInt 32];
                                 result]]])
                (Some (BaseType_str out_type)) None
                (Some ("bytearray to number (" ++ out_type ++ ")")))
      end
  end.

(** [get_length(arg)] *)
Definition get_length (arg : LLLnode) : option LLLnode :=
  if at_loc arg "memory" then
    Some (from_list (ROp "mload" [RNode arg])
                    (Some (BaseType_str "int128")) None None)
  else if at_loc arg "storage" then
    Some (from_list (ROp "sload" [ROp "sha3_32" [RNode arg]])
                    (Some (BaseType_str "int128")) None None)
  else None.

(** The state of the loop of [pack_arguments]: the setters so far,
    [needpos] and [staticarray_offset]. *)
Definition pack_state : Type := (list Raw * bool * Z)%type.

(** One iteration of the loop of [pack_arguments]. *)
Definition pack_argument (fuel : nat) (placeholder : Z) (st : pack_state)
           (i : Z) (arg : LLLnode) (ty : Typ) : result pack_state :=
  let '(setters, needpos, staticarray_offset) := st in
  match ty with
  | BaseType _ =>
      s <- make_setter fuel
             (from_list (RInt (placeholder + staticarray_offset + 32 + i * 32))
                        (Some ty) None None)
             arg (Some "memory") true ;;
      Ok ((setters ++ [raw_of s])%list, needpos, staticarray_offset)
  | ByteArrayType _ | StringType _ =>
      let setters :=
        (setters ++ [ROp "mstore"
                        [RInt (placeholder + staticarray_offset + 32 + i * 32);
                         RStr "_poz"]])%list in
      let arg_copy := from_list (RStr "_s") (typ arg) (location arg) None in
      let target := from_list (ROp "add" [RInt (placeholder + 32); RStr "_poz"])
                              (Some ty) (Some "memory") None in
      copier <- make_byte_array_copier target arg_copy ;;
      Ok ((setters ++
            [ROp "with" [RStr "_s"; RNode arg;
               ROp "seq" [RNode copier;
                 ROp "set" [RStr "_poz";
                   ROp "add" [RInt 32;
                     ROp "ceil32" [ROp "add" [RStr "_poz";
                                              raw_of (get_length arg_copy)]]]]]]])%list,
          true, staticarray_offset)
  | StructType _ _ | ListType _ _ =>
      if has_dynamic_data ty then Err TypeMismatchException
      else
        let target :=
          from_list (RList (VInt (placeholder + 32 + staticarray_offset + i * 32))
                           [])
                    (Some ty) (Some "memory") None in
        s <- make_setter fuel target arg (Some "memory") false ;;
        let count :=
          match ty with
          | ListType _ count => count
          | StructType members _ => Z.of_nat (List.length members)
          | _ => 0
          end in
        Ok ((setters ++ [raw_of s])%list, needpos,
            staticarray_offset + 32 * (count - 1))
  | _ => Err TypeMismatchException
  end.

Fixpoint pack_loop (fuel : nat) (placeholder : Z) (st : pack_state)
         (items : list (Z * (LLLnode * Typ))) : result pack_state :=
  match items with
  | [] => Ok st
  | (i, (arg, ty)) :: items' =>
      st' <- pack_argument fuel placeholder st i arg ty ;;
      pack_loop fuel placeholder st' items'
  end.

(** [pack_arguments(signature, args, context, stmt_expr, return_placeholder)].
    Returns the outcome together with the context after the allocation,
    which precedes every check. *)
Definition pack_arguments (fuel : nat) (signature : Signature.t)
           (args : list LLLnode) (context : Context)
           (return_placeholder : bool)
  : res (LLLnode * Z * Z) * Context :=
  let maxlen :=
    fold_right Z.add 0 (map get_size_of_type (Signature.args signature)) * 32
    + 32 in
  let placeholder_typ := ByteArrayType maxlen in
  let '(placeholder, context) := new_placeholder context placeholder_typ in
  let setters := [ROp "mstore" [RInt placeholder;
                                RInt (Signature.method_id signature)]] in
  if negb (Nat.eqb (List.length args)
                   (List.length (Signature.args signature)))
  then (Fail StructureException, context)
  else
    match pack_loop fuel placeholder (setters, false, 0)
                    (enumerate (combine args (Signature.args signature))) with
    | Err e => (Fail (Raised e), context)
    | Ok (setters, needpos, staticarray_offset) =>
        let returner :=
          if return_placeholder then [RList (VInt (placeholder + 28)) []]
          else [] in
        let body := ROp "seq" (setters ++ returner) in
        let node :=
          if needpos then
            from_list
              (ROp "with" [RStr "_poz";
                           RInt (Z.of_nat (List.length args) * 32
                                 + staticarray_offset);
                           body])
              (Some placeholder_typ) (Some "memory") None
          else from_list body (Some placeholder_typ) (Some "memory") None in
        (Done (node, maxlen - 28, placeholder + 32), context)
    end.

End CodeGenMore.

(** Predicates on strings used to state properties of the literal
    readers: every character satisfies [p]; the string is empty or its
    first character does not satisfy [p]. *)
Fixpoint string_forall (p : ascii -> bool) (s : string) : bool :=
  match s with
  | String c s' => p c && string_forall p s'
  | EmptyString => true
  end.

Definition stops (p : ascii -> bool) (s : string) : bool :=
  match s with
  | String c _ => negb (p c)
  | EmptyString => true
  end.

Definition is_digit : ascii -> bool := char_in "0123456789".
Definition is_hex_digit : ascii -> bool := char_in "0123456789abcdefABCDEF".
Definition is_bin_digit : ascii -> bool := char_in "01".
Definition is_digit_or_dot : ascii -> bool := char_in "0123456789.".

(** The number node at line 1, column 4. *)
Definition number_at_1_4 : NumExpr.t := NumExpr.mk 1 4 false.
Definition negative_number_at_1_4 : NumExpr.t := NumExpr.mk 1 4 true.

(** What [pack_arguments] accepts as a parameter type and its argument: a
    scalar, a byte string whose argument lives in memory or storage, or a
    struct or list without dynamic data. *)
Definition packable (has_dynamic_data : Typ -> bool) (arg : LLLnode)
           (ty : Typ) : Prop :=
  match ty with
  | BaseType _ => True
  | ByteArrayType _ | StringType _ =>
      location arg = Some "memory" \/ location arg = Some "storage"
  | StructType _ _ | ListType _ _ => has_dynamic_data ty = false
  | _ => False
  end.

Definition is_byte_string (ty : Typ) : bool :=
  match ty with
  | ByteArrayType _ | StringType _ => true
  | _ => false
  end.

(** The sum of the sizes of the parameters, in words. *)
Definition total_words {env : VyperEnv} (tys : list Typ) : Z :=
  fold_right Z.add 0 (map get_size_of_type tys).

Definition call_f : Signature.t :=
  Signature.mk [uint256_t; ByteArrayType 64] 1234 "f".

Definition bytes5_argument : LLLnode :=
  from_list (RInt 999) (Some (ByteArrayType 5)) (Some "memory") None.

(** *** Passes over the Python syntax tree *)

Inductive unaryop : Type := USub | UAdd | Not | Invert.

(** The node classes of [python_ast] that the passes tell apart; every
    other class is an [OtherNode] over its child nodes. Numbers are
    integers. *)
Inductive ast : Type :=
| Num (n : Z)
| UnaryOp (op : unaryop) (operand : ast)
| Name (id : string)
| Call (func : ast) (arguments : list ast)
| Expr (expr_value : ast)
| Return (return_value : option ast)
| Raise (exc : option ast)
| If (test : ast) (body orelse : list ast)
| FunctionDef (name : string) (body : list ast) (returns : option ast)
| OtherNode (children : list ast).

(** [is_return_from_function(node)] *)
Definition is_return_from_function (node : ast) : bool :=
  match node with
  | Return _ => true
  | Raise _ => true
  | Expr (Call (Name id) _) => String.eqb id "selfdestruct"
  | _ => false
  end.

(** The loop of [check_return_body] that looks for an exit statement
    before the last position of the body. *)
Fixpoint exit_before_last (node_list : list ast) : bool :=
  match node_list with
  | [] => false
  | [_] => false
  | n :: rest => is_return_from_function n || exit_before_last rest
  end.

(** [EnsureSingleExitChecker.check_return_body(node, node_list)] *)
Definition check_return_body (node_list : list ast) : res unit :=
  let return_count :=
    List.length (filter is_return_from_function node_list) in
  if Nat.ltb 1 return_count then Fail StructureException
  else if exit_before_last node_list then Fail StructureException
  else Done tt.

Definition visit_option (visit : ast -> res unit) (o : option ast)
  : res unit :=
  match o with
  | Some n => visit n
  | None => Done tt
  end.

(** [EnsureSingleExitChecker().visit(node)]: children first, in field
    order, then the check of the bodies of a function or a conditional. *)
Fixpoint ensure_single_exit (node : ast) : res unit :=
  let visit_list :=
    fix go (l : list ast) : res unit :=
      match l with
      | [] => Done tt
      | n :: l' => rbind (ensure_single_exit n) (fun _ => go l')
      end in
  match node with
  | Num _ | Name _ => Done tt
  | UnaryOp _ operand => ensure_single_exit operand
  | Call func arguments =>
      rbind (ensure_single_exit func) (fun _ => visit_list arguments)
  | Expr v => ensure_single_exit v
  | Return v => visit_option ensure_single_exit v
  | Raise e => visit_option ensure_single_exit e
  | If test body orelse =>
      rbind (ensure_single_exit test) (fun _ =>
      rbind (visit_list body) (fun _ =>
      rbind (visit_list orelse) (fun _ =>
      rbind (check_return_body body) (fun _ =>
      match orelse with
      | [] => Done tt
      | _ => check_return_body orelse
      end))))
  | FunctionDef _ body returns =>
      rbind (visit_list body) (fun _ =>
      rbind (visit_option ensure_single_exit returns) (fun _ =>
      check_return_body body))
  | OtherNode children => visit_list children
  end.

(** [UnmatchedReturnChecker.return_check], on a node and on a list. *)
Fixpoint return_check (node : ast) : bool :=
  if is_return_from_function node then true
  else match node with
       | If _ body orelse =>
           existsb return_check body && existsb return_check orelse
       | _ => false
       end.

Definition return_check_list (node_list : list ast) : bool :=
  existsb return_check node_list.

(** [UnmatchedReturnChecker().visit(node)] *)
Fixpoint unmatched_return (node : ast) : res unit :=
  let visit_list :=
    fix go (l : list ast) : res unit :=
      match l with
      | [] => Done tt
      | n :: l' => rbind (unmatched_return n) (fun _ => go l')
      end in
  match node with
  | Num _ | Name _ => Done tt
  | UnaryOp _ operand => unmatched_return operand
  | Call func arguments =>
      rbind (unmatched_return func) (fun _ => visit_list arguments)
  | Expr v => unmatched_return v
  | Return v => visit_option unmatched_return v
  | Raise e => visit_option unmatched_return e
  | If test body orelse =>
      rbind (unmatched_return test) (fun _ =>
      rbind (visit_list body) (fun _ => visit_list orelse))
  | FunctionDef _ body returns =>
      rbind (visit_list body) (fun _ =>
      rbind (visit_option unmatched_return returns) (fun _ =>
      match returns with
      | Some _ =>
          if negb (return_check_list body) then Fail StructureException
          else Done tt
      | None => Done tt
      end))
  | OtherNode children => visit_list children
  end.

(** [RewriteUnarySubVisitor().visit(node)]: children first; a negation of
    a number then becomes the number [0 - n]. *)
Fixpoint rewrite_unary_sub (node : ast) : ast :=
  match node with
  | Num n => Num n
  | Name id => Name id
  | UnaryOp op operand =>
      let operand := rewrite_unary_sub operand in
      match op, operand with
      | USub, Num n => Num (0 - n)
      | _, _ => UnaryOp op operand
      end
  | Call func arguments =>
      Call (rewrite_unary_sub func) (map rewrite_unary_sub arguments)
  | Expr v => Expr (rewrite_unary_sub v)
  | Return v => Return (option_map rewrite_unary_sub v)
  | Raise e => Raise (option_map rewrite_unary_sub e)
  | If test body orelse =>
      If (rewrite_unary_sub test) (map rewrite_unary_sub body)
         (map rewrite_unary_sub orelse)
  | FunctionDef name body returns =>
      FunctionDef name (map rewrite_unary_sub body)
                  (option_map rewrite_unary_sub returns)
  | OtherNode children => OtherNode (map rewrite_unary_sub children)
  end.

(** The child nodes of a node, and the nodes found inside a node. *)
Definition child_nodes (node : ast) : list ast :=
  match node with
  | Num _ | Name _ => []
  | UnaryOp _ operand => [operand]
  | Call func arguments => func :: arguments
  | Expr v => [v]
  | Return v | Raise v => match v with Some n => [n] | None => [] end
  | If test body orelse => test :: (body ++ orelse)%list
  | FunctionDef _ body returns =>
      (body ++ match returns with Some n => [n] | None => [] end)%list
  | OtherNode children => children
  end.

Inductive inside : ast -> ast -> Prop :=
| inside_self (n : ast) : inside n n
| inside_child (m c n : ast) : inside m c -> In c (child_nodes n) -> inside m n.

(** No exit statement stands before the last statement of the list. *)
Definition exits_only_last (node_list : list ast) : Prop :=
  forall pre n post,
    node_list = (pre ++ n :: post)%list -> post <> [] ->
    is_return_from_function n = false.

(** Some path through the statements reaches their end without meeting an
    exit statement; a conditional is passed through either branch, any
    other statement that is no exit is passed over. *)
Inductive may_complete : list ast -> Prop :=
| complete_nil : may_complete []
| complete_if_body (test : ast) (body orelse rest : list ast) :
    may_complete body -> may_complete rest ->
    may_complete (If test body orelse :: rest)
| complete_if_orelse (test : ast) (body orelse rest : list ast) :
    may_complete orelse -> may_complete rest ->
    may_complete (If test body orelse :: rest)
| complete_other (n : ast) (rest : list ast) :
    is_return_from_function n = false ->
    (forall test body orelse, n <> If test body orelse) ->
    may_complete rest ->
    may_complete (n :: rest).

(** The value of an integer expression built from numbers and signs. *)
Fixpoint int_value (node : ast) : option Z :=
  match node with
  | Num n => Some n
  | UnaryOp USub operand => option_map Z.opp (int_value operand)
  | UnaryOp UAdd operand => int_value operand
  | _ => None
  end.

(** A negation applied directly to a number occurs somewhere in the
    tree. *)
Fixpoint has_negated_number (node : ast) : bool :=
  match node with
  | Num _ | Name _ => false
  | UnaryOp op operand =>
      match op, operand with
      | USub, Num _ => true
      | _, _ => has_negated_number operand
      end
  | Call func arguments =>
      has_negated_number func || existsb has_negated_number arguments
  | Expr v => has_negated_number v
  | Return v | Raise v =>
      match v with Some n => has_negated_number n | None => false end
  | If test body orelse =>
      has_negated_number test || existsb has_negated_number body
      || existsb has_negated_number orelse
  | FunctionDef _ body returns =>
      existsb has_negated_number body
      || match returns with Some n => has_negated_number n | None => false end
  | OtherNode children => existsb has_negated_number children
  end.

(** What [EnsureSingleExitChecker] demands of a node: in the body of a
    function and in both branches of a conditional an exit statement comes
    last. *)
Definition bodies_exit_last (node : ast) : Prop :=
  match node with
  | FunctionDef _ body _ => exits_only_last body
  | If _ body orelse => exits_only_last body /\ exits_only_last orelse
  | _ => True
  end.

(** What [UnmatchedReturnChecker] demands of a node: a function with a
    declared return type has no path that runs off the end of its body. *)
Definition returns_on_every_path (node : ast) : Prop :=
  match node with
  | FunctionDef _ body (Some _) => ~ may_complete body
  | _ => True
  end.

(** The children of a node are visited in order; the first failure is
    the result. *)
Definition visit_all (visit : ast -> res unit) : list ast -> res unit :=
  fix go (l : list ast) : res unit :=
    match l with
    | [] => Done tt
    | n :: l' => rbind (visit n) (fun _ => go l')
    end.

(** *** Padding a byte string to a word boundary *)

(** [zero_pad(bytez_placeholder)] *)
Definition zero_pad (bytez_placeholder : Raw) : LLLnode :=
  let len_ := ROp "mload" [bytez_placeholder] in
  let dst := ROp "add" [ROp "add" [bytez_placeholder; RInt 32]; RStr "len"] in
  let num_zero_bytes := ROp "sub" [ROp "ceil32" [RStr "len"]; RStr "len"] in
  from_list
    (ROp "with" [RStr "len"; len_;
       ROp "with" [RStr "dst"; dst;
                   RNode (mzero (RStr "dst") num_zero_bytes)]])
    None None (Some "Zero pad").

(** Modelled from the spec: [ceil32], the length rounded up to the next
    multiple of 32, in word arithmetic. *)
Definition ceil32 (x : Z) : Z := ((x + 31) / 32 * 32) mod WORD.

Section PaddingSemantics.

Variable sha3_32 : Z -> Z.

(** Modelled from the spec: the value of an expression that may round a
    length up with [ceil32]; every other node means what it means to
    [eval]. *)
Fixpoint eval_pad (st : VMState) (rho : list (string * Z)) (n : LLLnode)
  : outcome Z :=
  match value n, args n with
  | VStr "ceil32", [a] => obind (eval_pad st rho a) (fun x => Val (ceil32 x))
  | VStr "add", [a; b] =>
      obind (eval_pad st rho a) (fun x =>
      obind (eval_pad st rho b) (fun y => Val ((x + y) mod WORD)))
  | VStr "sub", [a; b] =>
      obind (eval_pad st rho a) (fun x =>
      obind (eval_pad st rho b) (fun y => Val ((x - y) mod WORD)))
  | _, _ => eval sha3_32 st rho n
  end.

(** Modelled from the spec: the effect of a statement whose operands may
    use [ceil32]. *)
Fixpoint exec_pad (st : VMState) (rho : list (string * Z)) (n : LLLnode)
  : outcome VMState :=
  match value n, args n with
  | VStr "with", [x; e; body] =>
      match value x, args x with
      | VStr name, [] =>
          obind (eval_pad st rho e)
                (fun v => exec_pad st ((name, v) :: rho) body)
      | _, _ => Unsupported
      end
  | VStr "calldatacopy", [d; s; len] =>
      obind (eval_pad st rho d) (fun dst =>
      obind (eval_pad st rho s) (fun src =>
      obind (eval_pad st rho len) (fun k => Val (calldatacopy st dst src k))))
  | _, _ => exec sha3_32 st rho n
  end.

End PaddingSemantics.

Arguments eval_pad : simpl never.
Arguments exec_pad : simpl never.

(** A byte string of five bytes at address 320 in a memory full of
    non-zero bytes. *)
Definition five_bytes_at_320 : VMState :=
  {| memory := fun a => if (320 <=? a) && (a <? 351) then 0
                        else if a =? 351 then 5 else 255;
     storage := fun _ => 0;
     calldata := [] |}.

(** The target shapes for which a null source is a single zero-fill. *)
Definition clearable (left right : LLLnode) (lt : Typ) : Prop :=
  match lt with
  | StructType _ _ => value_is (value left) "multi" = false
  | TupleType _ => True
  | ListType _ count =>
      value_is (value left) "multi" = false
      /\ exists rsub, typ right = Some (ListType rsub count)
  | _ => False
  end.

(** [isinstance(begin_pos, int) and isinstance(_size, int)], the test under
    which [make_return_stmt] unrolls the loads instead of emitting a loop. *)
Definition unrolled (begin_pos _size : Raw) : bool :=
  match begin_pos, _size with
  | RVal (VInt _), RVal (VInt _) => true
  | _, _ => false
  end.

(** The characters that are not the separator of a label id. *)
Definition not_separator (c : ascii) : bool := negb (Ascii.eqb c "_").

(** A struct of another name with the member keys of [point_t]. *)
Definition segment_in_memory : LLLnode :=
  from_list (RInt 640)
            (Some (StructType [("a", int128_t); ("b", int128_t)] "Segment"))
            (Some "memory") None.

(** A struct literal one of whose member arguments is null. *)
Definition point_with_null_member : LLLnode :=
  from_list (ROp "multi" [RNode literal_five; RVal VNone])
            (Some point_t) None None.

(** * Properties *)

(** ** Basic facts about nodes and the machine model *)

Lemma from_list_RNode (n : LLLnode) : from_list (RNode n) None None None = n.
Proof.
  destruct n as [v a t l an]; simpl.
  now destruct l.
Qed.

Lemma node_eta (n : LLLnode) :
  mkLLL (value n) (args n) (typ n)
        (match location n with Some _ => location n | None => None end)
        (annotation n)
  = n.
Proof. exact (from_list_RNode n). Qed.

Lemma from_list_RList h rest ty loc ann :
  from_list (RList h rest) ty loc ann
  = mkLLL h (map (fun o => from_list o None None None) rest) ty loc ann.
Proof. reflexivity. Qed.

Lemma from_list_RVal v ty loc ann :
  from_list (RVal v) ty loc ann = mkLLL v [] ty loc ann.
Proof. reflexivity. Qed.

(** Turns an application of [from_list] to a literal list into the node it
    builds, leaving embedded nodes as they are. *)
Ltac build_nodes :=
  unfold ROp, RStr, RInt;
  repeat (progress (rewrite ?from_list_RList, ?from_list_RVal,
                            ?from_list_RNode, ?node_eta; cbn [map])).

Lemma loc_is_eq (l : option string) (s : string) :
  loc_is l s = true <-> l = Some s.
Proof.
  unfold loc_is; destruct l as [s'|]; split; intro H; try discriminate.
  - apply String.eqb_eq in H; now subst.
  - injection H as ->; apply String.eqb_refl.
Qed.

Lemma loc_is_neq (l : option string) (s : string) :
  loc_is l s = false <-> l <> Some s.
Proof.
  rewrite <- loc_is_eq. destruct (loc_is l s); split; congruence.
Qed.

Lemma word_at_zero (rd : Z -> Z) (a : Z) :
  (forall i, 0 <= i < 32 -> rd (a + i) = 0) -> word_at rd a = 0.
Proof.
  intro H. unfold word_at.
  assert (G : forall l, (forall i, In i l -> (i < 32)%nat) ->
              fold_left (fun acc i => acc * 256 + rd (a + Z.of_nat i)) l 0 = 0).
  { induction l as [|i l IH]; intro Hl; simpl; [reflexivity|].
    rewrite H by (specialize (Hl i (or_introl eq_refl)); lia).
    simpl. apply IH. intros j Hj. apply Hl. now right. }
  apply G. intros i Hi. apply in_seq in Hi. lia.
Qed.

Lemma calldata_byte_past_end (st : VMState) (i : Z) :
  Z.of_nat (List.length (calldata st)) <= i -> calldata_byte st i = 0.
Proof.
  intro H. unfold calldata_byte.
  destruct (i <? 0) eqn:E; [reflexivity|].
  apply nth_overflow. lia.
Qed.

Section RunLemmas.

Variable sha : Z -> Z.

Lemma eval_int st rho z t l a :
  eval sha st rho (mkLLL (VInt z) [] t l a) = Val (z mod WORD).
Proof. reflexivity. Qed.

Lemma eval_calldatasize st rho t l a :
  eval sha st rho (mkLLL (VStr "calldatasize") [] t l a)
  = Val (Z.of_nat (List.length (calldata st))).
Proof. reflexivity. Qed.

Lemma eval_add st rho x y t l a :
  eval sha st rho (mkLLL (VStr "add") [x; y] t l a)
  = obind (eval sha st rho x) (fun u =>
    obind (eval sha st rho y) (fun v => Val ((u + v) mod WORD))).
Proof. reflexivity. Qed.

Lemma eval_mul st rho x y t l a :
  eval sha st rho (mkLLL (VStr "mul") [x; y] t l a)
  = obind (eval sha st rho x) (fun u =>
    obind (eval sha st rho y) (fun v => Val ((u * v) mod WORD))).
Proof. reflexivity. Qed.

Lemma eval_sha3_32 st rho x t l a :
  eval sha st rho (mkLLL (VStr "sha3_32") [x] t l a)
  = obind (eval sha st rho x) (fun u => Val (sha u)).
Proof. reflexivity. Qed.

Lemma eval_uclamplt st rho x y t l a :
  eval sha st rho (mkLLL (VStr "uclamplt") [x; y] t l a)
  = obind (eval sha st rho x) (fun u =>
    obind (eval sha st rho y) (fun v => uclamplt u v)).
Proof. reflexivity. Qed.

Lemma exec_with st rho name e body t1 l1 a1 t l a :
  exec sha st rho
       (mkLLL (VStr "with") [mkLLL (VStr name) [] t1 l1 a1; e; body] t l a)
  = obind (eval sha st rho e) (fun v => exec sha st ((name, v) :: rho) body).
Proof. reflexivity. Qed.

Lemma exec_calldatacopy st rho d s k t l a :
  exec sha st rho (mkLLL (VStr "calldatacopy") [d; s; k] t l a)
  = obind (eval sha st rho d) (fun dst =>
    obind (eval sha st rho s) (fun src =>
    obind (eval sha st rho k) (fun len => Val (calldatacopy st dst src len)))).
Proof. reflexivity. Qed.

End RunLemmas.

(** ** Clearing a byte sequence in memory *)

Section ClearBytes.

Context {env : VyperEnv}.

Lemma copier_null_to_memory (dest src : LLLnode) (m : Z) :
  location dest = Some "memory" ->
  ByteArrayLike_maxlen (typ dest) = Some m ->
  ByteArrayLike_maxlen (typ src) = Some m ->
  value src = VNone ->
  loc_is (location src) "memory" = false ->
  make_byte_array_copier dest src = Ok (clear_code dest).
Proof.
  intros Hloc Hd Hs Hv Hsl.
  unfold make_byte_array_copier, make_byte_slice_copier.
  rewrite Hs, Hd, Hv, Hsl, Hloc. simpl.
  rewrite Z.gtb_ltb, Z.ltb_irrefl, Z.eqb_refl. simpl.
  rewrite ?Hsl, ?Hv, ?Hloc. simpl.
  reflexivity.
Qed.

Lemma run_clear_code (sha : Z -> Z) (dest : LLLnode) (st : VMState)
      (rho : list (string * Z)) (d : Z) :
  eval sha st (("_pos", 0) :: rho) dest = Val d ->
  exec sha st rho (clear_code dest)
  = Val (calldatacopy st d (Z.of_nat (List.length (calldata st))) 32).
Proof.
  intro He. unfold clear_code, mzero. build_nodes.
  rewrite exec_with, eval_int. change (0 mod WORD) with 0. cbn [obind].
  rewrite exec_calldatacopy, He, eval_calldatasize, eval_int.
  reflexivity.
Qed.

(** C1 (as amended): clearing a byte sequence that lives in memory emits a
    zero-fill of the 32-byte length word only. The emitted code is
    determined by the destination alone; running it leaves the length word
    at zero and every byte outside that word, the payload included, as it
    was. *)
Theorem null_source_clears_length_word
        (fuel : nat) (dest src : LLLnode) (m : Z)
        (loc : option string) (in_call : bool) :
  location dest = Some "memory" ->
  ByteArrayLike_maxlen (typ dest) = Some m ->
  ByteArrayLike_maxlen (typ src) = Some m ->
  value src = VNone ->
  loc_is (location src) "memory" = false ->
  make_setter (S fuel) dest src loc in_call = Ok (Some (clear_code dest))
  /\ make_byte_array_copier dest src = Ok (clear_code dest)
  /\ forall sha st rho d,
       eval sha st (("_pos", 0) :: rho) dest = Val d ->
       exists st',
         exec sha st rho (clear_code dest) = Val st'
         /\ mload st' d = 0
         /\ (forall a, a < d \/ d + 32 <= a -> memory st' a = memory st a)
         /\ storage st' = storage st.
Proof.
  intros Hloc Hd Hs Hv Hsl.
  pose proof (copier_null_to_memory dest src m Hloc Hd Hs Hv Hsl) as Hc.
  split; [|split]; [|exact Hc|].
  - simpl. destruct (typ dest) as [[]|]; try discriminate; rewrite Hc; reflexivity.
  - intros sha st rho d He.
    exists (calldatacopy st d (Z.of_nat (List.length (calldata st))) 32).
    split; [apply run_clear_code; exact He|].
    split; [|split]; [| |reflexivity].
    + unfold mload. apply word_at_zero. intros i Hi.
      cbn [memory calldatacopy].
      replace ((d <=? d + i) && (d + i <? d + 32)) with true
        by (symmetry; apply andb_true_iff; split;
            [apply Z.leb_le | apply Z.ltb_lt]; lia).
      apply calldata_byte_past_end. lia.
    + intros a Ha. cbn [memory calldatacopy].
      replace ((d <=? a) && (a <? d + 32)) with false; [reflexivity|].
      symmetry. apply andb_false_iff.
      destruct Ha; [left; apply Z.leb_gt | right; apply Z.ltb_ge]; lia.
Qed.

End ClearBytes.

Lemma null_source_clears_length_word_witness :
  make_setter (env := reference_env) 1 bytes32_in_memory null_bytes32
              (Some "memory") false
  = Ok (Some (clear_code bytes32_in_memory)).
Proof.
  apply (null_source_clears_length_word (env := reference_env) 0
           bytes32_in_memory null_bytes32 32 (Some "memory") false);
    reflexivity.
Defined.

(** C1 (as stated) fails: for a [bytes[32]] destination at address 320 the
    emitted code, run on a memory full of non-zero bytes, does not zero the
    64 bytes of the static bound. *)
Lemma null_source_leaves_payload :
  ~ (forall n st',
       make_setter (env := reference_env) 1 bytes32_in_memory null_bytes32
                   (Some "memory") false = Ok (Some n) ->
       exec (fun x => x) dirty_state [] n = Val st' ->
       forall i, 0 <= i < 32 + 32 -> memory st' (320 + i) = 0).
Proof.
  intro H.
  specialize (H (clear_code bytes32_in_memory)
                (calldatacopy dirty_state 320 0 32) eq_refl eq_refl 32).
  cbn in H. assert (255 = 0) by (apply H; lia). discriminate.
Qed.

(** ** Bounds of the byte-sequence copier *)

Section CopierBounds.

Context {env : VyperEnv}.

Lemma slice_copier_no_mismatch (destination source : LLLnode)
      (length : Raw) (max_length : Z) :
  make_byte_slice_copier destination source length max_length
  <> Err TypeMismatchException.
Proof.
  unfold make_byte_slice_copier, unsupported_location.
  repeat match goal with
         | |- context [if ?b then _ else _] => destruct b; cbn [bind]
         | |- context [match location ?n with _ => _ end] =>
             destruct (location n); cbn [bind]
         end; discriminate.
Qed.

(** C7: copying from a source whose bound exceeds the destination's is a
    type mismatch; so is clearing with a null source whose bound differs
    from the destination's; when neither is the case the copier raises no
    type mismatch. *)
Theorem copier_bound_checks (destination source : LLLnode) (smax dmax : Z) :
  ByteArrayLike_maxlen (typ source) = Some smax ->
  ByteArrayLike_maxlen (typ destination) = Some dmax ->
  (smax > dmax ->
   make_byte_array_copier destination source = Err TypeMismatchException)
  /\ (value source = VNone -> smax <> dmax ->
      make_byte_array_copier destination source = Err TypeMismatchException)
  /\ (smax <= dmax -> (value source = VNone -> smax = dmax) ->
      make_byte_array_copier destination source <> Err TypeMismatchException).
Proof.
  intros Hs Hd. unfold make_byte_array_copier. rewrite Hs, Hd.
  split; [|split].
  - intro H. apply Z.gtb_gt in H. now rewrite H.
  - intros Hv Hne. rewrite Hv. cbn [is_None andb].
    destruct (smax >? dmax); [reflexivity|].
    apply Z.eqb_neq in Hne. now rewrite Hne.
  - intros Hle Hnull.
    replace (smax >? dmax) with false
      by (symmetry; rewrite Z.gtb_ltb; apply Z.ltb_ge; lia).
    destruct (value source) eqn:Hv; cbn [is_None andb negb].
    3: { rewrite (Hnull eq_refl), Z.eqb_refl. cbn [negb].
         destruct (loc_is (location source) "memory"
                   && loc_is (location destination) "memory");
           [discriminate|]. cbn [bind].
         match goal with
         | |- context [make_byte_slice_copier ?d ?s ?l ?m] =>
             pose proof (slice_copier_no_mismatch d s l m) as Hc;
             destruct (make_byte_slice_copier d s l m)
         end; cbn [bind]; congruence. }
    all: destruct (loc_is (location source) "memory"
                   && loc_is (location destination) "memory");
      [discriminate|];
      unfold unsupported_location;
      destruct (loc_is (location source) "memory");
      [| destruct (loc_is (location source) "storage");
         [| destruct (location source); discriminate ] ];
      cbn [bind];
      match goal with
      | |- context [make_byte_slice_copier ?d ?s ?l ?m] =>
          pose proof (slice_copier_no_mismatch d s l m) as Hc;
          destruct (make_byte_slice_copier d s l m)
      end; cbn [bind]; congruence.
Qed.

End CopierBounds.

Lemma copier_bound_checks_witness :
  make_byte_array_copier (env := reference_env)
                         bytes20_in_memory bytes40_in_memory
  = Err TypeMismatchException
  /\ make_byte_array_copier (env := reference_env)
                            bytes20_in_memory null_bytes40
     = Err TypeMismatchException
  /\ make_byte_array_copier (env := reference_env)
                            bytes40_in_memory bytes20_in_memory
     <> Err TypeMismatchException.
Proof.
  split; [|split].
  - apply (proj1 (copier_bound_checks (env := reference_env)
             bytes20_in_memory bytes40_in_memory 40 20 eq_refl eq_refl)). lia.
  - apply (proj1 (proj2 (copier_bound_checks (env := reference_env)
             bytes20_in_memory null_bytes40 40 20 eq_refl eq_refl)));
      [reflexivity | lia].
  - apply (proj2 (proj2 (copier_bound_checks (env := reference_env)
             bytes40_in_memory bytes20_in_memory 20 40 eq_refl eq_refl)));
      [lia | discriminate].
Defined.

(** ** Function epilogue *)

Section Epilogue.

Context {env : VyperEnv}.


End Epilogue.

(** C2: for the constant payload offset 32 and size 64 the unrolled private
    epilogue loads the single word at 32; the word at 64 of the region
    [32, 96) is not pushed. For offset 0 and size 64 the two words are
    loaded first word first. *)
Theorem static_unroll_example :
  fst (make_return_stmt (env := reference_env) stmt_3_4 guarded_private
                        (RInt 32) (RInt 64) None)
  = ROp "seq_unchecked"
        [ROp "mload" [RInt 32];
         ROp "sstore" [RInt 5; RInt 0];
         ROp "jump" [ROp "mload" [RInt 100]]]
  /\ fst (make_return_stmt (env := reference_env) stmt_3_4 guarded_private
                           (RInt 0) (RInt 64) None)
     = ROp "seq_unchecked"
           [ROp "mload" [RInt 0];
            ROp "mload" [RInt 32];
            ROp "sstore" [RInt 5; RInt 0];
            ROp "jump" [ROp "mload" [RInt 100]]].
Proof. split; reflexivity. Qed.

Lemma static_unroll_shape {env : VyperEnv} (stmt : Stmt) (context : Context)
      (b sz : Z) (loop_memory_position : option Raw) :
  is_private context = true ->
  fst (make_return_stmt stmt context (RInt b) (RInt sz) loop_memory_position)
  = ROp "seq_unchecked"
        (map (fun pos => ROp "mload" [RInt pos]) (py_range b sz 32)
         ++ snd (nonreentrant_lock context)
         ++ [ROp "jump" [ROp "mload" [RVal (callback_ptr context)]]]).
Proof.
  intro Hp. unfold make_return_stmt. rewrite Hp.
  destruct loop_memory_position; reflexivity.
Qed.

(** ** Scalar conversion *)

Section Conversion.

Context {env : VyperEnv}.

(** C4 (as amended): an integer literal is checked against the range of
    its own type before conversion, and one that falls outside raises the
    literal-range error; in a function call a literal whose unit or
    positional annotation differs from the destination's raises it too. *)
Theorem literal_checked_against_source_range
        (orig : LLLnode) (f : Base.t) (to : Typ) (in_function_call : bool) :
  Base.is_literal f = true ->
  py_in (Base.typ f) ["int128"; "uint256"] = true ->
  (in_bounds (Base.typ f) (value (unwrap_location orig)) = Ok false ->
   base_type_conversion orig (Some (BaseType f)) to in_function_call
   = Err InvalidLiteralException)
  /\ (forall t inb,
        to = BaseType t ->
        in_function_call = true ->
        in_bounds (Base.typ f) (value (unwrap_location orig)) = Ok inb ->
        unit_eqb (Base.unit f) (Base.unit t)
        && Bool.eqb (Base.positional f) (Base.positional t) = false ->
        base_type_conversion orig (Some (BaseType f)) to in_function_call
        = Err InvalidLiteralException).
Proof.
  intros Hlit Hty. unfold base_type_conversion, literal_guard.
  rewrite Hlit, Hty. cbn [andb]. split.
  - intros ->. reflexivity.
  - intros t inb -> -> -> Hu. rewrite Hu. now destruct inb.
Qed.

End Conversion.

Lemma literal_checked_against_source_range_witness :
  base_type_conversion (env := reference_env) literal_too_large
                       (Some int128_literal_t) int128_t false
  = Err InvalidLiteralException
  /\ base_type_conversion (env := reference_env) literal_one_wei
                          (Some wei_literal_t) uint256_t true
     = Err InvalidLiteralException.
Proof.
  split.
  - apply (proj1 (literal_checked_against_source_range
                    (env := reference_env) literal_too_large
                    (Base.mk "int128" None false true None) int128_t false
                    eq_refl eq_refl)).
    reflexivity.
  - apply (proj2 (literal_checked_against_source_range
                    (env := reference_env) literal_one_wei
                    (Base.mk "uint256" (Some [("wei", 1)]) false true None)
                    uint256_t true eq_refl eq_refl)
                 (Base.mk "uint256" None false false None) true);
      reflexivity.
Defined.

(** C4 (as stated) fails: the literal [-1] lies outside the range of the
    destination type [uint256], yet the conversion returns it retagged. *)
Lemma negative_literal_reaches_uint256 :
  in_bounds (VyperEnv := reference_env) "uint256" (value literal_minus_one)
  = Ok false
  /\ base_type_conversion (env := reference_env) literal_minus_one
                          (typ literal_minus_one) uint256_t false
     = Ok (mkLLL (VInt (-1)) [] (Some uint256_t) None None).
Proof. split; reflexivity. Qed.

(** ** Address resolution *)

(** C5: a Tuple parent that lives in storage reaches the storage case with
    the local [subtype] never assigned, so no child address is produced,
    neither for a hashed nor for a prehashed parent; the same tuple in
    memory resolves to the parent plus the byte offset of the member. *)
Theorem tuple_in_storage_has_no_child :
  add_variable_offset (env := reference_env) pair_in_storage (KInt 1) true
  = Err UnboundLocalError
  /\ add_variable_offset (env := reference_env)
                         (set_location pair_in_storage
                                       (Some "storage_prehashed"))
                         (KInt 1) true
     = Err UnboundLocalError
  /\ add_variable_offset (env := reference_env) pair_in_memory (KInt 1) true
     = Ok (Some (from_list (ROp "add" [RInt 32; RNode pair_in_memory])
                           (Some int128_t) (Some "memory") None)).
Proof. repeat split. Qed.

Section Resolver.

Context {env : VyperEnv}.

Lemma tuple_storage_unbound (parent : LLLnode) (members : list Typ) (k : Z)
      (array_bounds_check : bool) :
  typ parent = Some (TupleType members) ->
  location parent = Some "storage"
  \/ location parent = Some "storage_prehashed" ->
  add_variable_offset parent (KInt k) array_bounds_check
  = Err UnboundLocalError.
Proof.
  intros Ht [Hl|Hl]; unfold add_variable_offset, member_access;
    rewrite Ht, Hl; reflexivity.
Qed.

Lemma list_index_of_member {A : Type} (k : string) (members : list (string * A))
      (t : A) :
  dict_get k members = Some t ->
  exists i, list_index k (dict_keys members) = Some i.
Proof.
  revert t. induction members as [|[k' t'] ms IH]; intros t Hk;
    [discriminate|].
  unfold dict_keys in *. cbn [dict_get map list_index fst] in *.
  destruct (String.eqb k' k); [now eexists|].
  destruct (IH _ Hk) as [i Hi]. rewrite Hi. now eexists.
Qed.

(** Case analysis on the tests a definition performs. *)
Ltac split_tests H :=
  repeat match type of H with
         | context [match ?x with _ => _ end] =>
             let E := fresh "E" in destruct x eqn:E; try discriminate H
         end.

Lemma member_access_location parent subtype index ann member_at member_key n :
  member_access parent subtype index ann member_at member_key = Ok (Some n) ->
  location n <> Some "storage_prehashed"
  /\ (location parent = Some "storage_prehashed" ->
      location n = Some "storage").
Proof.
  unfold member_access, bind. intro H. split_tests H;
    injection H as <-; cbn [location from_list ROp];
    try (split; [discriminate | reflexivity]).
  split.
  - now apply loc_is_neq.
  - intro Hp. apply loc_is_neq in E0. contradiction.
Qed.

Lemma list_access_location parent subtype sub n :
  list_access parent subtype sub = Ok (Some n) ->
  location n <> Some "storage_prehashed"
  /\ (location parent = Some "storage_prehashed" ->
      location n = Some "storage").
Proof.
  unfold list_access. intro H. split_tests H;
    injection H as <-; cbn [location from_list ROp];
    try (split; [discriminate | reflexivity]).
  split.
  - now apply loc_is_neq.
  - intro Hp. apply loc_is_neq in E0. contradiction.
Qed.

(** C10: a node returned by the resolver is never tagged as prehashed
    storage, and the child of a prehashed parent is tagged as plain
    storage; a Struct parent in prehashed storage does yield such a child
    for each of its members, and so does a List parent for an integer
    index. *)
Theorem child_is_never_prehashed
        (parent : LLLnode) (key : Key) (array_bounds_check : bool) :
  (forall n,
     add_variable_offset parent key array_bounds_check = Ok (Some n) ->
     location n <> Some "storage_prehashed"
     /\ (location parent = Some "storage_prehashed" ->
         location n = Some "storage"))
  /\ (forall members name k t,
        typ parent = Some (StructType members name) ->
        location parent = Some "storage_prehashed" ->
        key = KStr k ->
        dict_get k members = Some t ->
        exists n,
          add_variable_offset parent key array_bounds_check = Ok (Some n)
          /\ location n = Some "storage" /\ typ n = Some t)
  /\ (forall subtype count index,
        typ parent = Some (ListType subtype count) ->
        location parent = Some "storage_prehashed" ->
        key = KNode index ->
        is_base_type (typ index) ["int128"; "uint256"] = true ->
        array_bounds_check = false ->
        exists n,
          add_variable_offset parent key array_bounds_check = Ok (Some n)
          /\ location n = Some "storage" /\ typ n = Some subtype).
Proof.
  split; [|split].
  - intros n H. unfold add_variable_offset in H.
    destruct (typ parent) as [[b|m|m|st c|kt vt|ms nm|ms]|];
      try discriminate H.
    + (* List *)
      destruct key as [s|z|k]; try discriminate H.
      destruct (negb (is_base_type (typ k) ["int128"; "uint256"]));
        [discriminate H|].
      unfold bind in H.
      match type of H with
      | match ?c with _ => _ end = _ => destruct c; [|discriminate H]
      end.
      eapply list_access_location; eassumption.
    + (* Mapping *)
      destruct key as [s|z|k]; try discriminate H.
      unfold bind in H.
      match type of H with
      | match ?c with _ => _ end = _ => destruct c; [|discriminate H]
      end.
      destruct (loc_is (location parent) "storage") eqn:Es.
      * injection H as <-. cbn [location from_list ROp].
        split; [discriminate|].
        intro Hp. apply loc_is_eq in Es. congruence.
      * destruct (loc_is (location parent) "memory"
                  || loc_is (location parent) "calldata"); discriminate H.
    + (* Struct *)
      destruct key as [s|z|k]; try discriminate H.
      destruct (dict_get s ms); [|discriminate H].
      destruct (list_index s (dict_keys ms)); [|discriminate H].
      eapply member_access_location; eassumption.
    + (* Tuple *)
      destruct key as [s|z|k]; try discriminate H.
      eapply member_access_location; eassumption.
  - intros members name k t Ht Hl -> Hk.
    unfold add_variable_offset, member_access. rewrite Ht, Hk, Hl.
    destruct (list_index_of_member k members t Hk) as [i Hi]. rewrite Hi.
    cbn. eexists. repeat split.
  - intros subtype count index Ht Hl -> Hb ->.
    unfold add_variable_offset, list_access. rewrite Ht, Hb, Hl.
    cbn. eexists. repeat split.
Qed.

End Resolver.

Lemma child_is_never_prehashed_witness :
  exists n,
    add_variable_offset (env := reference_env) point_prehashed (KStr "b") true
    = Ok (Some n)
    /\ location n = Some "storage" /\ typ n = Some int128_t.
Proof.
  apply (proj1 (proj2 (child_is_never_prehashed (env := reference_env)
                         point_prehashed (KStr "b") true))
               [("a", int128_t); ("b", int128_t)] "Point" "b" int128_t);
    reflexivity.
Defined.

(** ** Array indexing *)

Section ListIndex.

Context {env : VyperEnv}.

Lemma eval_mload (sha : Z -> Z) st rho x t l a :
  eval sha st rho (mkLLL (VStr "mload") [x] t l a)
  = obind (eval sha st rho x) (fun u => Val (mload st u)).
Proof. reflexivity. Qed.

Lemma eval_sload (sha : Z -> Z) st rho x t l a :
  eval sha st rho (mkLLL (VStr "sload") [x] t l a)
  = obind (eval sha st rho x) (fun u => Val (storage st u)).
Proof. reflexivity. Qed.

Lemma eval_calldataload (sha : Z -> Z) st rho x t l a :
  eval sha st rho (mkLLL (VStr "calldataload") [x] t l a)
  = obind (eval sha st rho x) (fun u => Val (word_at (calldata_byte st) u)).
Proof. reflexivity. Qed.

(** C3: with bounds checking on, a literal index outside [0, count) raises
    the bounds error whatever the parent, so before any node is built; a
    literal inside yields the node of the unchecked access, the one emitted
    with bounds checking off. Any other index is emitted inside an
    unsigned-less-than clamp against [count]. The node is spelled out for
    each location of the parent, with the index loaded from where the key
    lives; a parent in none of the four locations gives a type mismatch
    and no node. Running the clamped node on the word [i] found at the key
    gives the address of element [i] when [i] is below [count] as an
    unsigned word and reverts otherwise: in particular for every [i] at or
    past [count] and for every negative number in two's complement. *)
Theorem list_index_bound_policy
        (parent key : LLLnode) (subtype : Typ) (count : Z) (b : Base.t) :
  typ parent = Some (ListType subtype count) ->
  typ key = Some (BaseType b) ->
  is_base_type (typ key) ["int128"; "uint256"] = true ->
  let addressable :=
    loc_is (location parent) "storage"
    || loc_is (location parent) "storage_prehashed"
    || loc_is (location parent) "calldata"
    || loc_is (location parent) "memory" in
  let k :=
    if loc_is (location key) "memory" then
      from_list (ROp "mload" [RNode key]) (typ key) None None
    else if loc_is (location key) "storage" then
      from_list (ROp "sload" [RNode key]) (typ key) None None
    else if loc_is (location key) "calldata" then
      from_list (ROp "calldataload" [RNode key]) (typ key) None None
    else key in
  let element (sub : Raw) :=
    if loc_is (location parent) "storage" then
      from_list (ROp "add" [ROp "sha3_32" [RNode parent]; sub])
                (Some subtype) (Some "storage") None
    else if loc_is (location parent) "storage_prehashed" then
      from_list (ROp "add" [RNode parent; sub])
                (Some subtype) (Some "storage") None
    else
      from_list (ROp "add" [ROp "mul" [RInt (32 * get_size_of_type subtype);
                                       sub];
                            RNode parent])
                (Some subtype) (location parent) None in
  let clamped := element (ROp "uclamplt" [RNode k; RInt count]) in
  (Base.is_literal b = true ->
   forall v, value key = VInt v ->
     (v < 0 \/ count <= v ->
      add_variable_offset parent (KNode key) true = Err ArrayIndexException)
     /\ (0 <= v < count ->
         add_variable_offset parent (KNode key) true
         = (if addressable then Ok (Some (element (RNode k)))
            else Err TypeMismatchException)
         /\ add_variable_offset parent (KNode key) true
            = add_variable_offset parent (KNode key) false))
  /\ (Base.is_literal b = false ->
      add_variable_offset parent (KNode key) true
      = (if addressable then Ok (Some clamped)
         else Err TypeMismatchException)
      /\ forall sha st rho p ka,
           addressable = true ->
           eval sha st rho parent = Val p ->
           eval sha st rho key = Val ka ->
           let i :=
             (if loc_is (location key) "memory" then mload st ka
              else if loc_is (location key) "storage" then storage st ka
              else if loc_is (location key) "calldata"
                   then word_at (calldata_byte st) ka
                   else ka) mod WORD in
           eval sha st rho clamped
           = (if i <? count mod WORD then
                Val (if loc_is (location parent) "storage"
                     then (sha p + i) mod WORD
                     else if loc_is (location parent) "storage_prehashed"
                          then (p + i) mod WORD
                          else (((32 * get_size_of_type subtype) mod WORD * i)
                                  mod WORD + p) mod WORD)
              else Revert)
           /\ (0 <= count -> count <= i -> eval sha st rho clamped = Revert)
           /\ (forall s,
                 - 2 ^ 255 <= s < 0 -> i = s mod WORD ->
                 0 <= count <= 2 ^ 255 ->
                 eval sha st rho clamped = Revert)).
Proof.
  intros Hp Hk Hb addressable k element clamped.
  assert (Hun : unwrap_location key = k).
  { unfold unwrap_location, k.
    destruct (loc_is (location key) "memory"); [reflexivity|].
    destruct (loc_is (location key) "storage"); [reflexivity|].
    destruct (loc_is (location key) "calldata"); reflexivity. }
  assert (Hacc : forall sub,
             list_access parent subtype sub
             = if addressable then Ok (Some (element sub))
               else Err TypeMismatchException).
  { intro sub. unfold list_access, addressable, element.
    destruct (loc_is (location parent) "storage"); [reflexivity|].
    destruct (loc_is (location parent) "storage_prehashed"); [reflexivity|].
    cbn [orb].
    destruct (loc_is (location parent) "calldata"
              || loc_is (location parent) "memory"); reflexivity. }
  assert (Hoff : add_variable_offset parent (KNode key) false
                 = list_access parent subtype (RNode k)).
  { unfold add_variable_offset. rewrite Hp, Hb, Hun. reflexivity. }
  split.
  - intros Hlit v Hv. split.
    + intro Hr. unfold add_variable_offset. rewrite Hp, Hb, Hk, Hlit, Hv.
      cbn [negb bind].
      replace ((v <? 0) || (v >=? count)) with true; [reflexivity|].
      symmetry. apply orb_true_iff.
      destruct Hr; [left; apply Z.ltb_lt | right; apply Z.geb_le]; lia.
    + intro Hr.
      assert (Hon : add_variable_offset parent (KNode key) true
                    = list_access parent subtype (RNode k)).
      { unfold add_variable_offset. rewrite Hp, Hb, Hk, Hlit, Hv, Hun.
        cbn [negb bind].
        replace ((v <? 0) || (v >=? count)) with false; [reflexivity|].
        symmetry. apply orb_false_iff. split; [apply Z.ltb_ge; lia|].
        rewrite Z.geb_leb. apply Z.leb_gt. lia. }
      split; [now rewrite Hon, Hacc | now rewrite Hon, Hoff].
  - intro Hlit. split.
    + unfold add_variable_offset. rewrite Hp, Hb, Hk, Hlit, Hun.
      cbn [negb bind]. apply Hacc.
    + intros sha st rho p ka Ha Hpe Hke i.
      assert (Hi : eval sha st rho k
                   = Val (if loc_is (location key) "memory" then mload st ka
                          else if loc_is (location key) "storage"
                               then storage st ka
                               else if loc_is (location key) "calldata"
                                    then word_at (calldata_byte st) ka
                                    else ka)).
      { unfold k.
        destruct (loc_is (location key) "memory");
          [build_nodes; now rewrite eval_mload, Hke|].
        destruct (loc_is (location key) "storage");
          [build_nodes; now rewrite eval_sload, Hke|].
        destruct (loc_is (location key) "calldata");
          [build_nodes; now rewrite eval_calldataload, Hke|].
        exact Hke. }
      assert (Hrun : eval sha st rho clamped
                     = (if i <? count mod WORD then
                          Val (if loc_is (location parent) "storage"
                               then (sha p + i) mod WORD
                               else if loc_is (location parent)
                                              "storage_prehashed"
                                    then (p + i) mod WORD
                                    else (((32 * get_size_of_type subtype)
                                             mod WORD * i) mod WORD + p)
                                           mod WORD)
                        else Revert)).
      { unfold clamped, element.
        destruct (loc_is (location parent) "storage");
          [|destruct (loc_is (location parent) "storage_prehashed")];
          build_nodes;
          rewrite ?eval_add, ?eval_sha3_32, ?eval_mul, ?eval_int, ?Hpe;
          cbn [obind];
          rewrite eval_uclamplt, Hi, eval_int; cbn [obind];
          unfold uclamplt; rewrite Z.mod_mod by (unfold WORD; lia);
          fold i; destruct (i <? count mod WORD); cbn [obind];
          rewrite ?Hpe; reflexivity. }
      assert (Hi0 : 0 <= i < WORD)
        by (apply Z.mod_pos_bound; unfold WORD; lia).
      split; [exact Hrun | split].
      * intros Hc Hge. rewrite Hrun.
        replace (i <? count mod WORD) with false; [reflexivity|].
        symmetry. apply Z.ltb_ge.
        rewrite Z.mod_small by lia. exact Hge.
      * intros s Hs Hw Hc. rewrite Hrun.
        replace (i <? count mod WORD) with false; [reflexivity|].
        symmetry. apply Z.ltb_ge.
        assert (Hsw : s mod WORD = s + WORD).
        { symmetry. apply Z.mod_unique with (q := -1); unfold WORD; lia. }
        rewrite Z.mod_small by (unfold WORD; lia).
        rewrite Hw, Hsw. unfold WORD. lia.
Qed.

End ListIndex.

Lemma list_index_bound_policy_witness :
  add_variable_offset (env := reference_env) list5_in_memory
                      (KNode literal_five) true
  = Err ArrayIndexException
  /\ exists n,
       add_variable_offset (env := reference_env) list5_in_memory
                           (KNode index_variable) true
       = Ok (Some n)
       /\ eval (fun x => x) index_three_state [] n = Val (32 * 3 + 320)
       /\ eval (fun x => x) dirty_state [] n = Revert.
Proof.
  split.
  - apply (proj1 (list_index_bound_policy (env := reference_env)
                    list5_in_memory literal_five int128_t 5
                    (Base.mk "int128" None false true None)
                    eq_refl eq_refl eq_refl)
                 eq_refl 5 eq_refl).
    right. lia.
  - destruct (proj2 (list_index_bound_policy (env := reference_env)
                       list5_in_memory index_variable int128_t 5
                       (Base.mk "int128" None false false None)
                       eq_refl eq_refl eq_refl)
                    eq_refl) as [Hcode Hrun].
    eexists. split; [exact Hcode|]. split.
    + destruct (Hrun (fun x => x) index_three_state [] 320 640
                     eq_refl eq_refl eq_refl) as [He _].
      refine (eq_trans He _). vm_compute. reflexivity.
    + destruct (Hrun (fun x => x) dirty_state [] 320 640
                     eq_refl eq_refl eq_refl) as [_ [_ Hneg]].
      apply (Hneg (-1)); [lia | vm_compute; reflexivity | lia].
Defined.

(** ** Structural setter *)

Section Setter.

Context {env : VyperEnv}.

Lemma py_in_In (k : string) (l : list string) : py_in k l = true <-> In k l.
Proof.
  unfold py_in. rewrite existsb_exists. split.
  - intros [x [Hx He]]. apply String.eqb_eq in He. now subst.
  - intro H. exists k. split; [exact H | apply String.eqb_refl].
Qed.

Lemma missing_key (ks ks' : list string) (k : string) :
  In k ks -> ~ In k ks' -> forallb (fun x => py_in x ks') ks = false.
Proof.
  intros Hin Hnot.
  destruct (forallb (fun x => py_in x ks') ks) eqn:E; [|reflexivity].
  rewrite forallb_forall in E. specialize (E k Hin).
  apply py_in_In in E. contradiction.
Qed.

(** The shape checks reject every source but the same struct. *)
Lemma check_members_struct (lm : list (string * Typ)) (ln : string)
      (right : LLLnode) :
  ((forall rm rn, typ right <> Some (StructType rm rn)) ->
   check_members (StructType lm ln) right = Err TypeMismatchException)
  /\ (forall rm rn,
        typ right = Some (StructType rm rn) ->
        existsb (fun k => is_None (value k)) (args right) = false ->
        (exists k, In k (dict_keys lm) /\ ~ In k (dict_keys rm))
        \/ (exists k, In k (dict_keys rm) /\ ~ In k (dict_keys lm))
        \/ ln <> rn ->
        check_members (StructType lm ln) right = Err TypeMismatchException).
Proof.
  unfold check_members. split.
  - intro H. destruct (typ right) as [[]|]; try reflexivity.
    exfalso. eapply H. reflexivity.
  - intros rm rn -> -> H.
    destruct H as [[k [Hin Hnot]]|[[k [Hin Hnot]]|Hne]].
    + now rewrite (missing_key _ _ _ Hin Hnot).
    + rewrite (missing_key _ _ _ Hin Hnot).
      now destruct (forallb (fun k0 => py_in k0 (dict_keys rm)) (dict_keys lm)).
    + apply String.eqb_neq in Hne. rewrite Hne.
      destruct (forallb (fun k0 => py_in k0 (dict_keys rm)) (dict_keys lm));
        [|reflexivity].
      now destruct (forallb (fun k0 => py_in k0 (dict_keys lm)) (dict_keys rm)).
Qed.

Lemma setter_checks_members (fuel : nat) (left right : LLLnode)
      (loc : option string) (in_call : bool) (lt : Typ) :
  typ left = Some lt ->
  (match lt with StructType _ _ => value_is (value left) "multi" = false
            | TupleType _ => True
            | _ => False end) ->
  is_None (value right) = false ->
  check_members lt right = Err TypeMismatchException ->
  make_setter (S fuel) left right loc in_call = Err TypeMismatchException.
Proof.
  intros Ht Hm Hn Hc. cbn [make_setter]. rewrite Ht.
  destruct lt; try contradiction.
  - rewrite Hm, Hn. cbn [andb negb]. rewrite Hc. reflexivity.
  - rewrite Hn. cbn [andb negb]. rewrite andb_false_r, Hc. reflexivity.
Qed.

(** The shape checks pass a Struct source only if it has the member keys
    and the name of the target. *)
Lemma check_members_same_struct (lm : list (string * Typ)) (ln : string)
      (right : LLLnode) :
  existsb (fun k => is_None (value k)) (args right) = false ->
  check_members (StructType lm ln) right = Err TypeMismatchException
  \/ exists rm,
       typ right = Some (StructType rm ln)
       /\ forall k, In k (dict_keys lm) <-> In k (dict_keys rm).
Proof.
  intro Ha. unfold check_members.
  destruct (typ right) as [[| | | | |rm rn|]|]; try (left; reflexivity).
  rewrite Ha.
  destruct (forallb (fun k => py_in k (dict_keys rm)) (dict_keys lm)) eqn:E1;
    [|left; reflexivity].
  destruct (forallb (fun k => py_in k (dict_keys lm)) (dict_keys rm)) eqn:E2;
    [|left; reflexivity].
  destruct (String.eqb ln rn) eqn:E3; [|left; reflexivity].
  right. apply String.eqb_eq in E3. subst rn. exists rm.
  split; [reflexivity|].
  rewrite forallb_forall in E1, E2.
  intro k. split; intro H; apply py_in_In; auto.
Qed.

(** C8: for a Struct target and a non-null source, under the two
    preconditions the specification puts on this layer (the target is
    addressable, not an aggregate literal, and no null struct member
    reaches it), the assignment is a type mismatch unless the source is a
    Struct with the same name and exactly the same member keys; a source
    that is no Struct, such as a Tuple of matching member types, is always
    a type mismatch. Outside the preconditions an aggregate-literal target
    is refused first with the plain exception, and a Struct source with a
    null member argument with the internal panic, before any key is
    compared. For a Tuple target, a non-null Tuple source of another arity
    is a type mismatch. *)
Theorem struct_assignment_is_nominal
        (fuel : nat) (left right : LLLnode) (loc : option string)
        (in_call : bool) :
  is_None (value right) = false ->
  (forall lm ln,
     typ left = Some (StructType lm ln) ->
     (value_is (value left) "multi" = false ->
      existsb (fun k => is_None (value k)) (args right) = false ->
      make_setter (S fuel) left right loc in_call = Err TypeMismatchException
      \/ exists rm,
           typ right = Some (StructType rm ln)
           /\ forall k, In k (dict_keys lm) <-> In k (dict_keys rm))
     /\ (value_is (value left) "multi" = false ->
         (forall rm rn, typ right <> Some (StructType rm rn)) ->
         make_setter (S fuel) left right loc in_call
         = Err TypeMismatchException)
     /\ (value_is (value left) "multi" = true ->
         make_setter (S fuel) left right loc in_call = Err PyException)
     /\ (value_is (value left) "multi" = false ->
         forall rm rn,
           typ right = Some (StructType rm rn) ->
           existsb (fun k => is_None (value k)) (args right) = true ->
           make_setter (S fuel) left right loc in_call = Err CompilerPanic))
  /\ (forall lm rm,
        typ left = Some (TupleType lm) ->
        typ right = Some (TupleType rm) ->
        List.length lm <> List.length rm ->
        make_setter (S fuel) left right loc in_call
        = Err TypeMismatchException).
Proof.
  intro Hn. split.
  - intros lm ln Ht. repeat split.
    + intros Hm Ha.
      destruct (check_members_same_struct lm ln right Ha) as [Hc|Hs];
        [left | right; exact Hs].
      eapply setter_checks_members; eauto.
    + intros Hm H.
      eapply setter_checks_members; eauto.
      apply (proj1 (check_members_struct lm ln right) H).
    + intro Hm. cbn [make_setter]. rewrite Ht, Hm. reflexivity.
    + intros Hm rm rn Hr Ha. cbn [make_setter]. rewrite Ht, Hm, Hn.
      cbn [andb negb]. unfold check_members. rewrite Hr, Ha. reflexivity.
  - intros lm rm Ht Hr Hlen.
    eapply setter_checks_members; eauto; [exact I|].
    unfold check_members. rewrite Hr.
    apply Nat.eqb_neq in Hlen. now rewrite Hlen.
Qed.

(** C9: for a scalar target a store is emitted exactly for the locations
    [storage] and [memory]; with any other location an assignment that
    would have been stored returns no node and raises nothing. *)
Theorem scalar_store_needs_storage_or_memory
        (fuel : nat) (left right : LLLnode) (lb : Base.t)
        (loc : option string) (in_call : bool) :
  typ left = Some (BaseType lb) ->
  (forall n,
     make_setter (S fuel) left right loc in_call = Ok (Some n) ->
     (loc = Some "storage" /\ value n = VStr "sstore")
     \/ (loc = Some "memory" /\ value n = VStr "mstore"))
  /\ (loc <> Some "storage" -> loc <> Some "memory" ->
      forall n,
        make_setter (S fuel) left right (Some "memory") in_call = Ok (Some n) ->
        make_setter (S fuel) left right loc in_call = Ok None).
Proof.
  intro Ht. cbn [make_setter]. rewrite Ht.
  destruct (base_type_conversion right (typ right) (BaseType lb) in_call)
    as [r|e]; cbn [bind]; [|split; intros; discriminate].
  match goal with
  | |- context [bind ?c _] => destruct c as [[]|e]
  end; cbn [bind]; [|split; intros; discriminate].
  split.
  - intros n H.
    destruct (loc_is loc "storage") eqn:Es.
    + left. injection H as <-. split; [now apply loc_is_eq | reflexivity].
    + destruct (loc_is loc "memory") eqn:Em; [|discriminate H].
      right. injection H as <-. split; [now apply loc_is_eq | reflexivity].
  - intros Hs Hm n _.
    apply loc_is_neq in Hs, Hm. now rewrite Hs, Hm.
Qed.

End Setter.

Lemma struct_assignment_is_nominal_witness :
  make_setter (env := reference_env) 1 point_in_memory pair_in_memory_at_640
              (Some "memory") false
  = Err TypeMismatchException
  /\ make_setter (env := reference_env) 1 point_in_memory segment_in_memory
                 (Some "memory") false
     = Err TypeMismatchException
  /\ make_setter (env := reference_env) 1 point_in_memory
                 point_with_null_member (Some "memory") false
     = Err CompilerPanic
  /\ make_setter (env := reference_env) 1 pair_in_memory triple_in_memory
                 (Some "memory") false
     = Err TypeMismatchException.
Proof.
  split; [|split; [|split]].
  - apply (proj1 (proj2 (proj1 (struct_assignment_is_nominal
                                  (env := reference_env)
                                  0 point_in_memory pair_in_memory_at_640
                                  (Some "memory") false eq_refl)
                               [("a", int128_t); ("b", int128_t)] "Point"
                               eq_refl))
                 eq_refl).
    intros rm rn. discriminate.
  - destruct (proj1 (proj1 (struct_assignment_is_nominal
                              (env := reference_env)
                              0 point_in_memory segment_in_memory
                              (Some "memory") false eq_refl)
                           [("a", int128_t); ("b", int128_t)] "Point"
                           eq_refl)
                    eq_refl eq_refl) as [H|[rm [H _]]];
      [exact H | discriminate H].
  - apply (proj2 (proj2 (proj2 (proj1 (struct_assignment_is_nominal
                                         (env := reference_env)
                                         0 point_in_memory
                                         point_with_null_member
                                         (Some "memory") false eq_refl)
                                      [("a", int128_t); ("b", int128_t)]
                                      "Point" eq_refl)))
                 eq_refl [("a", int128_t); ("b", int128_t)] "Point"
                 eq_refl eq_refl).
  - apply (proj2 (struct_assignment_is_nominal (env := reference_env)
                    0 pair_in_memory triple_in_memory
                    (Some "memory") false eq_refl)
                 [int128_t; int128_t] [int128_t; int128_t; int128_t]
                 eq_refl eq_refl).
    discriminate.
Defined.

Lemma scalar_store_needs_storage_or_memory_witness :
  make_setter (env := reference_env) 1 int128_in_memory literal_five
              (Some "calldata") false
  = Ok None.
Proof.
  eapply (proj2 (scalar_store_needs_storage_or_memory (env := reference_env)
                   0 int128_in_memory literal_five
                   (Base.mk "int128" None false false None)
                   (Some "calldata") false eq_refl));
    [discriminate | discriminate | reflexivity].
Defined.


(** The range of the destination is checked by the setter, after the
    conversion: storing the literal [-1] into a [uint256] is refused. *)
Example setter_checks_destination_range :
  make_setter (env := reference_env) 1 uint256_in_memory literal_minus_one
              (Some "memory") false
  = Err InvalidLiteralException.
Proof. reflexivity. Qed.

(** ** Member addresses *)

Section MemberAddress.

Context {env : VyperEnv}.

Lemma py_range_from_zero (n : Z) :
  py_range 0 n 1 = map Z.of_nat (seq 0 (Z.to_nat n)).
Proof.
  unfold py_range.
  replace ((n - 0 + 1 - 1) / 1) with n by (rewrite Z.div_1_r; lia).
  apply map_ext. intro i. lia.
Qed.

Lemma py_getitem_nth {A : Type} (l : list A) (j : nat) (a : A) :
  nth_error l j = Some a -> py_getitem l (Z.of_nat j) = Ok a.
Proof.
  intro H. unfold py_getitem.
  assert (Hj : (j < List.length l)%nat)
    by (apply nth_error_Some; congruence).
  replace (Z.of_nat j <? 0) with false by (symmetry; apply Z.ltb_ge; lia).
  replace ((0 <=? Z.of_nat j) && (Z.of_nat j <? Z.of_nat (List.length l)))
    with true
    by (symmetry; apply andb_true_iff; split;
        [apply Z.leb_le | apply Z.ltb_lt]; lia).
  now rewrite Nat2Z.id, H.
Qed.

Lemma member_offset_sum (member_at : Z -> result Typ) (ts : list Typ) :
  forall (a : nat) (acc : Z),
    (forall j t, nth_error ts j = Some t ->
                 member_at (Z.of_nat (a + j)) = Ok t) ->
    member_offset member_at (map Z.of_nat (seq a (List.length ts))) acc
    = Ok (acc + bytes_of ts).
Proof.
  induction ts as [|t ts IH]; intros a acc H.
  - cbn. f_equal. lia.
  - cbn [List.length seq map member_offset bytes_of fold_right].
    rewrite <- (Nat.add_0_r a) at 1. rewrite (H 0%nat t eq_refl).
    cbn [bind]. rewrite IH.
    + f_equal. fold (bytes_of ts). lia.
    + intros j t' Hj. replace (S a + j)%nat with (a + S j)%nat by lia.
      now apply H.
Qed.

Lemma member_offset_prefix (member_at : Z -> result Typ) (ts : list Typ)
      (i : Z) :
  0 <= i <= Z.of_nat (List.length ts) ->
  (forall j t, nth_error ts j = Some t -> member_at (Z.of_nat j) = Ok t) ->
  member_offset member_at (py_range 0 i 1) 0
  = Ok (bytes_of (firstn (Z.to_nat i) ts)).
Proof.
  intros Hi H. rewrite py_range_from_zero.
  pose proof (member_offset_sum member_at (firstn (Z.to_nat i) ts) 0 0) as S.
  rewrite firstn_length_le in S by lia.
  rewrite S; [reflexivity|].
  intros j t Hj. cbn [Nat.add]. apply H.
  assert (Hlt : (j < Z.to_nat i)%nat).
  { assert (Hn : nth_error (firstn (Z.to_nat i) ts) j <> None) by congruence.
    apply nth_error_Some in Hn. rewrite firstn_length_le in Hn by lia.
    exact Hn. }
  now rewrite nth_error_firstn, (proj2 (Nat.ltb_lt _ _) Hlt) in Hj.
Qed.

(** A member of a Tuple kept in memory or calldata lies at the parent's
    address plus the bytes of the members before it. *)
Lemma tuple_member_in_memory (parent : LLLnode) (members : list Typ)
      (k : Z) (t : Typ) (array_bounds_check : bool) :
  typ parent = Some (TupleType members) ->
  location parent = Some "memory" \/ location parent = Some "calldata" ->
  0 <= k ->
  nth_error members (Z.to_nat k) = Some t ->
  add_variable_offset parent (KInt k) array_bounds_check
  = Ok (Some (from_list
                (ROp "add" [RInt (bytes_of (firstn (Z.to_nat k) members));
                            RNode parent])
                (Some t) (location parent) None)).
Proof.
  intros Ht Hl Hk Hn.
  assert (Hlen : (Z.to_nat k < List.length members)%nat)
    by (apply nth_error_Some; congruence).
  unfold add_variable_offset, member_access. rewrite Ht.
  replace (loc_is (location parent) "storage") with false
    by (destruct Hl as [-> | ->]; reflexivity).
  replace (loc_is (location parent) "storage_prehashed") with false
    by (destruct Hl as [-> | ->]; reflexivity).
  replace (loc_is (location parent) "calldata"
           || loc_is (location parent) "memory") with true
    by (destruct Hl as [-> | ->]; reflexivity).
  rewrite (member_offset_prefix _ members) by
    (try lia;
     intros j t' Hj;
     assert (Hj' : (j < List.length members)%nat)
       by (apply nth_error_Some; congruence);
     rewrite py_range_from_zero, Nat2Z.id;
     rewrite (py_getitem_nth (map Z.of_nat (seq 0 (List.length members))) j
                (Z.of_nat j))
       by (rewrite nth_error_map, nth_error_seq,
             (proj2 (Nat.ltb_lt _ _) Hj'); reflexivity);
     cbn [bind]; now apply py_getitem_nth).
  cbn [bind].
  rewrite <- (Z2Nat.id k) at 1 by lia.
  now rewrite (py_getitem_nth members (Z.to_nat k) t Hn).
Qed.

Lemma dict_get_nth {A : Type} (ms : list (string * A)) (j : nat)
      (k : string) (t : A) :
  NoDup (dict_keys ms) ->
  nth_error ms j = Some (k, t) ->
  dict_get k ms = Some t.
Proof.
  revert j. induction ms as [|[k' t'] ms IH]; intros j Hnd Hj.
  - destruct j; discriminate.
  - unfold dict_keys in *. cbn [map fst] in Hnd. inversion Hnd as [|? ? Hnot Hnd'].
    subst. destruct j as [|j]; cbn in Hj |- *.
    + injection Hj as -> ->. now rewrite String.eqb_refl.
    + destruct (String.eqb k' k) eqn:E.
      * apply String.eqb_eq in E. subst. exfalso. apply Hnot.
        apply nth_error_In in Hj. now apply (in_map fst) in Hj.
      * eapply IH; eassumption.
Qed.

Lemma list_index_bound (k : string) (l : list string) (i : Z) :
  list_index k l = Some i ->
  0 <= i /\ nth_error l (Z.to_nat i) = Some k.
Proof.
  revert i. induction l as [|x l IH]; intros i H; [discriminate|].
  cbn [list_index] in H. destruct (String.eqb x k) eqn:E.
  - injection H as <-. apply String.eqb_eq in E. subst. now split.
  - destruct (list_index k l) as [i'|]; [|discriminate].
    injection H as <-. destruct (IH i' eq_refl) as [Hi Hn].
    split; [lia|]. rewrite Z2Nat.inj_succ by lia. exact Hn.
Qed.

(** A member of a Struct lies at the hash of the parent slot plus its
    position in storage, at the parent plus its position in prehashed
    storage, and at the parent plus the bytes of the members before it in
    memory or calldata. *)
Lemma struct_member_address (parent : LLLnode)
      (members : list (string * Typ)) (name k : string) (t : Typ) (i : Z)
      (array_bounds_check : bool) :
  typ parent = Some (StructType members name) ->
  NoDup (dict_keys members) ->
  dict_get k members = Some t ->
  list_index k (dict_keys members) = Some i ->
  add_variable_offset parent (KStr k) array_bounds_check
  = if loc_is (location parent) "storage" then
      Ok (Some (from_list
                  (ROp "add" [ROp "sha3_32" [RNode parent];
                              RNode (from_list (RInt i) None None (Some k))])
                  (Some t) (Some "storage") None))
    else if loc_is (location parent) "storage_prehashed" then
      Ok (Some (from_list
                  (ROp "add" [RNode parent;
                              RNode (from_list (RInt i) None None (Some k))])
                  (Some t) (Some "storage") None))
    else if loc_is (location parent) "calldata"
            || loc_is (location parent) "memory" then
      Ok (Some (from_list
                  (ROp "add" [RInt (bytes_of (firstn (Z.to_nat i)
                                                     (map snd members)));
                              RNode parent])
                  (Some t) (location parent) (Some k)))
    else Err TypeMismatchException.
Proof.
  intros Ht Hnd Hk Hi.
  unfold add_variable_offset, member_access. rewrite Ht, Hk, Hi.
  destruct (loc_is (location parent) "storage"); [reflexivity|].
  destruct (loc_is (location parent) "storage_prehashed"); [reflexivity|].
  destruct (loc_is (location parent) "calldata"
            || loc_is (location parent) "memory"); [|reflexivity].
  destruct (list_index_bound _ _ _ Hi) as [Hi0 Hin].
  assert (Hlen : (Z.to_nat i < List.length members)%nat).
  { assert (Hn : nth_error (dict_keys members) (Z.to_nat i) <> None)
      by congruence.
    apply nth_error_Some in Hn. unfold dict_keys in Hn.
    now rewrite length_map in Hn. }
  rewrite (member_offset_prefix _ (map snd members)).
  - reflexivity.
  - rewrite length_map. lia.
  - intros j t' Hj. rewrite nth_error_map in Hj.
    destruct (nth_error members j) as [[kj tj]|] eqn:Ej; [|discriminate].
    cbn in Hj. injection Hj as ->.
    rewrite (py_getitem_nth (dict_keys members) j kj)
      by (unfold dict_keys; now rewrite nth_error_map, Ej).
    cbn [bind]. now rewrite (dict_get_nth members j kj t' Hnd Ej).
Qed.

End MemberAddress.

(** The setter reaches that case by itself: clearing a Tuple kept in
    storage hashes the root, retags the token as prehashed and resolves
    its first member. *)
Example clearing_tuple_in_storage :
  make_setter (env := reference_env) 2 pair_in_storage null_pair
              (Some "storage") false
  = Err UnboundLocalError.
Proof. reflexivity. Qed.

(** * Further properties of the embedded functions *)

Lemma struct_member_address_witness :
  add_variable_offset (env := reference_env) point_in_memory (KStr "b") true
  = Ok (Some (from_list (ROp "add" [RInt 32; RNode point_in_memory])
                        (Some int128_t) (Some "memory") (Some "b"))).
Proof.
  rewrite (struct_member_address (env := reference_env) point_in_memory
             [("a", int128_t); ("b", int128_t)] "Point" "b" int128_t 1 true
             eq_refl).
  - reflexivity.
  - repeat constructor; cbn; intuition discriminate.
  - reflexivity.
  - reflexivity.
Defined.

Lemma tuple_member_in_memory_witness :
  add_variable_offset (env := reference_env) pair_in_memory (KInt 1) true
  = Ok (Some (from_list (ROp "add" [RInt 32; RNode pair_in_memory])
                        (Some int128_t) (Some "memory") None)).
Proof.
  rewrite (tuple_member_in_memory (env := reference_env) pair_in_memory
             [int128_t; int128_t] 1 int128_t true eq_refl
             (or_introl eq_refl)).
  - reflexivity.
  - lia.
  - reflexivity.
Defined.

Section TupleKeys.

Context {env : VyperEnv}.

Lemma member_offset_app (member_at : Z -> result Typ) (l1 l2 : list Z) :
  forall acc,
    member_offset member_at (l1 ++ l2) acc
    = bind (member_offset member_at l1 acc)
           (fun a => member_offset member_at l2 a).
Proof.
  induction l1 as [|i l1 IH]; intro acc; [reflexivity|].
  cbn [app member_offset]. destruct (member_at i); cbn [bind]; [apply IH|].
  reflexivity.
Qed.

Lemma py_getitem_past_end {A : Type} (l : list A) (i : Z) :
  Z.of_nat (List.length l) <= i -> py_getitem l i = Err IndexError.
Proof.
  intro H. unfold py_getitem.
  replace (i <? 0) with false by (symmetry; apply Z.ltb_ge; lia).
  replace (i <? Z.of_nat (List.length l)) with false
    by (symmetry; apply Z.ltb_ge; lia).
  now rewrite andb_false_r.
Qed.

Lemma tuple_member_at (members : list Typ) (j : nat) (t : Typ) :
  nth_error members j = Some t ->
  (a <- py_getitem (py_range 0 (Z.of_nat (List.length members)) 1)
                   (Z.of_nat j) ;;
   py_getitem members a) = Ok t.
Proof.
  intro Hj.
  assert (Hj' : (j < List.length members)%nat)
    by (apply nth_error_Some; congruence).
  rewrite py_range_from_zero, Nat2Z.id.
  rewrite (py_getitem_nth (map Z.of_nat (seq 0 (List.length members))) j
             (Z.of_nat j))
    by (rewrite nth_error_map, nth_error_seq,
          (proj2 (Nat.ltb_lt _ _) Hj'); reflexivity).
  cbn [bind]. now apply py_getitem_nth.
Qed.

(** A static key at or past the arity of a Tuple kept in memory or
    calldata is an index error: the running offset is summed over every
    position below the key, and the position equal to the arity does not
    exist. *)
Theorem tuple_key_past_arity (parent : LLLnode) (members : list Typ) (k : Z)
        (array_bounds_check : bool) :
  typ parent = Some (TupleType members) ->
  location parent = Some "memory" \/ location parent = Some "calldata" ->
  Z.of_nat (List.length members) <= k ->
  add_variable_offset parent (KInt k) array_bounds_check = Err IndexError.
Proof.
  intros Ht Hl Hk.
  unfold add_variable_offset, member_access. rewrite Ht.
  replace (loc_is (location parent) "storage") with false
    by (destruct Hl as [-> | ->]; reflexivity).
  replace (loc_is (location parent) "storage_prehashed") with false
    by (destruct Hl as [-> | ->]; reflexivity).
  replace (loc_is (location parent) "calldata"
           || loc_is (location parent) "memory") with true
    by (destruct Hl as [-> | ->]; reflexivity).
  rewrite (py_range_from_zero k).
  set (n := List.length members).
  assert (Hn : Z.of_nat n <= k) by exact Hk.
  pose proof (member_offset_sum
                (fun i => a <- py_getitem (py_range 0 (Z.of_nat n) 1) i ;;
                          py_getitem members a)
                members 0 0) as Hsum.
  fold n in Hsum.
  specialize (Hsum (fun j t Hj => tuple_member_at members j t Hj)).
  destruct (Z.eq_dec k (Z.of_nat n)) as [->|Hne].
  - rewrite Nat2Z.id, Hsum. cbn [bind].
    rewrite (py_getitem_past_end members) by (fold n; lia). reflexivity.
  - replace (Z.to_nat k) with (n + S (Z.to_nat k - S n))%nat by lia.
    rewrite seq_app, map_app, member_offset_app, Hsum.
    cbn [bind seq map member_offset Nat.add].
    rewrite (py_getitem_past_end (py_range 0 (Z.of_nat n) 1)); [reflexivity|].
    rewrite py_range_from_zero, length_map, length_seq. lia.
Qed.

(** A negative static key on a Tuple kept in memory or calldata is not
    refused: the offset loop runs over an empty range, so the child is
    placed at the parent's own address, and it takes the type of the
    member counted from the end. *)
Theorem tuple_negative_key_aliases_parent
        (parent : LLLnode) (members : list Typ) (k : Z) (t : Typ)
        (array_bounds_check : bool) :
  typ parent = Some (TupleType members) ->
  location parent = Some "memory" \/ location parent = Some "calldata" ->
  k < 0 ->
  0 <= k + Z.of_nat (List.length members) ->
  nth_error members (Z.to_nat (k + Z.of_nat (List.length members))) = Some t ->
  add_variable_offset parent (KInt k) array_bounds_check
  = Ok (Some (from_list (ROp "add" [RInt 0; RNode parent])
                        (Some t) (location parent) None)).
Proof.
  intros Ht Hl Hk Hk' Hn.
  assert (Hlen : (Z.to_nat (k + Z.of_nat (List.length members))
                  < List.length members)%nat)
    by (apply nth_error_Some; congruence).
  unfold add_variable_offset, member_access. rewrite Ht.
  replace (loc_is (location parent) "storage") with false
    by (destruct Hl as [-> | ->]; reflexivity).
  replace (loc_is (location parent) "storage_prehashed") with false
    by (destruct Hl as [-> | ->]; reflexivity).
  replace (loc_is (location parent) "calldata"
           || loc_is (location parent) "memory") with true
    by (destruct Hl as [-> | ->]; reflexivity).
  rewrite (py_range_from_zero k).
  replace (Z.to_nat k) with 0%nat by lia.
  cbn [seq map member_offset bind].
  unfold py_getitem.
  replace (k <? 0) with true by (symmetry; apply Z.ltb_lt; lia).
  replace ((0 <=? k + Z.of_nat (List.length members))
           && (k + Z.of_nat (List.length members)
               <? Z.of_nat (List.length members))) with true
    by (symmetry; apply andb_true_iff; split;
        [apply Z.leb_le | apply Z.ltb_lt]; lia).
  now rewrite Hn.
Qed.

End TupleKeys.

Lemma tuple_key_past_arity_witness :
  add_variable_offset (env := reference_env) pair_in_memory (KInt 2) true
  = Err IndexError.
Proof.
  apply (tuple_key_past_arity (env := reference_env) pair_in_memory
           [int128_t; int128_t] 2 true eq_refl (or_introl eq_refl)).
  cbn. lia.
Defined.

Lemma tuple_negative_key_aliases_parent_witness :
  add_variable_offset (env := reference_env) pair_in_memory (KInt (-1)) true
  = Ok (Some (from_list (ROp "add" [RInt 0; RNode pair_in_memory])
                        (Some int128_t) (Some "memory") None)).
Proof.
  apply (tuple_negative_key_aliases_parent (env := reference_env)
           pair_in_memory [int128_t; int128_t] (-1) int128_t true eq_refl
           (or_introl eq_refl)).
  - lia.
  - cbn. lia.
  - reflexivity.
Defined.

(** Case analysis on every test and every monadic step of a hypothesis. *)
Ltac break_hyp H :=
  repeat (unfold bind in H;
          match type of H with
          | context [match ?x with _ => _ end] =>
              destruct x eqn:?; try discriminate H
          end).

Section Invariants.

Context {env : VyperEnv}.

(** A mapping element is addressed only when the mapping lives in
    storage: the child is then the two-word hash of the parent and the key,
    tagged as storage and typed as the value type. In memory or calldata
    the lookup always fails, and a byte-string key is a type mismatch
    unless the key type is a byte string at least as long. *)
Theorem mapping_lookup_needs_storage
        (parent : LLLnode) (keytype valuetype : Typ) (key : Key)
        (array_bounds_check : bool) :
  typ parent = Some (MappingType keytype valuetype) ->
  (forall n,
     add_variable_offset parent key array_bounds_check = Ok (Some n) ->
     location parent = Some "storage"
     /\ location n = Some "storage"
     /\ typ n = Some valuetype
     /\ value n = VStr "sha3_64"
     /\ nth_error (args n) 0 = Some parent)
  /\ (location parent = Some "memory" \/ location parent = Some "calldata" ->
      exists e, add_variable_offset parent key array_bounds_check = Err e)
  /\ (forall k kmax,
        key = KNode k ->
        ByteArrayLike_maxlen (typ k) = Some kmax ->
        (forall tmax, ByteArrayLike_maxlen (Some keytype) = Some tmax ->
                      tmax < kmax) ->
        add_variable_offset parent key array_bounds_check
        = Err TypeMismatchException).
Proof.
  intro Ht. unfold add_variable_offset. rewrite Ht.
  split; [|split].
  - intros n H. destruct key as [s|z|k]; try discriminate H.
    unfold bind in H.
    match type of H with
    | match ?c with _ => _ end = _ => destruct c; [|discriminate H]
    end.
    destruct (loc_is (location parent) "storage") eqn:Es.
    + injection H as <-. apply loc_is_eq in Es.
      cbn [from_list ROp map location typ value args nth_error].
      rewrite node_eta. repeat split; auto.
    + destruct (loc_is (location parent) "memory"
                || loc_is (location parent) "calldata"); discriminate H.
  - intro Hl. destruct key as [s|z|k]; try (eexists; reflexivity).
    unfold bind.
    match goal with
    | |- exists e, match ?c with _ => _ end = _ =>
        destruct c; [|eexists; reflexivity]
    end.
    replace (loc_is (location parent) "storage") with false
      by (destruct Hl as [-> | ->]; reflexivity).
    replace (loc_is (location parent) "memory"
             || loc_is (location parent) "calldata") with true
      by (destruct Hl as [-> | ->]; reflexivity).
    eexists; reflexivity.
  - intros k kmax -> Hk Hshort. rewrite Hk.
    destruct (ByteArrayLike_maxlen (Some keytype)) as [tmax|] eqn:Et;
      [|reflexivity].
    specialize (Hshort tmax eq_refl).
    apply Z.ltb_lt in Hshort. now rewrite Hshort.
Qed.

(** A successful scalar conversion only ever goes from a scalar type to a
    scalar type; its result carries no location (the operand has been
    loaded) and is typed as the destination, or, for the widening of an
    integer to a decimal, as a plain decimal with the destination's unit
    wrapped around a multiplication. *)
Theorem conversion_result_shape
        (orig : LLLnode) (frm : option Typ) (to : Typ)
        (in_function_call : bool) (n : LLLnode) :
  base_type_conversion orig frm to in_function_call = Ok n ->
  exists f t,
    frm = Some (BaseType f) /\ to = BaseType t
    /\ location n = None
    /\ ((typ n = Some to
         /\ value n = value (unwrap_location orig)
         /\ args n = args (unwrap_location orig))
        \/ (typ n = Some (BaseType (Base.mk "decimal" (Base.unit t)
                                            (Base.positional t) false None))
            /\ value n = VStr "mul"
            /\ is_base_type frm ["int128"] = true
            /\ is_base_type (Some to) ["decimal"] = true)).
Proof.
  unfold base_type_conversion. intro H. unfold bind in H.
  destruct (literal_guard (unwrap_location orig) frm to in_function_call);
    [|discriminate H].
  destruct frm as [[f| | | | | |]|]; try discriminate H.
  destruct to as [t| | | | | |]; try discriminate H.
  exists f, t. split; [reflexivity|]. split; [reflexivity|].
  destruct (is_base_type (Some (BaseType f)) [Base.typ t]
            && are_units_compatible (Some (BaseType f)) (BaseType t)).
  { injection H as <-. split; [reflexivity|]. left. repeat split. }
  destruct (match Base.contract f with Some _ => true | None => false end
            && is_address_type (BaseType t)).
  { injection H as <-. split; [reflexivity|]. left. repeat split. }
  destruct (is_base_type (Some (BaseType f)) ["int128"]) eqn:E1;
    [destruct (is_base_type (Some (BaseType t)) ["decimal"]) eqn:E2|];
    cbn [andb] in H.
  - destruct (are_units_compatible (Some (BaseType f)) (BaseType t)).
    + injection H as <-. split; [reflexivity|]. right. repeat split.
    + destruct (String.eqb (Base.typ f) "int128"
                && String.eqb (Base.typ t) "uint256" && Base.is_literal f);
        [|discriminate H].
      injection H as <-. split; [reflexivity|]. left. repeat split.
  - destruct (String.eqb (Base.typ f) "int128"
              && String.eqb (Base.typ t) "uint256" && Base.is_literal f);
      [|discriminate H].
    injection H as <-. split; [reflexivity|]. left. repeat split.
  - destruct (String.eqb (Base.typ f) "int128"
              && String.eqb (Base.typ t) "uint256" && Base.is_literal f);
      [|discriminate H].
    injection H as <-. split; [reflexivity|]. left. repeat split.
Qed.

Lemma copier_result_is_statement (destination source n : LLLnode) :
  make_byte_array_copier destination source = Ok n ->
  typ n = None /\ location n = None.
Proof.
  unfold make_byte_array_copier. intro H. break_hyp H;
    injection H as <-; split; reflexivity.
Qed.

(** Whatever the setter returns is a statement: the node carries neither
    a type nor a location. It returns no node at all only for a scalar
    target whose location argument is neither storage nor memory. *)
Theorem setter_returns_statement
        (fuel : nat) (left right : LLLnode) (loc : option string)
        (in_call : bool) :
  (forall n,
     make_setter fuel left right loc in_call = Ok (Some n) ->
     typ n = None /\ location n = None)
  /\ (make_setter fuel left right loc in_call = Ok None ->
      exists lb, typ left = Some (BaseType lb)
                 /\ loc <> Some "storage" /\ loc <> Some "memory").
Proof.
  destruct fuel as [|fuel]; [split; intros; discriminate|].
  split.
  - intros n H. cbn [make_setter] in H.
    destruct (typ left) as [[lb|m|m|st c|kt vt|ms nm|ms]|] eqn:Ht;
      try discriminate H.
    + break_hyp H; injection H as <-; split; reflexivity.
    + unfold bind in H.
      destruct (make_byte_array_copier left right) as [r|] eqn:Ec;
        [|discriminate H].
      injection H as <-. eapply copier_result_is_statement; eassumption.
    + unfold bind in H.
      destruct (make_byte_array_copier left right) as [r|] eqn:Ec;
        [|discriminate H].
      injection H as <-. eapply copier_result_is_statement; eassumption.
    + break_hyp H; injection H as <-; split; reflexivity.
    + break_hyp H; injection H as <-; split; reflexivity.
    + break_hyp H; injection H as <-; split; reflexivity.
  - intro H. cbn [make_setter] in H.
    destruct (typ left) as [[lb|m|m|st c|kt vt|ms nm|ms]|] eqn:Ht;
      try discriminate H.
    + exists lb. split; [reflexivity|].
      break_hyp H; split; now apply loc_is_neq.
    + break_hyp H.
    + break_hyp H.
    + break_hyp H.
    + break_hyp H.
    + break_hyp H.
Qed.

End Invariants.

Lemma mapping_lookup_needs_storage_witness :
  exists n,
    add_variable_offset (env := reference_env) balances_in_storage
                        (KNode literal_five) true = Ok (Some n)
    /\ location n = Some "storage" /\ typ n = Some uint256_t.
Proof.
  eexists. split; [reflexivity|].
  destruct (proj1 (mapping_lookup_needs_storage (env := reference_env)
                     balances_in_storage int128_t uint256_t
                     (KNode literal_five) true eq_refl)
                  _ eq_refl) as [_ [Hl [Ht _]]].
  split; [exact Hl | exact Ht].
Defined.

Lemma conversion_result_shape_witness :
  exists n,
    base_type_conversion (env := reference_env) int128_in_memory
                         (Some int128_t) int128_t false = Ok n
    /\ location n = None /\ value n = VStr "mload".
Proof.
  eexists. split; [reflexivity|].
  destruct (conversion_result_shape (env := reference_env) int128_in_memory
              (Some int128_t) int128_t false _ eq_refl)
    as [f [t [_ [_ [Hl _]]]]].
  split; [exact Hl | reflexivity].
Defined.

Lemma setter_returns_statement_witness :
  exists n,
    make_setter (env := reference_env) 1 int128_in_memory literal_five
                (Some "memory") false = Ok (Some n)
    /\ typ n = None /\ location n = None.
Proof.
  eexists. split; [reflexivity|].
  apply (proj1 (setter_returns_statement (env := reference_env) 1
                  int128_in_memory literal_five (Some "memory") false)).
  reflexivity.
Defined.

Section AggregateSetter.

Context {env : VyperEnv}.

(** Running a zero-fill of [len] bytes at the address of [dst]. *)
Lemma run_mzero (sha : Z -> Z) (dst : LLLnode) (len : Z) (st : VMState)
      (rho : list (string * Z)) (d : Z) :
  eval sha st rho dst = Val d ->
  exec sha st rho (mzero (RNode dst) (RInt len))
  = Val (calldatacopy st d (Z.of_nat (List.length (calldata st)))
                      (len mod WORD)).
Proof.
  intro He. unfold mzero. build_nodes.
  now rewrite exec_calldatacopy, He, eval_calldatasize, eval_int.
Qed.

(** Clearing a List, Struct or Tuple that lives in memory emits one
    zero-fill over the [32 * size] bytes of the whole aggregate, whatever
    the location argument. Running it leaves exactly these bytes zero.
    For a Struct or Tuple the type of the null source is not looked at; a
    List needs a List source of the same count. *)
Theorem null_source_zero_fills_aggregate
        (fuel : nat) (left right : LLLnode) (lt : Typ)
        (loc : option string) (in_call : bool) :
  typ left = Some lt ->
  clearable left right lt ->
  location left = Some "memory" ->
  value right = VNone ->
  let code := mzero (RNode left) (RInt (32 * get_size_of_type lt)) in
  make_setter (S fuel) left right loc in_call = Ok (Some code)
  /\ forall sha st rho d,
       eval sha st rho left = Val d ->
       0 <= 32 * get_size_of_type lt < WORD ->
       exists st',
         exec sha st rho code = Val st'
         /\ (forall a, d <= a < d + 32 * get_size_of_type lt ->
                       memory st' a = 0)
         /\ (forall a, a < d \/ d + 32 * get_size_of_type lt <= a ->
                       memory st' a = memory st a)
         /\ storage st' = storage st.
Proof.
  intros Ht Hc Hl Hv code. split.
  - cbn [make_setter]. rewrite Ht. unfold prehash, at_loc.
    destruct lt as [b|m|m|st c|kt vt|ms nm|ms]; try contradiction;
      cbn [clearable] in Hc.
    + destruct Hc as [Hm [rsub Hr]]. rewrite Hm, Hr, Z.eqb_refl, Hl, Hv.
      change (loc_is (Some "memory") "storage") with false.
      cbn [negb value_is is_None fst snd]. rewrite ?Hl. reflexivity.
    + rewrite Hc, Hl, Hv.
      change (loc_is (Some "memory") "storage") with false.
      cbn [negb andb value_is is_None fst snd bind]. rewrite ?Hl. reflexivity.
    + rewrite Hl, Hv.
      change (loc_is (Some "memory") "storage") with false.
      cbn [negb andb value_is is_None fst snd bind].
      rewrite andb_false_r. cbn [bind]. rewrite ?Hl. reflexivity.
  - intros sha st rho d He Hsz.
    exists (calldatacopy st d (Z.of_nat (List.length (calldata st)))
                         (32 * get_size_of_type lt)).
    split.
    { unfold code. rewrite (run_mzero sha left _ st rho d He).
      now rewrite Z.mod_small by exact Hsz. }
    split; [|split]; [| |reflexivity].
    + intros a Ha. cbn [memory calldatacopy].
      replace ((d <=? a) && (a <? d + 32 * get_size_of_type lt)) with true
        by (symmetry; apply andb_true_iff; split;
            [apply Z.leb_le | apply Z.ltb_lt]; lia).
      apply calldata_byte_past_end. lia.
    + intros a Ha. cbn [memory calldatacopy].
      replace ((d <=? a) && (a <? d + 32 * get_size_of_type lt)) with false;
        [reflexivity|].
      symmetry. apply andb_false_iff.
      destruct Ha; [left; apply Z.leb_gt | right; apply Z.ltb_ge]; lia.
Qed.

(** A List target accepts only a List source of the same count, a null
    source included; a list literal cannot be a target. *)
Theorem list_assignment_needs_same_count
        (fuel : nat) (left right : LLLnode) (lsub : Typ) (lcount : Z)
        (loc : option string) (in_call : bool) :
  typ left = Some (ListType lsub lcount) ->
  (value_is (value left) "multi" = true ->
   make_setter (S fuel) left right loc in_call = Err PyException)
  /\ (value_is (value left) "multi" = false ->
      (forall rsub rcount, typ right = Some (ListType rsub rcount) ->
                           rcount <> lcount) ->
      make_setter (S fuel) left right loc in_call
      = Err TypeMismatchException).
Proof.
  intro Ht. cbn [make_setter]. rewrite Ht. split.
  - intros ->. reflexivity.
  - intros -> Hr.
    destruct (typ right) as [[b|m|m|rsub rcount|kt vt|ms nm|ms]|];
      try reflexivity.
    specialize (Hr rsub rcount eq_refl). apply Z.eqb_neq in Hr.
    now rewrite Hr.
Qed.

(** A byte-string source that is not null has to live in memory or in
    storage. Any other location tag is reported: as a panic when there is
    a tag, and, because the message is built by string concatenation, as a
    type error of the host language when there is none. *)
Theorem copier_source_needs_memory_or_storage
        (destination source : LLLnode) (smax dmax : Z) :
  ByteArrayLike_maxlen (typ source) = Some smax ->
  ByteArrayLike_maxlen (typ destination) = Some dmax ->
  smax <= dmax ->
  is_None (value source) = false ->
  location source <> Some "memory" ->
  location source <> Some "storage" ->
  make_byte_array_copier destination source
  = match location source with
    | Some _ => Err CompilerPanic
    | None => Err TypeError
    end.
Proof.
  intros Hs Hd Hle Hv Hm Hst.
  unfold make_byte_array_copier. rewrite Hs, Hd, Hv.
  replace (smax >? dmax) with false
    by (symmetry; rewrite Z.gtb_ltb; apply Z.ltb_ge; lia).
  apply loc_is_neq in Hm, Hst. rewrite Hm, Hst. cbn [andb].
  unfold unsupported_location. now destruct (location source).
Qed.

(** The address the emitted code computes for a List element: the hash of
    the parent slot plus the index in storage, the parent plus the index in
    prehashed storage, the parent plus the index times the byte size of an
    element in memory or calldata, all in word arithmetic. *)
Theorem list_element_address
        (parent : LLLnode) (subtype : Typ) (sub : Raw) (n : LLLnode) :
  list_access parent subtype sub = Ok (Some n) ->
  forall sha st rho p i,
    eval sha st rho parent = Val p ->
    eval sha st rho (from_list sub None None None) = Val i ->
    eval sha st rho n
    = Val (if loc_is (location parent) "storage" then (sha p + i) mod WORD
           else if loc_is (location parent) "storage_prehashed"
                then (p + i) mod WORD
                else (((32 * get_size_of_type subtype) mod WORD * i) mod WORD
                      + p) mod WORD).
Proof.
  unfold list_access. intros H sha st rho p i Hp Hi.
  destruct (loc_is (location parent) "storage");
    [| destruct (loc_is (location parent) "storage_prehashed");
       [| destruct (loc_is (location parent) "calldata"
                    || loc_is (location parent) "memory");
          [| discriminate H ] ] ];
    injection H as <-; rewrite ?node_eta.
  - now rewrite eval_add, eval_sha3_32, Hp, Hi.
  - now rewrite eval_add, Hp, Hi.
  - now rewrite eval_add, eval_mul, eval_int, Hi, Hp.
Qed.

End AggregateSetter.

Lemma null_source_zero_fills_aggregate_witness :
  make_setter (env := reference_env) 1 point_in_memory null_point
              (Some "memory") false
  = Ok (Some (mzero (RNode point_in_memory) (RInt 64)))
  /\ make_setter (env := reference_env) 1 list5_in_memory null_list5
                 (Some "memory") false
     = Ok (Some (mzero (RNode list5_in_memory) (RInt 160))).
Proof.
  split.
  - apply (null_source_zero_fills_aggregate (env := reference_env) 0
             point_in_memory null_point point_t (Some "memory") false
             eq_refl eq_refl eq_refl eq_refl).
  - apply (null_source_zero_fills_aggregate (env := reference_env) 0
             list5_in_memory null_list5 (ListType int128_t 5)
             (Some "memory") false eq_refl
             (conj eq_refl (ex_intro _ int128_t eq_refl))
             eq_refl eq_refl).
Defined.

Lemma list_assignment_needs_same_count_witness :
  make_setter (env := reference_env) 1 list5_in_memory list4_variable
              (Some "memory") false
  = Err TypeMismatchException.
Proof.
  apply (proj2 (list_assignment_needs_same_count (env := reference_env) 0
                  list5_in_memory list4_variable int128_t 5
                  (Some "memory") false eq_refl) eq_refl).
  intros rsub rcount H. injection H as _ <-. lia.
Defined.

Lemma copier_source_needs_memory_or_storage_witness :
  make_byte_array_copier (env := reference_env) bytes20_in_memory
                         bytes20_in_calldata
  = Err CompilerPanic
  /\ make_byte_array_copier (env := reference_env) bytes20_in_memory
                            bytes20_unlocated
     = Err TypeError.
Proof.
  split.
  - apply (copier_source_needs_memory_or_storage (env := reference_env)
             bytes20_in_memory bytes20_in_calldata 20 20 eq_refl eq_refl);
      [lia | reflexivity | discriminate | discriminate].
  - apply (copier_source_needs_memory_or_storage (env := reference_env)
             bytes20_in_memory bytes20_unlocated 20 20 eq_refl eq_refl);
      [lia | reflexivity | discriminate | discriminate].
Defined.

Lemma list_element_address_witness :
  exists n,
    add_variable_offset (env := reference_env) list5_in_memory
                        (KNode index_variable) true = Ok (Some n)
    /\ eval (fun x => x) index_three_state [] n = Val (32 * 3 + 320).
Proof.
  eexists. split; [reflexivity|].
  rewrite (list_element_address (env := reference_env) list5_in_memory
             int128_t
             (ROp "uclamplt" [RNode (unwrap_location index_variable); RInt 5])
             _ eq_refl (fun x => x) index_three_state [] 320 3);
    reflexivity.
Defined.

(** ** Strings *)

Lemma string_take_drop (n : nat) (s : string) :
  string_take n s ++ string_drop n s = s.
Proof.
  revert s. induction n as [|n IH]; intros [|c s]; cbn; try reflexivity.
  now rewrite IH.
Qed.

Lemma string_take_all (n : nat) (s : string) :
  (String.length s <= n)%nat -> string_take n s = s.
Proof.
  revert s. induction n as [|n IH]; intros [|c s] H; cbn in *;
    try reflexivity; try lia.
  rewrite IH by lia. reflexivity.
Qed.

Lemma string_take_min (n : nat) (s : string) :
  string_take (Nat.min n (String.length s)) s = string_take n s.
Proof.
  destruct (Nat.le_ge_cases n (String.length s)) as [H|H].
  - now rewrite Nat.min_l.
  - rewrite Nat.min_r by exact H.
    now rewrite !string_take_all by lia.
Qed.

Lemma py_slice_to_take (s : string) (n : nat) :
  py_slice_to s (Z.of_nat n) = string_take n s.
Proof.
  unfold py_slice_to, slice_bound.
  replace (Z.of_nat n <? 0) with false by (symmetry; apply Z.ltb_ge; lia).
  rewrite <- Nat2Z.inj_min, Nat2Z.id. apply string_take_min.
Qed.

Lemma string_length_take (n : nat) (s : string) :
  String.length (string_take n s) = Nat.min n (String.length s).
Proof.
  revert s. induction n as [|n IH]; intros [|c s]; cbn; try reflexivity.
  now rewrite IH.
Qed.

Lemma string_take_app (a b : string) :
  string_take (String.length a) (a ++ b) = a.
Proof. induction a as [|c a IH]; cbn; [now destruct b | now rewrite IH]. Qed.

Lemma string_drop_app (a b : string) :
  string_drop (String.length a) (a ++ b) = b.
Proof. induction a as [|c a IH]; cbn; [now destruct b | exact IH]. Qed.

Lemma string_app_assoc (a b c : string) : (a ++ b) ++ c = a ++ (b ++ c).
Proof. induction a as [|x a IH]; cbn; [reflexivity | now rewrite IH]. Qed.

Lemma string_length_app (a b : string) :
  String.length (a ++ b) = (String.length a + String.length b)%nat.
Proof. induction a as [|x a IH]; cbn; [reflexivity | now rewrite IH]. Qed.

Lemma span_len_le (p : ascii -> bool) (s : string) :
  (span_len p s <= String.length s)%nat.
Proof.
  induction s as [|c s IH]; cbn; [lia|]. destruct (p c); lia.
Qed.

Lemma span_len_app (p : ascii -> bool) (a b : string) :
  string_forall p a = true -> stops p b = true ->
  span_len p (a ++ b) = String.length a.
Proof.
  intros Ha Hb. induction a as [|c a IH]; cbn in *.
  - destruct b as [|c b]; [reflexivity|]. cbn in *.
    now destruct (p c).
  - apply andb_true_iff in Ha. destruct Ha as [Hc Ha].
    now rewrite Hc, IH.
Qed.

Lemma span_len_forall (p : ascii -> bool) (s : string) :
  string_forall p (string_take (span_len p s) s) = true
  /\ stops p (string_drop (span_len p s) s) = true.
Proof.
  induction s as [|c s [IH1 IH2]]; cbn; [split; reflexivity|].
  destruct (p c) eqn:E; cbn.
  - rewrite E. split; [exact IH1 | exact IH2].
  - rewrite E. split; reflexivity.
Qed.

Lemma string_get_app (a : string) (c : ascii) (b : string) :
  String.get (String.length a) (a ++ String c b) = Some c.
Proof. induction a as [|x a IH]; cbn; [reflexivity | exact IH]. Qed.

Lemma Ok_Some_inj {A : Type} (a b : A) : Ok (Some a) = Ok (Some b) -> a = b.
Proof. congruence. Qed.

(** ** Literals with a base prefix *)

(** [get_original_if_0_prefixed] answers [None] exactly when the text at
    the position of the literal does not start with [0x] or [0b]; the two
    characters are compared as they are, so a text that starts with an
    upper case [0X] gives [None]. Otherwise it returns a prefix of that
    text: the two prefix characters followed by the longest run of digits
    of the base, possibly empty. *)
Theorem zero_prefixed_literal_is_maximal_run
        (expr : NumExpr.t) (origcode : list string) (text : string) :
  context_slice origcode expr = Ok text ->
  (get_original_if_0_prefixed expr origcode = Ok None
   <-> string_take 2 text <> "0x" /\ string_take 2 text <> "0b")
  /\ (forall r,
        get_original_if_0_prefixed expr origcode = Ok (Some r) ->
        exists digits rest,
          text = r ++ rest
          /\ ((r = "0x" ++ digits
               /\ string_forall is_hex_digit digits = true
               /\ stops is_hex_digit rest = true)
              \/ (r = "0b" ++ digits
                  /\ string_forall is_bin_digit digits = true
                  /\ stops is_bin_digit rest = true))).
Proof.
  intro Hs. unfold get_original_if_0_prefixed. rewrite Hs. cbn [bind].
  change (py_slice_to text 2) with (py_slice_to text (Z.of_nat 2)).
  rewrite py_slice_to_take.
  unfold py_in. cbn [existsb]. rewrite orb_false_r.
  destruct (String.eqb (string_take 2 text) "0x") eqn:Ex.
  - apply String.eqb_eq in Ex. cbn [orb negb]. split.
    + split; [discriminate|]. intros [H _]. contradiction.
    + intros r H. apply Ok_Some_inj in H. subst r.
      set (rest0 := string_drop 2 text).
      assert (Ht : text = "0x" ++ rest0)
        by (rewrite <- Ex; symmetry; apply string_take_drop).
      exists (string_take (span_len is_hex_digit rest0) rest0),
             (string_drop (span_len is_hex_digit rest0) rest0).
      destruct (span_len_forall is_hex_digit rest0) as [H1 H2].
      assert (Hr : py_slice_to text
                     (Z.of_nat (span_len (char_in "0123456789abcdefABCDEF")
                                         rest0) + 2)
                   = "0x" ++ string_take (span_len is_hex_digit rest0) rest0).
      { replace (Z.of_nat (span_len (char_in "0123456789abcdefABCDEF") rest0)
                 + 2)
          with (Z.of_nat (S (S (span_len is_hex_digit rest0))))
          by (unfold is_hex_digit; lia).
        rewrite py_slice_to_take. rewrite Ht at 1. reflexivity. }
      rewrite Hr. split.
      * rewrite string_app_assoc, string_take_drop. exact Ht.
      * left. repeat split; assumption.
  - destruct (String.eqb (string_take 2 text) "0b") eqn:Eb.
    + apply String.eqb_eq in Eb. cbn [orb negb].
      split.
      * split; [discriminate|]. intros [_ H]. contradiction.
      * intros r H. apply Ok_Some_inj in H. subst r.
        set (rest0 := string_drop 2 text).
        assert (Ht : text = "0b" ++ rest0)
          by (rewrite <- Eb; symmetry; apply string_take_drop).
        exists (string_take (span_len is_bin_digit rest0) rest0),
               (string_drop (span_len is_bin_digit rest0) rest0).
        destruct (span_len_forall is_bin_digit rest0) as [H1 H2].
        assert (Hr : py_slice_to text
                       (Z.of_nat (span_len (char_in "01") rest0) + 2)
                     = "0b" ++ string_take (span_len is_bin_digit rest0) rest0).
        { replace (Z.of_nat (span_len (char_in "01") rest0) + 2)
            with (Z.of_nat (S (S (span_len is_bin_digit rest0))))
            by (unfold is_bin_digit; lia).
          rewrite py_slice_to_take. rewrite Ht at 1. reflexivity. }
        rewrite Hr. split.
        -- rewrite string_app_assoc, string_take_drop. exact Ht.
        -- right. repeat split; assumption.
    + cbn [orb negb]. split.
      * split; [intros _ | reflexivity].
        apply String.eqb_neq in Ex, Eb. now split.
      * intros r H. discriminate H.
Qed.

Lemma zero_prefixed_literal_is_maximal_run_witness :
  get_original_if_0_prefixed (NumExpr.mk 1 4 false) ["x = 0xff01 + 1"]
  = Ok (Some "0xff01")
  /\ (get_original_if_0_prefixed (NumExpr.mk 1 4 false) ["x = 0Xff"] = Ok None
      <-> string_take 2 "0Xff" <> "0x" /\ string_take 2 "0Xff" <> "0b").
Proof.
  split; [reflexivity|].
  apply (zero_prefixed_literal_is_maximal_run (NumExpr.mk 1 4 false)
           ["x = 0Xff"] "0Xff" eq_refl).
Defined.

(** ** Decimal literals *)

Lemma is_digit_not_dot (c : ascii) :
  is_digit c = true -> Ascii.eqb c "."%char = false.
Proof.
  intro H. destruct (Ascii.eqb_spec c "."%char) as [->|]; [|reflexivity].
  discriminate H.
Qed.

Lemma is_digit_or_dot_spec (c : ascii) :
  is_digit_or_dot c = is_digit c || Ascii.eqb c "."%char.
Proof.
  unfold is_digit_or_dot, is_digit, char_in. cbn [list_ascii_of_string existsb].
  rewrite !orb_false_r, <- !orb_assoc. reflexivity.
Qed.

Lemma string_forall_app (p : ascii -> bool) (a b : string) :
  string_forall p (a ++ b) = string_forall p a && string_forall p b.
Proof.
  induction a as [|c a IH]; cbn; [reflexivity|].
  now rewrite IH, andb_assoc.
Qed.

Lemma digits_are_digits_or_dots (s : string) :
  string_forall is_digit s = true -> string_forall is_digit_or_dot s = true.
Proof.
  induction s as [|c s IH]; cbn [string_forall remove_dots];
    [reflexivity|]. intro H.
  apply andb_true_iff in H. destruct H as [Hc Hs].
  now rewrite is_digit_or_dot_spec, Hc, IH.
Qed.

Lemma remove_dots_digits (s : string) :
  string_forall is_digit s = true -> remove_dots s = s.
Proof.
  induction s as [|c s IH]; cbn [string_forall remove_dots];
    [reflexivity|]. intro H.
  apply andb_true_iff in H. destruct H as [Hc Hs].
  now rewrite (is_digit_not_dot c Hc), IH.
Qed.

Lemma remove_dots_app (a b : string) :
  remove_dots (a ++ b) = remove_dots a ++ remove_dots b.
Proof.
  induction a as [|c a IH]; cbn; [reflexivity|].
  destruct (Ascii.eqb c "."%char); cbn; now rewrite IH.
Qed.

Lemma index_of_dot_digits (a b : string) :
  string_forall is_digit a = true ->
  index_of_dot (a ++ String "."%char b) = Some (String.length a).
Proof.
  induction a as [|c a IH];
    cbn [string_forall index_of_dot append String.length];
    [reflexivity|]. intro H.
  apply andb_true_iff in H. destruct H as [Hc Hs].
  now rewrite (is_digit_not_dot c Hc), IH.
Qed.

Lemma index_of_dot_none (s : string) :
  string_forall is_digit s = true -> index_of_dot s = None.
Proof.
  induction s as [|c s IH]; cbn [string_forall index_of_dot];
    [reflexivity|]. intro H.
  apply andb_true_iff in H. destruct H as [Hc Hs].
  now rewrite (is_digit_not_dot c Hc), IH.
Qed.

Lemma index_of_dot_lt (s : string) (i : nat) :
  index_of_dot s = Some i -> (i < String.length s)%nat.
Proof.
  revert i. induction s as [|c s IH]; cbn; intros i H; [discriminate|].
  destruct (Ascii.eqb c "."%char).
  - injection H as <-. lia.
  - destruct (index_of_dot s) as [j|]; [|discriminate].
    injection H as <-. specialize (IH j eq_refl). lia.
Qed.

Lemma digit_value_bounds (c : ascii) (d : Z) :
  digit_value c = Some d -> 0 <= d <= 9.
Proof.
  unfold digit_value, char_in. cbn [list_ascii_of_string existsb].
  rewrite !orb_false_r. intro H.
  repeat match type of H with
         | (if Ascii.eqb c ?x || _ then _ else _) = _ =>
             destruct (Ascii.eqb_spec c x) as [->|];
             [cbn in H; injection H as <-; lia | cbn [orb] in H]
         | (if Ascii.eqb c ?x then _ else _) = _ =>
             destruct (Ascii.eqb_spec c x) as [->|];
             [cbn in H; injection H as <-; lia | discriminate H]
         end.
Qed.

Lemma int_of_digits_nonneg (s : string) :
  forall acc n, 0 <= acc -> int_of_digits_from acc s = Some n -> 0 <= n.
Proof.
  induction s as [|c s IH]; cbn; intros acc n Ha H.
  - injection H as <-. exact Ha.
  - destruct (digit_value c) as [d|] eqn:E; [|discriminate].
    apply digit_value_bounds in E. eapply IH; [|exact H]. lia.
Qed.

Lemma int_of_digits_from_value (s : string) :
  string_forall is_digit s = true ->
  exists v, 0 <= v
            /\ forall acc,
                 int_of_digits_from acc s
                 = Some (acc * 10 ^ Z.of_nat (String.length s) + v).
Proof.
  induction s as [|c s IH]; cbn [string_forall]; intro H.
  - exists 0. split; [lia|]. intro acc. cbn. f_equal. lia.
  - apply andb_true_iff in H. destruct H as [Hc Hs].
    destruct (IH Hs) as [v [Hv Hacc]].
    assert (Hd : exists d, digit_value c = Some d).
    { unfold digit_value. fold is_digit. rewrite Hc. now eexists. }
    destruct Hd as [d Hd]. pose proof (digit_value_bounds c d Hd) as Hb.
    exists (d * 10 ^ Z.of_nat (String.length s) + v). split.
    + assert (0 <= 10 ^ Z.of_nat (String.length s)) by (apply Z.pow_nonneg; lia).
      nia.
    + intro acc. cbn [int_of_digits_from String.length]. rewrite Hd, Hacc.
      f_equal. rewrite Nat2Z.inj_succ, Z.pow_succ_r by lia. ring.
Qed.

Lemma int_of_digits_from_app (a b : string) (acc : Z) :
  int_of_digits_from acc (a ++ b)
  = match int_of_digits_from acc a with
    | Some n => int_of_digits_from n b
    | None => None
    end.
Proof.
  revert acc. induction a as [|c a IH]; intro acc; cbn; [reflexivity|].
  destruct (digit_value c); [apply IH | reflexivity].
Qed.

Lemma py_int_digits (s : string) (v : Z) :
  s <> "" -> int_of_digits_from 0 s = Some v -> py_int s = Done v.
Proof.
  intros Hne H. unfold py_int. destruct s; [contradiction|]. now rewrite H.
Qed.

(** Whenever [get_number_as_fraction] returns, the denominator is a power
    of ten, hence positive; the numerator has the sign of the number; and
    the returned text is the run of digits and dots that starts the source
    slice, up to the first other character. *)
Theorem fraction_is_well_formed
        (expr : NumExpr.t) (origcode : list string)
        (text : string) (top bottom : Z) :
  get_number_as_fraction expr origcode = Done (text, top, bottom) ->
  (exists k : nat, bottom = 10 ^ Z.of_nat k)
  /\ 0 < bottom
  /\ (if NumExpr.n_negative expr then top <= 0 else 0 <= top)
  /\ exists rest,
       context_slice origcode expr = Ok (text ++ rest)
       /\ string_forall is_digit_or_dot text = true
       /\ stops is_digit_or_dot rest = true.
Proof.
  unfold get_number_as_fraction. intro H.
  destruct (context_slice origcode expr) as [slice|] eqn:Es;
    [|discriminate H].
  cbn [lift rbind] in H.
  set (t := span_len (char_in "0123456789.") slice) in *.
  match type of H with
  | (if ?c then _ else _) = _ => destruct c; [discriminate H|]
  end.
  rewrite py_slice_to_take in H.
  destruct (py_int (remove_dots (string_take t slice))) as [top0|] eqn:Et;
    [|discriminate H].
  cbn [rbind] in H.
  assert (Hlen : String.length (string_take t slice) = t)
    by (rewrite string_length_take; apply Nat.min_l; apply span_len_le).
  assert (Htop0 : 0 <= top0).
  { unfold py_int in Et.
    destruct (remove_dots (string_take t slice)) as [|c s] eqn:Er;
      [discriminate|].
    destruct (int_of_digits_from 0 (String c s)) as [n|] eqn:En;
      [|discriminate].
    injection Et as <-. eapply int_of_digits_nonneg; [|exact En]. lia. }
  assert (Hbot : exists k : nat,
             match index_of_dot (string_take t slice) with
             | Some i => 10 ^ (Z.of_nat t - Z.of_nat i - 1)
             | None => 1
             end = 10 ^ Z.of_nat k).
  { destruct (index_of_dot (string_take t slice)) as [i|] eqn:Ei.
    - apply index_of_dot_lt in Ei. rewrite Hlen in Ei.
      exists (t - i - 1)%nat. f_equal. lia.
    - exists 0%nat. reflexivity. }
  injection H as <- <- <-.
  destruct Hbot as [k Hk]. split; [now exists k|]. split.
  { rewrite Hk. apply Z.pow_pos_nonneg; lia. }
  split.
  { destruct (NumExpr.n_negative expr); lia. }
  exists (string_drop t slice). rewrite string_take_drop.
  split; [reflexivity|]. apply span_len_forall.
Qed.

(** A literal in scientific notation is refused: when the run of digits
    and dots is followed by [e], the literal is invalid. *)
Theorem scientific_notation_is_refused
        (expr : NumExpr.t) (origcode : list string) (run rest : string) :
  context_slice origcode expr = Ok (run ++ String "e"%char rest) ->
  string_forall is_digit_or_dot run = true ->
  get_number_as_fraction expr origcode
  = Fail (Raised InvalidLiteralException).
Proof.
  intros Hs Hrun. unfold get_number_as_fraction. rewrite Hs.
  cbn [lift rbind].
  fold is_digit_or_dot.
  rewrite (span_len_app is_digit_or_dot run (String "e"%char rest) Hrun eq_refl).
  rewrite string_get_app, string_length_app.
  replace (String.length run <? String.length run
                                + String.length (String "e"%char rest))%nat
    with true by (symmetry; apply Nat.ltb_lt; cbn; lia).
  reflexivity.
Qed.

(** A decimal literal [ip.fp] is read as the fraction whose numerator is
    the number written by the digits of [ip] followed by those of [fp],
    negated for a negative number, and whose denominator is ten to the
    number of digits of [fp]. *)
Theorem decimal_literal_value
        (expr : NumExpr.t) (origcode : list string) (ip fp rest : string) :
  context_slice origcode expr = Ok (ip ++ "." ++ fp ++ rest) ->
  string_forall is_digit ip = true ->
  string_forall is_digit fp = true ->
  ip ++ fp <> "" ->
  stops is_digit_or_dot rest = true ->
  stops (Ascii.eqb "e"%char) rest = true ->
  exists a b,
    int_of_digits_from 0 ip = Some a
    /\ int_of_digits_from 0 fp = Some b
    /\ get_number_as_fraction expr origcode
       = Done (ip ++ "." ++ fp,
               (if NumExpr.n_negative expr
                then (a * 10 ^ Z.of_nat (String.length fp) + b) * -1
                else a * 10 ^ Z.of_nat (String.length fp) + b),
               10 ^ Z.of_nat (String.length fp)).
Proof.
  intros Hs Hip Hfp Hne Hrest He.
  destruct (int_of_digits_from_value ip Hip) as [a [Ha Hia]].
  destruct (int_of_digits_from_value fp Hfp) as [b [Hb Hib]].
  exists a, b.
  split; [rewrite Hia; f_equal; lia|]. split; [rewrite Hib; f_equal; lia|].
  unfold get_number_as_fraction. rewrite Hs. cbn [lift rbind].
  fold is_digit_or_dot.
  set (run := ip ++ "." ++ fp).
  assert (Hrun : string_forall is_digit_or_dot run = true).
  { unfold run. rewrite !string_forall_app.
    rewrite (digits_are_digits_or_dots ip Hip),
            (digits_are_digits_or_dots fp Hfp). reflexivity. }
  assert (Hslice : ip ++ "." ++ fp ++ rest = run ++ rest).
  { unfold run. now rewrite !string_app_assoc. }
  rewrite Hslice, (span_len_app is_digit_or_dot run rest Hrun Hrest).
  assert (Hget : (Nat.ltb (String.length run) (String.length (run ++ rest))
                  && match String.get (String.length run) (run ++ rest) with
                     | Some c => Ascii.eqb c "e"%char
                     | None => false
                     end) = false).
  { destruct rest as [|c rest'].
    - replace (run ++ "") with run
        by (clear; induction run as [|x r IH]; cbn; [|rewrite <- IH];
            reflexivity).
      now rewrite Nat.ltb_irrefl.
    - rewrite string_get_app. cbn [stops] in He.
      rewrite Ascii.eqb_sym. apply negb_true_iff in He. rewrite He.
      apply andb_false_r. }
  rewrite Hget, py_slice_to_take, string_take_app.
  unfold run at 1. rewrite !remove_dots_app.
  rewrite (remove_dots_digits ip Hip), (remove_dots_digits fp Hfp).
  cbn [remove_dots Ascii.eqb Bool.eqb append].
  change ("" ++ fp) with fp.
  rewrite (py_int_digits (ip ++ fp)
             (a * 10 ^ Z.of_nat (String.length fp) + b) Hne)
    by (rewrite int_of_digits_from_app, Hia, Hib; f_equal; lia).
  cbn [rbind].
  unfold run. change ("." ++ fp) with (String "."%char fp).
  rewrite (index_of_dot_digits ip fp Hip), string_length_app.
  cbn [String.length]. do 3 f_equal. lia.
Qed.

(** An integer literal is read with denominator one. *)
Theorem integer_literal_value
        (expr : NumExpr.t) (origcode : list string) (ip rest : string) :
  context_slice origcode expr = Ok (ip ++ rest) ->
  string_forall is_digit ip = true ->
  ip <> "" ->
  stops is_digit_or_dot rest = true ->
  stops (Ascii.eqb "e"%char) rest = true ->
  exists a,
    int_of_digits_from 0 ip = Some a
    /\ get_number_as_fraction expr origcode
       = Done (ip, (if NumExpr.n_negative expr then a * -1 else a), 1).
Proof.
  intros Hs Hip Hne Hrest He.
  destruct (int_of_digits_from_value ip Hip) as [a [Ha Hia]].
  exists a. split; [rewrite Hia; f_equal; lia|].
  unfold get_number_as_fraction. rewrite Hs. cbn [lift rbind].
  fold is_digit_or_dot.
  rewrite (span_len_app is_digit_or_dot ip rest
             (digits_are_digits_or_dots ip Hip) Hrest).
  assert (Hget : (Nat.ltb (String.length ip) (String.length (ip ++ rest))
                  && match String.get (String.length ip) (ip ++ rest) with
                     | Some c => Ascii.eqb c "e"%char
                     | None => false
                     end) = false).
  { destruct rest as [|c rest'].
    - replace (ip ++ "") with ip
        by (clear; induction ip as [|x r IH]; cbn; [|rewrite <- IH];
            reflexivity).
      now rewrite Nat.ltb_irrefl.
    - rewrite string_get_app. cbn [stops] in He.
      rewrite Ascii.eqb_sym. apply negb_true_iff in He. rewrite He.
      apply andb_false_r. }
  rewrite Hget, py_slice_to_take, string_take_app.
  rewrite (remove_dots_digits ip Hip).
  rewrite (py_int_digits ip a Hne) by (rewrite Hia; f_equal; lia).
  cbn [rbind]. now rewrite (index_of_dot_none ip Hip).
Qed.

(** When the source slice starts with no digit, no dot and no [e], the
    empty slice included, reading the literal fails inside [int()]. *)
Theorem no_digits_is_a_value_error
        (expr : NumExpr.t) (origcode : list string) (slice : string) :
  context_slice origcode expr = Ok slice ->
  stops is_digit_or_dot slice = true ->
  stops (Ascii.eqb "e"%char) slice = true ->
  get_number_as_fraction expr origcode = Fail ValueError.
Proof.
  intros Hs Hstop He. unfold get_number_as_fraction. rewrite Hs.
  cbn [lift rbind]. fold is_digit_or_dot.
  destruct slice as [|c s]; [reflexivity|].
  cbn [stops] in Hstop, He. apply negb_true_iff in Hstop, He.
  cbn [span_len]. rewrite Hstop. cbn [String.get String.length Nat.ltb Nat.leb andb].
  rewrite Ascii.eqb_sym, He. reflexivity.
Qed.

Lemma fraction_is_well_formed_witness :
  (exists k : nat, 100 = 10 ^ Z.of_nat k) /\ 0 < 100.
Proof.
  destruct (fraction_is_well_formed number_at_1_4 ["x = 123.45 + y"]
              "123.45" 12345 100 eq_refl) as [H1 [H2 _]].
  split; [exact H1 | exact H2].
Defined.

Lemma scientific_notation_is_refused_witness :
  get_number_as_fraction number_at_1_4 ["x = 1.5e3"]
  = Fail (Raised InvalidLiteralException).
Proof.
  apply (scientific_notation_is_refused number_at_1_4 ["x = 1.5e3"]
           "1.5" "3"); reflexivity.
Defined.

Lemma decimal_literal_value_witness :
  exists a b,
    int_of_digits_from 0 "123" = Some a
    /\ int_of_digits_from 0 "45" = Some b
    /\ get_number_as_fraction negative_number_at_1_4 ["x = 123.45 + y"]
       = Done ("123.45", (a * 10 ^ 2 + b) * -1, 10 ^ 2).
Proof.
  apply (decimal_literal_value negative_number_at_1_4 ["x = 123.45 + y"]
           "123" "45" " + y"); try reflexivity.
  discriminate.
Defined.

Lemma integer_literal_value_witness :
  exists a,
    int_of_digits_from 0 "42" = Some a
    /\ get_number_as_fraction number_at_1_4 ["x = 42"] = Done ("42", a, 1).
Proof.
  apply (integer_literal_value number_at_1_4 ["x = 42"] "42" "");
    try reflexivity.
  discriminate.
Defined.

Lemma no_digits_is_a_value_error_witness :
  get_number_as_fraction number_at_1_4 ["x = abc"] = Fail ValueError.
Proof.
  apply (no_digits_is_a_value_error number_at_1_4 ["x = abc"] "abc");
    reflexivity.
Defined.

(** ** Byte strings as numbers *)

(** [byte_array_to_num] knows two locations and two output types. Outside
    of them it reads a local that no branch assigned; inside, the result is
    an unlocated node of the output type. For [int128] the [offset]
    argument plays no role. *)
Theorem byte_array_to_num_cases
        (MINNUM MAXNUM : Z) (arg : LLLnode) (out_type : string) (offset : Z) :
  (forall n,
     byte_array_to_num MINNUM MAXNUM arg out_type offset = Ok n ->
     (location arg = Some "memory" \/ location arg = Some "storage")
     /\ (out_type = "int128" \/ out_type = "uint256")
     /\ typ n = Some (BaseType_str out_type)
     /\ location n = None)
  /\ ((location arg <> Some "memory" /\ location arg <> Some "storage")
      \/ (out_type <> "int128" /\ out_type <> "uint256") ->
      byte_array_to_num MINNUM MAXNUM arg out_type offset
      = Err UnboundLocalError)
  /\ (out_type = "int128" ->
      forall offset',
        byte_array_to_num MINNUM MAXNUM arg out_type offset
        = byte_array_to_num MINNUM MAXNUM arg out_type offset').
Proof.
  unfold byte_array_to_num, at_loc. split; [|split].
  - intros n H.
    destruct (loc_is (location arg) "memory") eqn:Em;
      [| destruct (loc_is (location arg) "storage") eqn:Es;
         [| discriminate H ] ];
      (destruct (String.eqb out_type "int128") eqn:Ei;
       [| destruct (String.eqb out_type "uint256") eqn:Eu;
          [| discriminate H ] ]);
      injection H as <-;
      repeat split;
      try (left; now apply loc_is_eq); try (right; now apply loc_is_eq);
      try (left; now apply String.eqb_eq);
      try (right; now apply String.eqb_eq).
  - intros [[Hm Hs]|[Hi Hu]].
    + apply loc_is_neq in Hm, Hs. now rewrite Hm, Hs.
    + apply String.eqb_neq in Hi, Hu. rewrite Hi, Hu.
      destruct (loc_is (location arg) "memory"); [reflexivity|].
      destruct (loc_is (location arg) "storage"); reflexivity.
  - intros -> offset'. reflexivity.
Qed.

Lemma byte_array_to_num_cases_witness :
  byte_array_to_num 96 64 bytes20_in_calldata "uint256" 32
  = Err UnboundLocalError.
Proof.
  apply (proj1 (proj2 (byte_array_to_num_cases 96 64 bytes20_in_calldata
                         "uint256" 32))).
  left. split; discriminate.
Defined.

(** ** Argument packing *)

Section Packing.

Context {env : VyperEnv}.
Variable has_dynamic_data : Typ -> bool.

Lemma py_range_length (n : nat) :
  List.length (py_range 0 (Z.of_nat n) 1) = n.
Proof.
  rewrite py_range_from_zero, length_map, length_seq. apply Nat2Z.id.
Qed.

Lemma map_snd_combine {A B : Type} (l1 : list A) (l2 : list B) :
  List.length l1 = List.length l2 -> map snd (combine l1 l2) = l2.
Proof.
  revert l2. induction l1 as [|a l1 IH]; intros [|b l2] H; cbn in *;
    try reflexivity; try discriminate.
  now rewrite IH by lia.
Qed.

Lemma existsb_over_map {A B : Type} (f : B -> bool) (g : A -> B)
      (l : list A) :
  existsb f (map g l) = existsb (fun a => f (g a)) l.
Proof. induction l as [|a l IH]; cbn; [reflexivity | now rewrite IH]. Qed.

Lemma copier_needs_located_source (destination source n : LLLnode) :
  make_byte_array_copier destination source = Ok n ->
  is_None (value source) = false ->
  location source = Some "memory" \/ location source = Some "storage".
Proof.
  intros H Hv.
  destruct (loc_is (location source) "memory") eqn:Em;
    [left; now apply loc_is_eq|].
  destruct (loc_is (location source) "storage") eqn:Es;
    [right; now apply loc_is_eq|].
  exfalso. unfold make_byte_array_copier in H.
  rewrite Hv, Em, Es in H. cbn [andb] in H.
  unfold unsupported_location in H.
  destruct (ByteArrayLike_maxlen (typ source)); [|discriminate H].
  destruct (ByteArrayLike_maxlen (typ destination)); [|discriminate H].
  destruct (z >? z0); [discriminate H|].
  destruct (location source); discriminate H.
Qed.

Lemma pack_argument_accepts fuel placeholder st i arg ty st' :
  pack_argument has_dynamic_data fuel placeholder st i arg ty = Ok st' ->
  packable has_dynamic_data arg ty
  /\ snd (fst st') = snd (fst st) || is_byte_string ty.
Proof.
  unfold pack_argument. destruct st as [[setters needpos] off].
  destruct ty as [b|m|m|sub c|kt vt|ms nm|ms]; cbn [packable is_byte_string];
    intro H; try discriminate H.
  - unfold bind in H. break_hyp H. injection H as <-.
    cbn. now rewrite orb_false_r.
  - assert (Hloc : location arg = Some "memory"
                   \/ location arg = Some "storage").
    { unfold bind in H.
      match type of H with
      | match ?c with _ => _ end = _ => destruct c eqn:Ec; [|discriminate H]
      end.
      now apply copier_needs_located_source in Ec. }
    split; [exact Hloc|].
    unfold bind in H. break_hyp H. injection H as <-.
    cbn. now rewrite orb_true_r.
  - assert (Hloc : location arg = Some "memory"
                   \/ location arg = Some "storage").
    { unfold bind in H.
      match type of H with
      | match ?c with _ => _ end = _ => destruct c eqn:Ec; [|discriminate H]
      end.
      now apply copier_needs_located_source in Ec. }
    split; [exact Hloc|].
    unfold bind in H. break_hyp H. injection H as <-.
    cbn. now rewrite orb_true_r.
  - destruct (has_dynamic_data (ListType sub c)) eqn:Ed; [discriminate H|].
    split; [reflexivity|].
    unfold bind in H. break_hyp H. injection H as <-.
    cbn. now rewrite orb_false_r.
  - destruct (has_dynamic_data (StructType ms nm)) eqn:Ed; [discriminate H|].
    split; [reflexivity|].
    unfold bind in H. break_hyp H. injection H as <-.
    cbn. now rewrite orb_false_r.
Qed.

Lemma pack_loop_accepts fuel placeholder items :
  forall st st',
    pack_loop has_dynamic_data fuel placeholder st items = Ok st' ->
    Forall (fun at_ => packable has_dynamic_data (fst at_) (snd at_))
           (map snd items)
    /\ snd (fst st')
       = snd (fst st)
         || existsb (fun at_ => is_byte_string (snd at_)) (map snd items).
Proof.
  induction items as [|[i [arg ty]] items IH]; intros st st' H.
  - injection H as <-. split; [constructor|]. cbn. now rewrite orb_false_r.
  - cbn [pack_loop] in H. unfold bind in H.
    destruct (pack_argument has_dynamic_data fuel placeholder st i arg ty)
      as [st1|] eqn:E1; [|discriminate H].
    destruct (pack_argument_accepts _ _ _ _ _ _ _ E1) as [Hp Hn].
    destruct (IH _ _ H) as [Hf Hn']. split.
    + cbn [map snd]. constructor; assumption.
    + rewrite Hn', Hn. cbn [map snd existsb]. now rewrite orb_assoc.
Qed.

(** A call with the wrong number of arguments is a structure error, and
    the scratch buffer for the payload has been allocated by then: the
    context comes back advanced by the size of the buffer. *)
Theorem pack_arguments_checks_arity_after_allocating
        (fuel : nat) (signature : Signature.t) (args : list LLLnode)
        (context : Context) (return_placeholder : bool) :
  List.length args <> List.length (Signature.args signature) ->
  let maxlen := total_words (Signature.args signature) * 32 + 32 in
  pack_arguments has_dynamic_data fuel signature args context
                 return_placeholder
  = (Fail StructureException,
     snd (new_placeholder context (ByteArrayType maxlen)))
  /\ next_placeholder (snd (new_placeholder context (ByteArrayType maxlen)))
     = next_placeholder context
       + 32 * get_size_of_type (ByteArrayType maxlen).
Proof.
  intros Hlen maxlen. split; [|reflexivity].
  unfold pack_arguments. fold (total_words (Signature.args signature)).
  fold maxlen. cbn [new_placeholder].
  apply Nat.eqb_neq in Hlen. now rewrite Hlen.
Qed.

(** When packing succeeds: the arities agree; every parameter is a
    scalar, a byte string (with its argument in memory or storage) or a
    struct or list without dynamic data, so no tuple or mapping is ever
    packed; the buffer is a byte string in memory of [32 * words + 32]
    bytes; the reported length is 28 less, the four bytes of the selector
    plus the arguments; the data offset is one word past the start of the
    buffer; and the code binds the running tail position exactly when some
    parameter is a byte string. *)
Theorem pack_arguments_result
        (fuel : nat) (signature : Signature.t) (args : list LLLnode)
        (context context' : Context) (return_placeholder : bool)
        (node : LLLnode) (len off : Z) :
  pack_arguments has_dynamic_data fuel signature args context
                 return_placeholder
  = (Done (node, len, off), context') ->
  let words := total_words (Signature.args signature) in
  List.length args = List.length (Signature.args signature)
  /\ Forall (fun at_ => packable has_dynamic_data (fst at_) (snd at_))
            (combine args (Signature.args signature))
  /\ typ node = Some (ByteArrayType (words * 32 + 32))
  /\ location node = Some "memory"
  /\ len = words * 32 + 4
  /\ off = next_placeholder context + 32
  /\ context' = snd (new_placeholder context
                                     (ByteArrayType (words * 32 + 32)))
  /\ value node
     = (if existsb is_byte_string (Signature.args signature)
        then VStr "with" else VStr "seq").
Proof.
  intros H words. unfold pack_arguments in H.
  fold (total_words (Signature.args signature)) in H. fold words in H.
  cbn [new_placeholder] in H.
  destruct (Nat.eqb (List.length args)
                    (List.length (Signature.args signature))) eqn:El;
    cbn [negb] in H; [|discriminate H].
  apply Nat.eqb_eq in El.
  match type of H with
  | match ?c with _ => _ end = _ => destruct c as [[[s np] so]|] eqn:Ep;
                                    [|discriminate H]
  end.
  destruct (pack_loop_accepts _ _ _ _ _ Ep) as [Hf Hn].
  unfold enumerate in Hf, Hn.
  rewrite map_snd_combine in Hf, Hn by apply py_range_length.
  cbn [fst snd orb] in Hn.
  assert (Hmap : existsb (fun at_ : LLLnode * Typ => is_byte_string (snd at_))
                         (combine args (Signature.args signature))
                 = existsb is_byte_string (Signature.args signature)).
  { rewrite <- (map_snd_combine args (Signature.args signature) El) at 2.
    now rewrite existsb_over_map. }
  rewrite Hmap in Hn.
  split; [exact El|]. split; [exact Hf|].
  injection H as <- <- <- <-.
  rewrite <- Hn. destruct np; repeat split; cbn; lia.
Qed.

End Packing.

Lemma pack_arguments_checks_arity_after_allocating_witness :
  pack_arguments (env := reference_env) (fun _ => false) 3 call_f
                 [literal_five] guarded_private true
  = (Fail StructureException,
     snd (new_placeholder (env := reference_env) guarded_private
                          (ByteArrayType (total_words (env := reference_env)
                                            (Signature.args call_f) * 32
                                          + 32)))).
Proof.
  apply (pack_arguments_checks_arity_after_allocating (env := reference_env)
           (fun _ => false) 3 call_f [literal_five] guarded_private true).
  cbn. lia.
Defined.

Lemma pack_arguments_result_witness :
  exists node context',
    pack_arguments (env := reference_env) (fun _ => false) 3 call_f
                   [literal_five; bytes5_argument] guarded_private true
    = (Done (node, 164, 352), context')
    /\ value node = VStr "with"
    /\ typ node = Some (ByteArrayType 192).
Proof.
  eexists. eexists. split; [reflexivity|].
  destruct (pack_arguments_result (env := reference_env) (fun _ => false) 3
              call_f [literal_five; bytes5_argument] guarded_private _ true
              _ _ _ eq_refl) as [_ [_ [Ht [_ [_ [_ [_ Hv]]]]]]].
  split; [exact Hv | exact Ht].
Defined.

(** ** Passes over the syntax tree *)

Section AstInduction.

Variable P : ast -> Prop.

Let holds_in (o : option ast) : Prop :=
  match o with Some n => P n | None => True end.

Hypothesis HNum : forall n, P (Num n).
Hypothesis HUnaryOp : forall op operand, P operand -> P (UnaryOp op operand).
Hypothesis HName : forall id, P (Name id).
Hypothesis HCall :
  forall func arguments, P func -> Forall P arguments -> P (Call func arguments).
Hypothesis HExpr : forall v, P v -> P (Expr v).
Hypothesis HReturn : forall v, holds_in v -> P (Return v).
Hypothesis HRaise : forall v, holds_in v -> P (Raise v).
Hypothesis HIf :
  forall test body orelse,
    P test -> Forall P body -> Forall P orelse -> P (If test body orelse).
Hypothesis HFunctionDef :
  forall name body returns,
    Forall P body -> holds_in returns ->
    P (FunctionDef name body returns).
Hypothesis HOtherNode : forall children, Forall P children -> P (OtherNode children).

(** Induction on syntax trees, with the hypothesis for every child. *)
Fixpoint ast_induction (node : ast) : P node :=
  let all :=
    fix go (l : list ast) : Forall P l :=
      match l with
      | [] => Forall_nil P
      | n :: l' => Forall_cons n (ast_induction n) (go l')
      end in
  let opt (o : option ast) : holds_in o :=
    match o with
    | Some m => ast_induction m
    | None => I
    end in
  match node with
  | Num n => HNum n
  | UnaryOp op operand => HUnaryOp op operand (ast_induction operand)
  | Name id => HName id
  | Call func arguments =>
      HCall func arguments (ast_induction func) (all arguments)
  | Expr v => HExpr v (ast_induction v)
  | Return v => HReturn v (opt v)
  | Raise v => HRaise v (opt v)
  | If test body orelse =>
      HIf test body orelse (ast_induction test) (all body) (all orelse)
  | FunctionDef name body returns =>
      HFunctionDef name body returns (all body) (opt returns)
  | OtherNode children => HOtherNode children (all children)
  end.

End AstInduction.

Lemma existsb_map_false {A : Type} (f : A -> bool) (g : A -> A) (l : list A) :
  Forall (fun x => f (g x) = false) l -> existsb f (map g l) = false.
Proof.
  induction 1 as [|x l Hx _ IH]; cbn; [reflexivity|]. now rewrite Hx, IH.
Qed.

Lemma map_fixed {A : Type} (f : A -> bool) (g : A -> A) (l : list A) :
  Forall (fun x => f x = false -> g x = x) l ->
  existsb f l = false -> map g l = l.
Proof.
  induction 1 as [|x l Hx _ IH]; cbn; [reflexivity|]. intro H.
  apply orb_false_iff in H. destruct H as [H1 H2].
  now rewrite Hx, IH.
Qed.

Lemma rewrite_leaves_no_negated_number (node : ast) :
  has_negated_number (rewrite_unary_sub node) = false.
Proof.
  induction node using ast_induction; cbn [rewrite_unary_sub has_negated_number];
    try reflexivity; try assumption.
  - destruct op, (rewrite_unary_sub node) eqn:E;
      cbn [has_negated_number] in *; try reflexivity; try assumption.
  - rewrite IHnode. now apply existsb_map_false.
  - destruct v; cbn; [assumption | reflexivity].
  - destruct v; cbn; [assumption | reflexivity].
  - rewrite IHnode. cbn [orb].
    rewrite (existsb_map_false _ _ _ H), (existsb_map_false _ _ _ H0).
    reflexivity.
  - rewrite (existsb_map_false _ _ _ H). destruct returns; cbn;
      [assumption | reflexivity].
  - now apply existsb_map_false.
Qed.

Lemma rewrite_fixes_clean_tree (node : ast) :
  has_negated_number node = false -> rewrite_unary_sub node = node.
Proof.
  induction node using ast_induction;
    cbn [rewrite_unary_sub has_negated_number]; intro Hc;
    try reflexivity.
  - destruct op, node; try discriminate Hc;
      rewrite (IHnode Hc); reflexivity.
  - apply orb_false_iff in Hc. destruct Hc as [H1 H2].
    now rewrite IHnode, (map_fixed _ _ _ H H2).
  - now rewrite IHnode.
  - destruct v; cbn; [now rewrite H | reflexivity].
  - destruct v; cbn; [now rewrite H | reflexivity].
  - apply orb_false_iff in Hc. destruct Hc as [Hc H3].
    apply orb_false_iff in Hc. destruct Hc as [H1 H2].
    now rewrite IHnode, (map_fixed _ _ _ H H2), (map_fixed _ _ _ H0 H3).
  - apply orb_false_iff in Hc. destruct Hc as [H1 H2].
    rewrite (map_fixed _ _ _ H H1).
    destruct returns; cbn; [now rewrite H0 | reflexivity].
  - now rewrite (map_fixed _ _ _ H Hc).
Qed.

Lemma rewrite_keeps_int_value (node : ast) :
  int_value (rewrite_unary_sub node) = int_value node.
Proof.
  induction node using ast_induction; cbn [rewrite_unary_sub int_value];
    try reflexivity.
  destruct op; cbn [int_value]; try rewrite <- IHnode;
    destruct (rewrite_unary_sub node); cbn [int_value option_map];
    try reflexivity.
Qed.

(** After [RewriteUnarySubVisitor] no negation is applied directly to a
    number anywhere in the tree, however deep the signs were stacked; the
    pass changes nothing when run again; and it keeps the value of every
    integer expression built from numbers and signs. *)
Theorem rewrite_unary_sub_normalises (node : ast) :
  has_negated_number (rewrite_unary_sub node) = false
  /\ rewrite_unary_sub (rewrite_unary_sub node) = rewrite_unary_sub node
  /\ int_value (rewrite_unary_sub node) = int_value node.
Proof.
  split; [apply rewrite_leaves_no_negated_number|].
  split; [|apply rewrite_keeps_int_value].
  apply rewrite_fixes_clean_tree, rewrite_leaves_no_negated_number.
Qed.

Lemma exit_before_last_spec (node_list : list ast) :
  exit_before_last node_list = false <-> exits_only_last node_list.
Proof.
  unfold exits_only_last. induction node_list as [|n l IH].
  - split; [|reflexivity]. intros _ pre m post H. now destruct pre.
  - destruct l as [|n' l'].
    + split; [|reflexivity]. intros _ pre m post H Hp.
      destruct pre as [|x pre]; cbn in H.
      * injection H as _ <-. contradiction.
      * injection H as _ H. now destruct pre.
    + cbn [exit_before_last]. rewrite orb_false_iff. split.
      * intros [Hn Hl] pre m post H Hp.
        destruct pre as [|x pre]; cbn in H.
        -- now injection H as <- _.
        -- injection H as _ H. apply (proj1 IH Hl pre m post H Hp).
      * intro H. split.
        -- apply (H [] n (n' :: l') eq_refl). discriminate.
        -- apply IH. intros pre m post E Hp.
           apply (H (n :: pre) m post); [cbn; now rewrite E | exact Hp].
Qed.

Lemma single_exit_when_last (node_list : list ast) :
  exit_before_last node_list = false ->
  (List.length (filter is_return_from_function node_list) <= 1)%nat.
Proof.
  induction node_list as [|n l IH]; [cbn; lia|].
  destruct l as [|n' l']; [cbn; destruct (is_return_from_function n); cbn; lia|].
  cbn [exit_before_last]. intro H.
  apply orb_false_iff in H. destruct H as [Hn Hl].
  cbn [filter]. rewrite Hn. apply IH, Hl.
Qed.

Lemma check_return_body_accepts (node_list : list ast) :
  check_return_body node_list = Done tt <-> exits_only_last node_list.
Proof.
  rewrite <- exit_before_last_spec. unfold check_return_body. split.
  - intro H.
    destruct (Nat.ltb 1 (List.length (filter is_return_from_function
                                             node_list)));
      [discriminate|].
    destruct (exit_before_last node_list); [discriminate | reflexivity].
  - intro H. pose proof (single_exit_when_last node_list H) as Hc.
    apply Nat.ltb_ge in Hc. now rewrite Hc, H.
Qed.

(** A body passes [check_return_body] exactly when no exit statement
    (return, raise or selfdestruct) stands before its last statement, and
    is refused with a [StructureException] otherwise: the count of exit
    statements decides nothing beyond that. *)
Theorem check_return_body_spec (node_list : list ast) :
  (check_return_body node_list = Done tt <-> exits_only_last node_list)
  /\ (check_return_body node_list = Fail StructureException
      <-> ~ exits_only_last node_list).
Proof.
  split; [apply check_return_body_accepts|].
  rewrite <- check_return_body_accepts. unfold check_return_body.
  destruct (Nat.ltb 1 (List.length (filter is_return_from_function
                                           node_list)));
    [|destruct (exit_before_last node_list)];
    (split; [discriminate | reflexivity])
    || (split; [discriminate | intro H; now elim H]).
Qed.

Lemma may_complete_cons (n : ast) (rest : list ast) :
  may_complete (n :: rest) <-> may_complete [n] /\ may_complete rest.
Proof.
  split.
  - intro H. inversion H; subst; (split; [|assumption]).
    + now apply complete_if_body; [|constructor].
    + now apply complete_if_orelse; [|constructor].
    + now apply complete_other; [| |constructor].
  - intros [Hn Hr]. inversion Hn; subst.
    + now apply complete_if_body.
    + now apply complete_if_orelse.
    + now apply complete_other.
Qed.

Lemma return_check_list_spec (l : list ast) :
  Forall (fun n => return_check n = false <-> may_complete [n]) l ->
  (existsb return_check l = false <-> may_complete l).
Proof.
  induction 1 as [|n l Hn _ IH]; cbn [existsb].
  - split; [constructor | reflexivity].
  - rewrite orb_false_iff, may_complete_cons, Hn, IH. reflexivity.
Qed.

Lemma return_check_node_spec (node : ast) :
  return_check node = false <-> may_complete [node].
Proof.
  induction node using ast_induction.
  all: try (split; [intros _; apply complete_other;
                    [reflexivity | discriminate | constructor]
                   | reflexivity]).
  - (* Expr: the selfdestruct call is an exit *)
    cbn [return_check]. destruct (is_return_from_function (Expr node)) eqn:E.
    + split; [discriminate|]. intro Hm. inversion Hm; subst. congruence.
    + split; [|reflexivity]. intros _.
      apply complete_other; [exact E | discriminate | constructor].
  - split; [discriminate|]. intro Hm. inversion Hm; subst. discriminate.
  - split; [discriminate|]. intro Hm. inversion Hm; subst. discriminate.
  - cbn [return_check is_return_from_function].
    rewrite andb_false_iff.
    rewrite (return_check_list_spec body H), (return_check_list_spec orelse H0).
    split.
    + intros [Hb|Ho];
        [apply complete_if_body | apply complete_if_orelse];
        try assumption; constructor.
    + intro Hc. inversion Hc; subst; [now left | now right|].
      exfalso. eapply H4. reflexivity.
Qed.

Lemma return_check_list_exits (node_list : list ast) :
  return_check_list node_list = true <-> ~ may_complete node_list.
Proof.
  unfold return_check_list.
  assert (H : existsb return_check node_list = false
              <-> may_complete node_list).
  { apply return_check_list_spec, Forall_forall.
    intros n _. apply return_check_node_spec. }
  destruct (existsb return_check node_list).
  - split; [|reflexivity]. intros _ Hc. apply H in Hc. discriminate.
  - split; [discriminate|]. intro Hn. exfalso. apply Hn, H. reflexivity.
Qed.

(** [return_check] answers that a list of statements always exits exactly
    when no path runs through it to its end: a path takes either branch of
    a conditional and passes over every other statement that is no exit,
    loops included. It answers no exactly when such a path exists. *)
Theorem return_check_spec (node_list : list ast) :
  (return_check_list node_list = true <-> ~ may_complete node_list)
  /\ (return_check_list node_list = false <-> may_complete node_list).
Proof.
  split; [apply return_check_list_exits|].
  unfold return_check_list.
  apply return_check_list_spec, Forall_forall.
  intros n _. apply return_check_node_spec.
Qed.

Lemma ast_children_induction (P : ast -> Prop) :
  (forall n, Forall P (child_nodes n) -> P n) -> forall n, P n.
Proof.
  intro H. induction n using ast_induction; apply H; cbn [child_nodes];
    repeat constructor; try assumption.
  - destruct v; [now repeat constructor | constructor].
  - destruct v; [now repeat constructor | constructor].
  - apply Forall_app. now split.
  - apply Forall_app. split; [assumption|].
    destruct returns; [now repeat constructor | constructor].
Qed.

Lemma inside_spec (ok : ast -> Prop) (n : ast) :
  (forall m, inside m n -> ok m)
  <-> ok n /\ Forall (fun c => forall m, inside m c -> ok m) (child_nodes n).
Proof.
  split.
  - intro H. split; [apply H; constructor|].
    apply Forall_forall. intros c Hc m Hm. apply H.
    eapply inside_child; eassumption.
  - intros [Hn Hc] m Hm. inversion Hm; subst; [exact Hn|].
    rewrite Forall_forall in Hc. eapply Hc; eassumption.
Qed.

Lemma rbind_done (a : res unit) (b : res unit) :
  rbind a (fun _ => b) = Done tt <-> a = Done tt /\ b = Done tt.
Proof.
  destruct a as [[]|f]; cbn; split; try tauto; try (intros [H _]; discriminate).
  discriminate.
Qed.

Lemma visit_all_spec (visit : ast -> res unit) (l : list ast) :
  visit_all visit l = Done tt <-> Forall (fun n => visit n = Done tt) l.
Proof.
  induction l as [|n l IH]; cbn [visit_all].
  - split; [constructor | reflexivity].
  - fold (visit_all visit). rewrite rbind_done, IH. split.
    + intros [H1 H2]. now constructor.
    + intro H. inversion H; subst. now split.
Qed.

Lemma visit_option_spec (visit : ast -> res unit) (o : option ast) :
  visit_option visit o = Done tt
  <-> Forall (fun n => visit n = Done tt)
             (match o with Some n => [n] | None => [] end).
Proof.
  destruct o; cbn; split; intro H; try constructor; try reflexivity.
  - exact H.
  - constructor.
  - now inversion H.
Qed.

Lemma Forall_singleton {A : Type} (P : A -> Prop) (a : A) :
  Forall P [a] <-> P a.
Proof.
  split; intro H; [now inversion H | now repeat constructor].
Qed.

Lemma Forall_cons_iff' {A : Type} (P : A -> Prop) (a : A) (l : list A) :
  Forall P (a :: l) <-> P a /\ Forall P l.
Proof.
  split; intro H; [inversion H; now split | destruct H; now constructor].
Qed.

Lemma ensure_single_exit_unfold (n : ast) :
  ensure_single_exit n = Done tt
  <-> Forall (fun c => ensure_single_exit c = Done tt) (child_nodes n)
      /\ bodies_exit_last n.
Proof.
  destruct n; cbn [ensure_single_exit child_nodes bodies_exit_last].
  - split; [intros _; split; [constructor | exact I] | reflexivity].
  - rewrite Forall_singleton. tauto.
  - split; [intros _; split; [constructor | exact I] | reflexivity].
  - fold (visit_all ensure_single_exit).
    rewrite rbind_done, visit_all_spec, Forall_cons_iff'. tauto.
  - rewrite Forall_singleton. tauto.
  - rewrite visit_option_spec. tauto.
  - rewrite visit_option_spec. tauto.
  - fold (visit_all ensure_single_exit).
    rewrite !rbind_done, !visit_all_spec, Forall_cons_iff', Forall_app.
    rewrite check_return_body_accepts.
    assert (Ho : match orelse with
                 | [] => Done tt
                 | _ :: _ => check_return_body orelse
                 end = Done tt <-> exits_only_last orelse).
    { rewrite <- check_return_body_accepts. destruct orelse; [|reflexivity].
      split; reflexivity. }
    rewrite Ho. tauto.
  - fold (visit_all ensure_single_exit).
    rewrite !rbind_done, visit_all_spec, visit_option_spec, Forall_app.
    rewrite check_return_body_accepts. tauto.
  - fold (visit_all ensure_single_exit). rewrite visit_all_spec. tauto.
Qed.

(** [EnsureSingleExitChecker] accepts a tree exactly when, in every
    function and every conditional found anywhere inside it, no exit
    statement stands before the last statement of a body or branch. *)
Theorem ensure_single_exit_spec (node : ast) :
  ensure_single_exit node = Done tt
  <-> forall m, inside m node -> bodies_exit_last m.
Proof.
  induction node using ast_children_induction.
  rewrite ensure_single_exit_unfold, inside_spec.
  assert (Hc : Forall (fun c => ensure_single_exit c = Done tt)
                      (child_nodes node)
               <-> Forall (fun c => forall m, inside m c -> bodies_exit_last m)
                          (child_nodes node)).
  { rewrite !Forall_forall. rewrite Forall_forall in H.
    split; intros Hf c Hin; apply (H c Hin), Hf, Hin. }
  tauto.
Qed.

Lemma unmatched_return_unfold (n : ast) :
  unmatched_return n = Done tt
  <-> Forall (fun c => unmatched_return c = Done tt) (child_nodes n)
      /\ returns_on_every_path n.
Proof.
  destruct n; cbn [unmatched_return child_nodes returns_on_every_path].
  - split; [intros _; split; [constructor | exact I] | reflexivity].
  - rewrite Forall_singleton. tauto.
  - split; [intros _; split; [constructor | exact I] | reflexivity].
  - fold (visit_all unmatched_return).
    rewrite rbind_done, visit_all_spec, Forall_cons_iff'. tauto.
  - rewrite Forall_singleton. tauto.
  - rewrite visit_option_spec. tauto.
  - rewrite visit_option_spec. tauto.
  - fold (visit_all unmatched_return).
    rewrite !rbind_done, !visit_all_spec, Forall_cons_iff', Forall_app. tauto.
  - fold (visit_all unmatched_return).
    rewrite !rbind_done, visit_all_spec, visit_option_spec, Forall_app.
    destruct returns as [r|].
    + rewrite <- return_check_list_exits.
      destruct (return_check_list body); cbn [negb];
        split; intros [Hb [Hr Hc]] || intros [[Hb Hr] Hc];
        try discriminate; repeat split; assumption.
    + tauto.
  - fold (visit_all unmatched_return). rewrite visit_all_spec. tauto.
Qed.

(** [UnmatchedReturnChecker] accepts a tree exactly when every function
    inside it that declares a return type has no path running off the end
    of its body. A function without a declared type is never refused. *)
Theorem unmatched_return_spec (node : ast) :
  unmatched_return node = Done tt
  <-> forall m, inside m node -> returns_on_every_path m.
Proof.
  induction node using ast_children_induction.
  rewrite unmatched_return_unfold, inside_spec.
  assert (Hc : Forall (fun c => unmatched_return c = Done tt)
                      (child_nodes node)
               <-> Forall (fun c => forall m, inside m c ->
                                              returns_on_every_path m)
                          (child_nodes node)).
  { rewrite !Forall_forall. rewrite Forall_forall in H.
    split; intros Hf c Hin; apply (H c Hin), Hf, Hin. }
  tauto.
Qed.

(** ** Padding *)

Section RunPadding.

Variable sha : Z -> Z.

Lemma eval_pad_var st rho x t l a :
  eval_pad sha st rho (mkLLL (VStr x) [] t l a)
  = eval sha st rho (mkLLL (VStr x) [] t l a).
Proof.
  unfold eval_pad. cbn [value args].
  destruct x as [|c x']; [reflexivity|].
  repeat match goal with
         | |- context [match ?s with EmptyString => _ | String _ _ => _ end] =>
             destruct s
         | |- context [match ?c with Ascii _ _ _ _ _ _ _ _ => _ end] =>
             destruct c
         | |- context [if ?b then _ else _] => destruct b
         end; reflexivity.
Qed.

Lemma eval_pad_add st rho x y t l a :
  eval_pad sha st rho (mkLLL (VStr "add") [x; y] t l a)
  = obind (eval_pad sha st rho x) (fun u =>
    obind (eval_pad sha st rho y) (fun v => Val ((u + v) mod WORD))).
Proof. reflexivity. Qed.

Lemma eval_pad_sub st rho x y t l a :
  eval_pad sha st rho (mkLLL (VStr "sub") [x; y] t l a)
  = obind (eval_pad sha st rho x) (fun u =>
    obind (eval_pad sha st rho y) (fun v => Val ((u - v) mod WORD))).
Proof. reflexivity. Qed.

Lemma eval_pad_ceil32 st rho x t l a :
  eval_pad sha st rho (mkLLL (VStr "ceil32") [x] t l a)
  = obind (eval_pad sha st rho x) (fun u => Val (ceil32 u)).
Proof. reflexivity. Qed.

Lemma eval_pad_int st rho z t l a :
  eval_pad sha st rho (mkLLL (VInt z) [] t l a) = Val (z mod WORD).
Proof. reflexivity. Qed.

Lemma eval_pad_mload st rho x t l a :
  eval_pad sha st rho (mkLLL (VStr "mload") [x] t l a)
  = obind (eval sha st rho x) (fun u => Val (mload st u)).
Proof. reflexivity. Qed.

Lemma exec_pad_with st rho name e body t1 l1 a1 t l a :
  exec_pad sha st rho
       (mkLLL (VStr "with") [mkLLL (VStr name) [] t1 l1 a1; e; body] t l a)
  = obind (eval_pad sha st rho e)
          (fun v => exec_pad sha st ((name, v) :: rho) body).
Proof. reflexivity. Qed.

Lemma exec_pad_calldatacopy st rho d s k t l a :
  exec_pad sha st rho (mkLLL (VStr "calldatacopy") [d; s; k] t l a)
  = obind (eval_pad sha st rho d) (fun dst =>
    obind (eval_pad sha st rho s) (fun src =>
    obind (eval_pad sha st rho k) (fun len =>
      Val (calldatacopy st dst src len)))).
Proof. reflexivity. Qed.

End RunPadding.

Lemma round_up_32 (x : Z) :
  0 <= x ->
  x <= (x + 31) / 32 * 32 <= x + 31 /\ ((x + 31) / 32 * 32) mod 32 = 0.
Proof.
  intro H. pose proof (Z.div_mod (x + 31) 32) as D.
  pose proof (Z.mod_pos_bound (x + 31) 32) as B.
  split; [lia|]. apply Z.mod_mul. lia.
Qed.

(** Running the code of [zero_pad] on a byte string whose length word at
    [p] holds [len] zeroes the bytes from the end of the payload up to the
    next multiple of 32, fewer than 32 of them, and leaves every other byte
    of memory as it was: the payload is padded, never cut. *)
Theorem zero_pad_clears_to_word_boundary
        (sha : Z -> Z) (bytez_placeholder : Raw) (st : VMState)
        (rho : list (string * Z)) (p : Z) :
  let place := from_list bytez_placeholder None None None in
  let len := mload st p in
  let pad := (len + 31) / 32 * 32 - len in
  eval sha st rho place = Val p ->
  eval_pad sha st (("len", len) :: rho) place = Val p ->
  0 <= p -> 0 <= len -> p + 32 + len + 31 < WORD ->
  exists st',
    exec_pad sha st rho (zero_pad bytez_placeholder) = Val st'
    /\ 0 <= pad < 32
    /\ (len + pad) mod 32 = 0
    /\ (forall a, p + 32 + len <= a < p + 32 + len + pad -> memory st' a = 0)
    /\ (forall a, a < p + 32 + len \/ p + 32 + len + pad <= a ->
                  memory st' a = memory st a).
Proof.
  intros place len pad He1 He2 Hp Hl Hb.
  destruct (round_up_32 len Hl) as [Hr Hm].
  assert (HW : WORD = 2 ^ 256) by reflexivity.
  assert (HWpos : 32 < WORD) by (rewrite HW; lia).
  exists (calldatacopy st (p + 32 + len)
                       (Z.of_nat (List.length (calldata st))) pad).
  split.
  - unfold zero_pad, mzero. build_nodes. fold place.
    rewrite exec_pad_with, eval_pad_mload, He1. cbn [obind]. fold len.
    rewrite exec_pad_with, !eval_pad_add, He2, eval_pad_int.
    cbn [obind].
    change (eval_pad sha st (("len", len) :: rho)
              {| value := VStr "len"; args := []; typ := None;
                 location := None; annotation := None |})
      with (Val (A := Z) len).
    cbn [obind].
    rewrite exec_pad_calldatacopy.
    match goal with
    | |- obind (eval_pad sha st ?r {| value := VStr "dst"; args := [];
                 typ := None; location := None; annotation := None |}) _ = _ =>
        change (eval_pad sha st r
                  {| value := VStr "dst"; args := []; typ := None;
                     location := None; annotation := None |})
          with (Val (A := Z) (((p + 32 mod WORD) mod WORD + len) mod WORD))
    end.
    cbn [obind].
    match goal with
    | |- obind (eval_pad sha st ?r {| value := VStr "calldatasize";
                 args := []; typ := None; location := None;
                 annotation := None |}) _ = _ =>
        change (eval_pad sha st r
                  {| value := VStr "calldatasize"; args := []; typ := None;
                     location := None; annotation := None |})
          with (Val (Z.of_nat (List.length (calldata st))))
    end.
    cbn [obind].
    rewrite eval_pad_sub, eval_pad_ceil32.
    match goal with
    | |- context [eval_pad sha st ?r {| value := VStr "len"; args := [];
                 typ := None; location := None; annotation := None |}] =>
        change (eval_pad sha st r
                  {| value := VStr "len"; args := []; typ := None;
                     location := None; annotation := None |})
          with (Val (A := Z) len)
    end.
    cbn [obind]. unfold ceil32.
    rewrite (Z.mod_small 32) by lia.
    rewrite (Z.mod_small (p + 32)) by lia.
    rewrite (Z.mod_small (p + 32 + len)) by lia.
    rewrite (Z.mod_small ((len + 31) / 32 * 32)) by lia.
    rewrite (Z.mod_small ((len + 31) / 32 * 32 - len)) by lia.
    reflexivity.
  - split; [unfold pad; lia|]. split.
    { unfold pad. replace (len + ((len + 31) / 32 * 32 - len))
        with ((len + 31) / 32 * 32) by lia. exact Hm. }
    split.
    + intros a Ha. cbn [memory calldatacopy].
      replace ((p + 32 + len <=? a) && (a <? p + 32 + len + pad)) with true
        by (symmetry; apply andb_true_iff; split;
            [apply Z.leb_le | apply Z.ltb_lt]; lia).
      apply calldata_byte_past_end. lia.
    + intros a Ha. cbn [memory calldatacopy].
      replace ((p + 32 + len <=? a) && (a <? p + 32 + len + pad)) with false;
        [reflexivity|].
      symmetry. apply andb_false_iff.
      destruct Ha; [left; apply Z.leb_gt | right; apply Z.ltb_ge]; lia.
Qed.

Lemma zero_pad_clears_to_word_boundary_witness :
  exists st',
    exec_pad (fun x => x) five_bytes_at_320 [] (zero_pad (RInt 320)) = Val st'
    /\ forall a, 357 <= a < 384 -> memory st' a = 0.
Proof.
  destruct (zero_pad_clears_to_word_boundary (fun x => x) (RInt 320)
              five_bytes_at_320 [] 320)
    as [st' [He [_ [_ [Hz _]]]]].
  - reflexivity.
  - reflexivity.
  - lia.
  - vm_compute. discriminate.
  - vm_compute. reflexivity.
  - exists st'. split; [exact He|]. intros a Ha. apply Hz.
    change (mload five_bytes_at_320 320) with 5.
    change ((5 + 31) / 32 * 32 - 5) with 27. lia.
Defined.

(** ** Labels of the return loop *)

Lemma py_str_inj (n m : Z) : py_str n = py_str m -> n = m.
Proof.
  unfold py_str. intro H.
  apply DecimalZ.to_int_inj.
  assert (Hn : forall z, Z.to_int z <> Decimal.Pos Decimal.Nil
                         /\ Z.to_int z <> Decimal.Neg Decimal.Nil).
  { intros [|p|p]; cbn; split; try discriminate;
      intro E; injection E; apply Unsigned.to_uint_nonnil. }
  apply (f_equal NilZero.int_of_string) in H.
  rewrite !NilZero.isi in H by apply Hn.
  now injection H.
Qed.

Lemma uint_string_has_no_separator (d : Decimal.uint) :
  string_forall not_separator (NilEmpty.string_of_uint d) = true.
Proof. induction d; cbn; auto. Qed.

Lemma py_str_has_no_separator (n : Z) :
  string_forall not_separator (py_str n) = true.
Proof.
  unfold py_str, NilZero.string_of_int, NilZero.string_of_uint.
  destruct (Z.to_int n) as [d|d]; destruct d; cbn;
    try reflexivity; apply uint_string_has_no_separator.
Qed.

Lemma split_at_separator (a a' b b' : string) :
  string_forall not_separator a = true ->
  string_forall not_separator a' = true ->
  a ++ "_" ++ b = a' ++ "_" ++ b' -> a = a' /\ b = b'.
Proof.
  revert a'. induction a as [|c a IH]; intros [|c' a'] Ha Ha' E; cbn in *.
  - injection E as E. now split.
  - injection E as Ec E. subst c'. discriminate.
  - injection E as Ec E. subst c. discriminate.
  - injection E as Ec E. subst c'.
    apply andb_true_iff in Ha, Ha'.
    destruct (IH a' (proj2 Ha) (proj2 Ha') E) as [-> ->]. now split.
Qed.

Lemma label_id_inj (m l c m' l' c' : Z) :
  py_str m ++ "_" ++ py_str l ++ "_" ++ py_str c
  = py_str m' ++ "_" ++ py_str l' ++ "_" ++ py_str c' ->
  m = m' /\ l = l' /\ c = c'.
Proof.
  intro E.
  apply split_at_separator in E; try apply py_str_has_no_separator.
  destruct E as [Em E].
  apply split_at_separator in E; try apply py_str_has_no_separator.
  destruct E as [El Ec].
  repeat split; now apply py_str_inj.
Qed.

Section ReturnLabels.

Context {env : VyperEnv}.

(** The loop a private epilogue emits when the returned range is not
    given by two integer literals: its second element declares the start
    label. *)
Lemma return_loop_shape (stmt : Stmt) (context : Context)
      (begin_pos _size : Raw) (loop_memory_position : option Raw) :
  is_private context = true ->
  unrolled begin_pos _size = false ->
  exists first rest tail,
    fst (make_return_stmt stmt context begin_pos _size loop_memory_position)
    = ROp "seq_unchecked"
          (ROp "seq_unchecked"
               (first
                :: ROp "label"
                     [RStr ("make_return_loop_start_"
                            ++ py_str (method_id context) ++ "_"
                            ++ py_str (lineno stmt) ++ "_"
                            ++ py_str (col_offset stmt))]
                :: rest)
           :: tail).
Proof.
  intros Hp Hu. unfold make_return_stmt. rewrite Hp.
  destruct loop_memory_position as [p|];
    [|destruct (new_placeholder context (BaseType_str "uint256")) as [p c]];
    destruct begin_pos as [[b| |]| |]; destruct _size as [[sz| |]| |];
    try discriminate Hu; cbn [fst]; do 3 eexists; reflexivity.
Qed.

(** The label of a return loop is built from the method id, the line and
    the column of the statement, each in decimal and joined by an
    underscore. Two private epilogues that emit a loop can only emit the
    same code when the three numbers agree: the labels of two different
    return statements never collide. *)
Theorem return_loop_labels_identify_statement
        (stmt stmt' : Stmt) (context context' : Context)
        (begin_pos _size begin_pos' _size' : Raw)
        (loop_memory_position loop_memory_position' : option Raw) :
  is_private context = true ->
  is_private context' = true ->
  unrolled begin_pos _size = false ->
  unrolled begin_pos' _size' = false ->
  fst (make_return_stmt stmt context begin_pos _size loop_memory_position)
  = fst (make_return_stmt stmt' context' begin_pos' _size'
                          loop_memory_position') ->
  method_id context = method_id context'
  /\ lineno stmt = lineno stmt'
  /\ col_offset stmt = col_offset stmt'.
Proof.
  intros Hp Hp' Hu Hu' E.
  destruct (return_loop_shape stmt context begin_pos _size
              loop_memory_position Hp Hu) as [f [r [t H]]].
  destruct (return_loop_shape stmt' context' begin_pos' _size'
              loop_memory_position' Hp' Hu') as [f' [r' [t' H']]].
  rewrite H, H' in E. unfold ROp, RStr in E.
  injection E as _ E _ _.
  apply label_id_inj. exact E.
Qed.

End ReturnLabels.

Lemma return_loop_labels_identify_statement_witness :
  method_id guarded_private = method_id guarded_private
  /\ lineno stmt_3_4 = lineno stmt_3_4
  /\ col_offset stmt_3_4 = col_offset stmt_3_4.
Proof.
  apply (return_loop_labels_identify_statement (env := reference_env)
           stmt_3_4 stmt_3_4 guarded_private guarded_private
           (ROp "mload" [RInt 0]) (RInt 32) (ROp "mload" [RInt 0]) (RInt 32)
           None None); reflexivity.
Defined.
